(** * HelixScreen G-code SDF reconstruction: a shallow embedding

    Source files embedded here:
    - [experimental/include/gcode_sdf_builder.h]
    - [experimental/src/gcode_sdf_builder.cpp]
    - [experimental/src/gcode_sparse_grid.cpp]

    Conventions of the embedding.
    - C++ [int] is [Z].  The flat index [z*res*res + y*res + x] of the dense
      grid is an [int] expression: it stays inside [int] for resolutions up
      to 1290 and overflows from 1291 on, where the embedding no longer
      describes the program.  [build] clamps the resolution to at most
      1024.  A [static_cast<int>] of a float is the integer itself; beyond
      the range of [int] the C++ conversion is undefined, and no lemma
      here relies on the value there.
    - [size_t], [uint64_t] and [uint32_t] arithmetic wraps: the wrap is
      written out with [mod].
    - C++ [float] is [Q]: a float is modelled by the rational it denotes.
      Only finite values are in the model, arithmetic is exact (no
      rounding), and a float literal is the binary32 value the compiler
      stores for it.  Comparisons are the exact ones.  Properties that
      would not survive the rounding of binary32 arithmetic are not
      stated.  The NaNs the marching cubes produce from finite values, the
      interpolation parameter [0/0] and the normalised zero vector, are
      modelled: a vertex or a normal with NaN coordinates is [None].
    - [std::vector] is a list with stdpp's lookup and insert;
      [std::unordered_map] and the NanoVDB tree are [gmap]s.
    - Exceptions (a failed allocation, a failed NanoVDB build) end the call
      and are outside the model. *)

From Stdlib Require Import ZArith QArith Qround Qabs Qminmax Lqa Lia List.
From Stdlib Require Import String Ascii.
From stdpp Require Import base option list gmap strings.

Local Open Scope Z_scope.

(** ** Floats *)

Module Float.

(** [a < b] on floats. *)
Definition ltb (a b : Q) : bool := negb (Qle_bool b a).

(** [std::numeric_limits<float>::max()] = (2^24 - 1) * 2^104. *)
Definition FLT_MAX : Q := inject_Z ((2 ^ 24 - 1) * 2 ^ 104).

(** Literals, each the binary32 value nearest to the decimal text. *)
Definition lit_0_1 : Q := 13421773 # 134217728.      (* 0.1f    *)
Definition lit_0_05 : Q := 13421773 # 268435456.     (* 0.05f   *)
Definition lit_0_0001 : Q := 13743895 # 137438953472. (* 0.0001f *)
Definition lit_0_25 : Q := 1 # 4.                    (* 0.25f   *)
Definition lit_10 : Q := 10 # 1.                     (* 10.0f   *)

(** [std::max(a, b)] is [(a < b) ? b : a]; [std::min(a, b)] is
    [(b < a) ? b : a].  glm's scalar [min] and [max] are the same. *)
Definition max (a b : Q) : Q := if ltb a b then b else a.
Definition min (a b : Q) : Q := if ltb b a then b else a.

(** [std::clamp(v, lo, hi)] is [(v < lo) ? lo : (hi < v) ? hi : v]. *)
Definition clamp (v lo hi : Q) : Q :=
  if ltb v lo then lo else if ltb hi v then hi else v.

(** [std::abs] on a float. *)
Definition abs (a : Q) : Q := Qabs a.

(** [std::floor] followed by [static_cast<int>]: the integer itself.  The
    C++ conversion is defined only when that integer fits [int]. *)
Definition floor (a : Q) : Z := Qfloor a.

(** [std::round] (halves away from zero) followed by [static_cast<int>],
    defined in C++ under the same condition. *)
Definition round (a : Q) : Z :=
  if ltb a 0 then Qceiling (a - (1 # 2)) else Qfloor (a + (1 # 2)).

(** [static_cast<float>(n)] for an [int]. *)
Definition of_int (n : Z) : Q := inject_Z n.

End Float.

(** ** Vectors (glm) *)

Record vec3 : Type := Vec3 { vx : Q; vy : Q; vz : Q }.
Record ivec3 : Type := IVec3 { ix : Z; iy : Z; iz : Z }.

(** A [glm::vec3] that may hold NaNs: a vector of finite floats, or [None]
    for the vector whose three coordinates are NaN.  That is what
    [glm::mix] returns for a NaN parameter and [glm::normalize] for the
    zero vector. *)
Definition fvec3 : Type := option vec3.

Module Glm.

Definition splat (a : Q) : vec3 := Vec3 a a a.
Definition add (a b : vec3) : vec3 :=
  Vec3 (vx a + vx b) (vy a + vy b) (vz a + vz b).
Definition sub (a b : vec3) : vec3 :=
  Vec3 (vx a - vx b) (vy a - vy b) (vz a - vz b).
Definition scale (a : vec3) (s : Q) : vec3 :=
  Vec3 (vx a * s) (vy a * s) (vz a * s).
Definition div (a : vec3) (s : Q) : vec3 :=
  Vec3 (vx a / s) (vy a / s) (vz a / s).
Definition min (a b : vec3) : vec3 :=
  Vec3 (Float.min (vx a) (vx b)) (Float.min (vy a) (vy b))
       (Float.min (vz a) (vz b)).
Definition max (a b : vec3) : vec3 :=
  Vec3 (Float.max (vx a) (vx b)) (Float.max (vy a) (vy b))
       (Float.max (vz a) (vz b)).
Definition dot (a b : vec3) : Q := vx a * vx b + vy a * vy b + vz a * vz b.
Definition cross (a b : vec3) : vec3 :=
  Vec3 (vy a * vz b - vy b * vz a)
       (vz a * vx b - vz b * vx a)
       (vx a * vy b - vx b * vy a).

(** [glm::mix(x, y, a)] is [x * (1 - a) + y * a]. *)
Definition mix1 (x y a : Q) : Q := x * (1 - a) + y * a.
Definition mix (x y : vec3) (a : Q) : vec3 :=
  Vec3 (mix1 (vx x) (vx y) a) (mix1 (vy x) (vy y) a) (mix1 (vz x) (vz y) a).

(** [glm::vec3(ivec3)]: component-wise int to float. *)
Definition of_ivec (v : ivec3) : vec3 :=
  Vec3 (Float.of_int (ix v)) (Float.of_int (iy v)) (Float.of_int (iz v)).

Definition iadd (a b : ivec3) : ivec3 :=
  IVec3 (ix a + ix b) (iy a + iy b) (iz a + iz b).
Definition imin (a b : ivec3) : ivec3 :=
  IVec3 (Z.min (ix a) (ix b)) (Z.min (iy a) (iy b)) (Z.min (iz a) (iz b)).
Definition imax (a b : ivec3) : ivec3 :=
  IVec3 (Z.max (ix a) (ix b)) (Z.max (iy a) (iy b)) (Z.max (iz a) (iz b)).
Definition isplat (n : Z) : ivec3 := IVec3 n n n.

End Glm.

(** Modelled from the spec: [AABB] is declared in [gcode_parser.h], outside
    the files embedded here; the spec gives it a [min] and a [max] corner,
    and [size()] is taken to be their difference. *)
Record AABB : Type := MkAABB { aabb_min : vec3; aabb_max : vec3 }.

Definition aabb_size (b : AABB) : vec3 := Glm.sub (aabb_max b) (aabb_min b).

(** ** Dense voxel grid *)

Record DenseVoxelGrid : Type := MkDense {
  resolution_ : Z;
  bounds_ : AABB;
  voxel_size_ : Q;
  data_ : list Q   (* flattened [z][y][x] *)
}.

Module Dense.

(** [static_cast<size_t>(n)] of an [int], and the product of two
    [size_t]s. *)
Definition to_size_t (n : Z) : Z := n mod 2 ^ 64.
Definition mul_size_t (a b : Z) : Z := (a * b) mod 2 ^ 64.

(** [total_voxels]: the [int]s are converted to [size_t] before they are
    multiplied, so the product wraps at [2^64] instead of overflowing. *)
Definition total_voxels (resolution : Z) : Z :=
  mul_size_t (mul_size_t (to_size_t resolution) (to_size_t resolution))
             (to_size_t resolution).

(** The constructor: voxel size from the largest axis, all cells at
    "far outside".  [resize] throws when the vector cannot be allocated;
    the exception leaves the constructor and is outside the model. *)
Definition make (resolution : Z) (bounds : AABB) : DenseVoxelGrid :=
  let size := aabb_size bounds in
  let max_dim := Float.max (Float.max (vx size) (vy size)) (vz size) in
  {| resolution_ := resolution;
     bounds_ := bounds;
     voxel_size_ := max_dim / Float.of_int (resolution - 1);
     data_ := replicate (Z.to_nat (total_voxels resolution)) Float.FLT_MAX |}.

(** [index]: the expression is evaluated in [int] and converted to
    [size_t] on return.  The value here is the mathematical one; it is the
    program's as long as no intermediate result leaves [int]
    ([index_steps] below), which holds for every in-range coordinate of a
    grid of resolution at most 1290. *)
Definition index (g : DenseVoxelGrid) (x y z : Z) : Z :=
  z * resolution_ g * resolution_ g + y * resolution_ g + x.

Definition in_bounds (g : DenseVoxelGrid) (x y z : Z) : bool :=
  (0 <=? x) && (x <? resolution_ g) && (0 <=? y) && (y <? resolution_ g)
  && (0 <=? z) && (z <? resolution_ g).

(** [data_[i]]: unchecked in C++.  [get] and [set] only reach it under
    [in_bounds], where the index is below the vector's size (lemma
    [index_in_range]); the [None] branch stands for the access that never
    happens. *)
Definition at_index (g : DenseVoxelGrid) (i : Z) : Q :=
  match data_ g !! Z.to_nat i with
  | Some v => v
  | None => Float.FLT_MAX
  end.

Definition get (g : DenseVoxelGrid) (x y z : Z) : Q :=
  if negb (in_bounds g x y z) then Float.FLT_MAX
  else at_index g (index g x y z).

Definition set (g : DenseVoxelGrid) (x y z : Z) (value : Q)
  : DenseVoxelGrid :=
  if in_bounds g x y z then
    {| resolution_ := resolution_ g;
       bounds_ := bounds_ g;
       voxel_size_ := voxel_size_ g;
       data_ := <[Z.to_nat (index g x y z) := value]> (data_ g) |}
  else g.

Definition world_to_voxel (g : DenseVoxelGrid) (pos : vec3) : ivec3 :=
  let voxel_pos := Glm.div (Glm.sub pos (aabb_min (bounds_ g)))
                           (voxel_size_ g) in
  IVec3 (Float.round (vx voxel_pos)) (Float.round (vy voxel_pos))
        (Float.round (vz voxel_pos)).

Definition voxel_to_world (g : DenseVoxelGrid) (voxel : ivec3) : vec3 :=
  Glm.add (aabb_min (bounds_ g))
          (Glm.scale (Glm.of_ivec voxel) (voxel_size_ g)).

Definition fill (g : DenseVoxelGrid) (value : Q) : DenseVoxelGrid :=
  {| resolution_ := resolution_ g;
     bounds_ := bounds_ g;
     voxel_size_ := voxel_size_ g;
     data_ := replicate (length (data_ g)) value |}.

(** [sample]: trilinear interpolation with the lattice clamped at the
    grid's edges. *)
Definition sample (g : DenseVoxelGrid) (pos : vec3) : Q :=
  let voxel_pos := Glm.div (Glm.sub pos (aabb_min (bounds_ g)))
                           (voxel_size_ g) in
  let x0 := Float.floor (vx voxel_pos) in
  let y0 := Float.floor (vy voxel_pos) in
  let z0 := Float.floor (vz voxel_pos) in
  let fx := (vx voxel_pos - Float.of_int x0)%Q in
  let fy := (vy voxel_pos - Float.of_int y0)%Q in
  let fz := (vz voxel_pos - Float.of_int z0)%Q in
  let x1 := Z.min (x0 + 1) (resolution_ g - 1) in
  let y1 := Z.min (y0 + 1) (resolution_ g - 1) in
  let z1 := Z.min (z0 + 1) (resolution_ g - 1) in
  let x0 := Z.max 0 x0 in
  let y0 := Z.max 0 y0 in
  let z0 := Z.max 0 z0 in
  let v000 := get g x0 y0 z0 in
  let v100 := get g x1 y0 z0 in
  let v010 := get g x0 y1 z0 in
  let v110 := get g x1 y1 z0 in
  let v001 := get g x0 y0 z1 in
  let v101 := get g x1 y0 z1 in
  let v011 := get g x0 y1 z1 in
  let v111 := get g x1 y1 z1 in
  let v00 := (v000 * (1 - fx) + v100 * fx)%Q in
  let v01 := (v001 * (1 - fx) + v101 * fx)%Q in
  let v10 := (v010 * (1 - fx) + v110 * fx)%Q in
  let v11 := (v011 * (1 - fx) + v111 * fx)%Q in
  let v0 := (v00 * (1 - fy) + v10 * fy)%Q in
  let v1 := (v01 * (1 - fy) + v11 * fy)%Q in
  (v0 * (1 - fz) + v1 * fz)%Q.

(** The size invariant the constructor establishes. *)
Definition wf (g : DenseVoxelGrid) : Prop :=
  0 <= resolution_ g /\
  Z.of_nat (length (data_ g)) = resolution_ g * resolution_ g * resolution_ g.

End Dense.

(** ** Build options *)

Inductive GridType : Type := Dense_grid | Sparse_grid.

Record SDFOptions : Type := MkOptions {
  grid_resolution : Z;
  smoothing_radius : Q;
  use_smooth_minimum : bool;
  segment_radius_mm : Q;
  iso_value : Q;
  grid_type : GridType;
  max_z_height : Q
}.

Module Options.

(** The member initialisers of [SDFOptions]. *)
Definition default : SDFOptions :=
  {| grid_resolution := 256;
     smoothing_radius := 1 # 2;
     use_smooth_minimum := true;
     segment_radius_mm := 14092861 # 67108864;   (* 0.21f *)
     iso_value := 0;
     grid_type := Dense_grid;
     max_z_height := Float.FLT_MAX |}.

(** [SDFOptions::validate]. *)
Definition validate (o : SDFOptions) : SDFOptions :=
  {| grid_resolution := Z.max 64 (Z.min 1024 (grid_resolution o));
     smoothing_radius :=
       Float.max Float.lit_0_1 (Float.min 2 (smoothing_radius o));
     use_smooth_minimum := use_smooth_minimum o;
     segment_radius_mm :=
       Float.max Float.lit_0_05 (Float.min 1 (segment_radius_mm o));
     iso_value := iso_value o;
     grid_type := grid_type o;
     max_z_height := max_z_height o |}.

Definition with_resolution (o : SDFOptions) (r : Z) : SDFOptions :=
  {| grid_resolution := r;
     smoothing_radius := smoothing_radius o;
     use_smooth_minimum := use_smooth_minimum o;
     segment_radius_mm := segment_radius_mm o;
     iso_value := iso_value o;
     grid_type := grid_type o;
     max_z_height := max_z_height o |}.

Definition with_segment_radius (o : SDFOptions) (r : Q) : SDFOptions :=
  {| grid_resolution := grid_resolution o;
     smoothing_radius := smoothing_radius o;
     use_smooth_minimum := use_smooth_minimum o;
     segment_radius_mm := r;
     iso_value := iso_value o;
     grid_type := grid_type o;
     max_z_height := max_z_height o |}.

Definition with_max_z (o : SDFOptions) (z : Q) : SDFOptions :=
  {| grid_resolution := grid_resolution o;
     smoothing_radius := smoothing_radius o;
     use_smooth_minimum := use_smooth_minimum o;
     segment_radius_mm := segment_radius_mm o;
     iso_value := iso_value o;
     grid_type := grid_type o;
     max_z_height := z |}.

End Options.

(** ** The toolpath *)

(** Modelled from the spec: [ToolpathSegment] and [ParsedGCodeFile] are
    declared in [gcode_parser.h], outside the files embedded here; the
    fields are those the builder reads. *)
Record ToolpathSegment : Type := MkSegment {
  seg_start : vec3;
  seg_end : vec3;
  is_extrusion : bool;
  feature_type : string
}.

Record Layer : Type := MkLayer { segments : list ToolpathSegment }.

Record ParsedGCodeFile : Type := MkGCode {
  layers : list Layer;
  global_bounding_box : AABB
}.

(** ** Library functions outside the rational model *)

(** [sqrtf], reached through [glm::length], [glm::distance] and
    [glm::normalize].  It has no exact rational counterpart, so the
    development is parametric in it. *)
Class Libm : Type := { sqrtf : Q -> Q }.

(** The two case tables of [marching_cubes_tables.h], a header outside the
    files embedded here, are parameters.  [edge_table i] is the 12-bit
    mask of crossed edges and [triangle_table i] the 16-entry row of edge
    numbers ended by [-1]. *)
Class McTables : Type := {
  edge_table : Z -> Z;
  triangle_table : Z -> list Z
}.

Module GlmLen.
Section WithLibm.
Context {libm : Libm}.

Definition length (v : vec3) : Q := sqrtf (Glm.dot v v).
Definition distance (a b : vec3) : Q := length (Glm.sub b a).

(** [glm::normalize(v)] is [v * inversesqrt(dot(v, v))].  For the zero
    vector the factor is infinite and every coordinate is [0 * inf], a
    NaN. *)
Definition normalize (v : vec3) : fvec3 :=
  if Qeq_bool (Glm.dot v v) 0 then None
  else Some (Glm.scale v (1 / sqrtf (Glm.dot v v))).
End WithLibm.
End GlmLen.

(** ** Loops and arrays *)

(** [for (i = lo; i < hi; ++i)] visits [range lo hi]; [for (i = lo; i <= hi;
    ++i)] visits [range_incl lo hi]. *)
Definition range (lo hi : Z) : list Z := seqZ lo (hi - lo).
Definition range_incl (lo hi : Z) : list Z := seqZ lo (hi - lo + 1).

(** The triple loop [for z .. for y .. for x .. body], innermost index
    first in [body]'s arguments. *)
Definition for3 {S : Type} (zs ys xs : list Z) (body : S -> Z -> Z -> Z -> S)
  (s : S) : S :=
  fold_left (fun s z =>
    fold_left (fun s y =>
      fold_left (fun s x => body s x y z) xs s) ys s) zs s.

(** The cells the triple loop visits, in order. *)
Definition cells3 (zs ys xs : list Z) : list (Z * Z * Z) :=
  z ← zs; y ← ys; x ← xs; [(x, y, z)].

(** [a[i]] on a fixed-size C array or a vector read inside its size. *)
Definition nthZ {A : Type} (d : A) (l : list A) (i : Z) : A :=
  nth (Z.to_nat i) l d.

(** ** [std::string::find] *)

Module Str.

Fixpoint find_from (needle hay : string) (pos : nat) : option nat :=
  if String.prefix needle hay then Some pos
  else match hay with
       | EmptyString => None
       | String _ rest => find_from needle rest (S pos)
       end.

(** [s.find(needle)]; [None] is [std::string::npos]. *)
Definition find (s needle : string) : option nat := find_from needle s 0.

(** [s.find(needle) != std::string::npos]. *)
Definition found (s needle : string) : bool :=
  match find s needle with Some _ => true | None => false end.

(** [s.empty()]. *)
Definition empty (s : string) : bool :=
  match s with EmptyString => true | _ => false end.

End Str.

(** ** Triangle mesh *)

Record TriangleMesh : Type := MkMesh {
  vertices : list fvec3;
  normals : list fvec3;
  indices : list Z
}.

Module Mesh.

(** A default-constructed [TriangleMesh]. *)
Definition empty_mesh : TriangleMesh :=
  {| vertices := []; normals := []; indices := [] |}.

(** [sizeof(glm::vec3)] is 12 and [sizeof(uint32_t)] is 4. *)
Definition memory_usage (m : TriangleMesh) : nat :=
  (length (vertices m) * 12 + length (normals m) * 12
   + length (indices m) * 4)%nat.

Definition triangle_count (m : TriangleMesh) : nat :=
  (length (indices m) / 3)%nat.

End Mesh.

(** [DenseVoxelGrid::memory_usage], with [sizeof(float)] = 4. *)
Definition dense_memory_usage (g : DenseVoxelGrid) : nat :=
  (length (data_ g) * 4)%nat.

(** ** The SDF builder *)

(** [SDFBuilder::BuildStats].  The three timing fields hold wall-clock
    durations and are left out. *)
Record BuildStats : Type := MkStats {
  input_segments : nat;
  output_triangles : nat;
  output_vertices : nat;
  voxel_grid_bytes : nat;
  output_mesh_bytes : nat
}.

Record SDFBuilder : Type := MkBuilder { stats_ : BuildStats }.

(** The locals of [generate_sdf] that live across loop iterations. *)
Record SdfState : Type := MkSdfState {
  sdf_grid : DenseVoxelGrid;
  segments_processed : nat;
  segments_filtered : nat;
  feature_type_counts : gmap string nat;
  filtered_type_counts : gmap string nat
}.

(** The three ways one iteration of the segment loop ends: the [continue]
    for travel moves, the [continue] for filtered feature types, or the
    fall-through into the rasterization loops. *)
Inductive SegmentFate : Type := Travel | Filtered | Rasterized.

#[global] Instance SegmentFate_eq_dec : EqDecision SegmentFate.
Proof. solve_decision. Defined.

(** The locals of [extract_surface] that live across loop iterations. *)
Record McState : Type := MkMcState {
  mc_mesh : TriangleMesh;
  vertex_cache : gmap Z Z;
  cubes_processed : nat;
  triangles_generated : nat
}.

(** The locals of the edge loop of one cube. *)
Record EdgeState : Type := MkEdgeState {
  es_vertices : list fvec3;
  es_normals : list fvec3;
  es_cache : gmap Z Z;
  edge_vertices : list Z
}.

Module Builder.

Section WithLibm.
Context {libm : Libm}.

Definition capsule_sdf (point start end_ : vec3) (radius : Q) : Q :=
  let segment := Glm.sub end_ start in
  let segment_length := GlmLen.length segment in
  if Float.ltb segment_length Float.lit_0_0001 then
    (GlmLen.distance point start - radius)%Q
  else
    let to_point := Glm.sub point start in
    let t := (Glm.dot to_point segment / (segment_length * segment_length))%Q in
    let t := Float.clamp t 0 1 in
    let closest := Glm.add start (Glm.scale segment t) in
    (GlmLen.distance point closest - radius)%Q.

Definition smooth_min (a b k : Q) : Q :=
  let h := (Float.max (k - Float.abs (a - b)) 0 / k)%Q in
  (Float.min a b - h * h * k * Float.lit_0_25)%Q.

(** The disjunction of the ten [find] tests. *)
Definition is_shell_feature (feature_type : string) : bool :=
  Str.found feature_type "wall" || Str.found feature_type "Wall"
  || Str.found feature_type "perimeter" || Str.found feature_type "Perimeter"
  || Str.found feature_type "surface" || Str.found feature_type "Surface"
  || Str.found feature_type "skin" || Str.found feature_type "Skin"
  || Str.found feature_type "bridge" || Str.found feature_type "Bridge".

Definition segment_fate (segment : ToolpathSegment) : SegmentFate :=
  if negb (is_extrusion segment) then Travel
  else if negb (Str.empty (feature_type segment)) then
    if negb (is_shell_feature (feature_type segment)) then Filtered
    else Rasterized
  else Rasterized.

(** [counts[key]++] on a [std::map<std::string, size_t>]. *)
Definition bump (key : string) (counts : gmap string nat) : gmap string nat :=
  <[key := S (default 0%nat (counts !! key))]> counts.

(** The body of the innermost rasterization loop. *)
Definition rasterize_voxel (segment : ToolpathSegment)
  (segment_radius smoothing_radius : Q) (grid : DenseVoxelGrid) (x y z : Z)
  : DenseVoxelGrid :=
  let voxel_center := Dense.voxel_to_world grid (IVec3 x y z) in
  let dist := capsule_sdf voxel_center (seg_start segment) (seg_end segment)
                          segment_radius in
  let current := Dense.get grid x y z in
  let blended := smooth_min current dist smoothing_radius in
  Dense.set grid x y z blended.

(** Clamping the index box to the grid: [glm::max(voxel_min, ivec3(0))]
    and [glm::min(voxel_max, ivec3(resolution - 1))]. *)
Definition clamp_box (grid : DenseVoxelGrid) (voxel_min voxel_max : ivec3)
  : ivec3 * ivec3 :=
  let voxel_min := Glm.imax voxel_min (Glm.isplat 0) in
  let voxel_max := Glm.imin voxel_max (Glm.isplat (resolution_ grid - 1)) in
  (voxel_min, voxel_max).

(** The clamped index box of a segment: [voxel_min] and [voxel_max]. *)
Definition voxel_box (grid : DenseVoxelGrid) (segment : ToolpathSegment)
  (influence_radius : Q) : ivec3 * ivec3 :=
  let seg_min := Glm.sub (Glm.min (seg_start segment) (seg_end segment))
                         (Glm.splat influence_radius) in
  let seg_max := Glm.add (Glm.max (seg_start segment) (seg_end segment))
                         (Glm.splat influence_radius) in
  let voxel_min := Dense.world_to_voxel grid seg_min in
  let voxel_max := Dense.world_to_voxel grid seg_max in
  clamp_box grid voxel_min voxel_max.

(** The three rasterization loops, over the index box from [voxel_min]
    to [voxel_max]. *)
Definition rasterize_box (segment : ToolpathSegment)
  (segment_radius smoothing_radius : Q) (voxel_min voxel_max : ivec3)
  (grid : DenseVoxelGrid) : DenseVoxelGrid :=
  for3 (range_incl (iz voxel_min) (iz voxel_max))
       (range_incl (iy voxel_min) (iy voxel_max))
       (range_incl (ix voxel_min) (ix voxel_max))
       (rasterize_voxel segment segment_radius smoothing_radius) grid.

(** From the bounding box to the end of the three loops. *)
Definition rasterize_segment (segment : ToolpathSegment)
  (segment_radius smoothing_radius influence_radius : Q)
  (grid : DenseVoxelGrid) : DenseVoxelGrid :=
  let '(voxel_min, voxel_max) := voxel_box grid segment influence_radius in
  rasterize_box segment segment_radius smoothing_radius voxel_min voxel_max
                grid.

(** One iteration of [for (const auto& segment : segments)]. *)
Definition process_segment (segment_radius smoothing_radius influence_radius : Q)
  (st : SdfState) (segment : ToolpathSegment) : SdfState :=
  match segment_fate segment with
  | Travel => st
  | fate =>
    let counted :=
      if negb (Str.empty (feature_type segment))
      then bump (feature_type segment) (feature_type_counts st)
      else bump "<empty>" (feature_type_counts st) in
    match fate with
    | Filtered =>
      {| sdf_grid := sdf_grid st;
         segments_processed := segments_processed st;
         segments_filtered := S (segments_filtered st);
         feature_type_counts := counted;
         filtered_type_counts :=
           bump (feature_type segment) (filtered_type_counts st) |}
    | _ =>
      {| sdf_grid := rasterize_segment segment segment_radius smoothing_radius
                       influence_radius (sdf_grid st);
         segments_processed := S (segments_processed st);
         segments_filtered := segments_filtered st;
         feature_type_counts := counted;
         filtered_type_counts := filtered_type_counts st |}
    end
  end.

(** [generate_sdf]: the returned state holds the mutated grid and the
    counters that the function logs before returning. *)
Definition generate_sdf (grid : DenseVoxelGrid)
  (segments : list ToolpathSegment) (segment_radius smoothing_radius : Q)
  : SdfState :=
  let voxel_size := voxel_size_ grid in
  let influence_radius := (segment_radius + smoothing_radius + voxel_size)%Q in
  fold_left (process_segment segment_radius smoothing_radius influence_radius)
    segments
    {| sdf_grid := grid;
       segments_processed := 0;
       segments_filtered := 0;
       feature_type_counts := ∅;
       filtered_type_counts := ∅ |}.

End WithLibm.

End Builder.

(** ** Marching cubes *)

Module MC.

(** [static_cast<uint64_t>] of an [int], and [<<] on [uint64_t]. *)
Definition to_u64 (n : Z) : Z := n mod 2 ^ 64.
Definition shl64 (n k : Z) : Z := Z.shiftl n k mod 2 ^ 64.

(** [static_cast<uint32_t>] of a [size_t]. *)
Definition to_u32 (n : Z) : Z := n mod 2 ^ 32.

Definition corner_offsets : list ivec3 :=
  [ IVec3 0 0 0; IVec3 1 0 0; IVec3 1 1 0; IVec3 0 1 0;
    IVec3 0 0 1; IVec3 1 0 1; IVec3 1 1 1; IVec3 0 1 1 ].

Definition edge_connections : list (Z * Z) :=
  [ (0, 1); (1, 2); (2, 3); (3, 0);
    (4, 5); (5, 6); (6, 7); (7, 4);
    (0, 4); (1, 5); (2, 6); (3, 7) ].

Definition corner_offset (i : Z) : ivec3 :=
  nthZ (IVec3 0 0 0) corner_offsets i.

Definition edge_connection (edge : Z) : Z * Z :=
  nthZ (0, 0) edge_connections edge.

(** The lambda [make_edge_key]. *)
Definition make_edge_key (c0 c1 : ivec3) : Z :=
  let min_c := Glm.imin c0 c1 in
  let max_c := Glm.imax c0 c1 in
  let axis := if negb (ix max_c =? ix min_c) then 0
              else if negb (iy max_c =? iy min_c) then 1 else 2 in
  Z.lor (Z.lor (Z.lor (shl64 (to_u64 (ix min_c)) 44)
                      (shl64 (to_u64 (iy min_c)) 30))
               (shl64 (to_u64 (iz min_c)) 16))
        (shl64 axis 14).

(** The two grid corners joined by local edge [edge] of the cube at
    [(x, y, z)]: [corner0] and [corner1] of the edge loop. *)
Definition edge_corners (x y z edge : Z) : ivec3 * ivec3 :=
  let '(c0, c1) := edge_connection edge in
  (Glm.iadd (IVec3 x y z) (corner_offset c0),
   Glm.iadd (IVec3 x y z) (corner_offset c1)).

Definition corner_values (grid : DenseVoxelGrid) (x y z : Z) : list Q :=
  map (fun off => let corner := Glm.iadd (IVec3 x y z) off in
                  Dense.get grid (ix corner) (iy corner) (iz corner))
      corner_offsets.

Definition corner_positions (grid : DenseVoxelGrid) (x y z : Z) : list vec3 :=
  map (fun off => Dense.voxel_to_world grid (Glm.iadd (IVec3 x y z) off))
      corner_offsets.

(** The classification loop: bit [i] is set when corner [i] is strictly
    below the iso-value. *)
Definition cube_index (values : list Q) (iso_value : Q) : Z :=
  fold_left (fun idx i =>
               if Float.ltb (nthZ 0%Q values i) iso_value
               then Z.lor idx (Z.shiftl 1 i) else idx)
            (range 0 8) 0.

(** The interpolation parameter of an edge:
    [(iso_value - v0) / (v1 - v0 + 0.0001f)], then [std::clamp] to
    [[0, 1]].  A zero denominator with a non-zero numerator gives an
    infinity, which clamps to 1 or to 0.  With both zero the quotient is
    NaN, [std::clamp] returns it unchanged, and the result is [None]. *)
Definition edge_parameter (v0 v1 iso_value : Q) : option Q :=
  let num := (iso_value - v0)%Q in
  let den := (v1 - v0 + Float.lit_0_0001)%Q in
  if Qeq_bool den 0 then
    if Qeq_bool num 0 then None
    else Some (if Float.ltb 0 num then 1%Q else 0%Q)
  else Some (Float.clamp (num / den) 0 1).

(** The crossing point of an edge: [glm::mix] of its two corner positions
    at the parameter; a NaN parameter makes all three coordinates NaN. *)
Definition interpolate (values : list Q) (positions : list vec3)
  (iso_value : Q) (c0 c1 : Z) : fvec3 :=
  let v0 := nthZ 0%Q values c0 in
  let v1 := nthZ 0%Q values c1 in
  t ← edge_parameter v0 v1 iso_value;
  Some (Glm.mix (nthZ (Vec3 0 0 0) positions c0)
                (nthZ (Vec3 0 0 0) positions c1) t).

(** The body of [for (int edge = 0; edge < 12; ++edge)]. *)
Definition edge_step (values : list Q) (positions : list vec3)
  (iso_value : Q) (x y z edge_flags : Z) (es : EdgeState) (edge : Z)
  : EdgeState :=
  if negb (Z.land edge_flags (Z.shiftl 1 edge) =? 0) then
    let '(c0, c1) := edge_connection edge in
    let '(corner0, corner1) := edge_corners x y z edge in
    let edge_key := make_edge_key corner0 corner1 in
    match es_cache es !! edge_key with
    | Some it =>
      {| es_vertices := es_vertices es;
         es_normals := es_normals es;
         es_cache := es_cache es;
         edge_vertices := <[Z.to_nat edge := it]> (edge_vertices es) |}
    | None =>
      let pos := interpolate values positions iso_value c0 c1 in
      let vertex_index := to_u32 (Z.of_nat (length (es_vertices es))) in
      {| es_vertices := es_vertices es ++ [pos];
         es_normals := es_normals es ++ [Some (Vec3 0 0 0)];
         es_cache := <[edge_key := vertex_index]> (es_cache es);
         edge_vertices := <[Z.to_nat edge := vertex_index]> (edge_vertices es) |}
    end
  else es.

(** [for (int i = 0; triangle_list[i] != -1; i += 3)], on the rest of the
    row from position [i]. *)
Fixpoint emit_triangles (triangle_list : list Z) (edge_vertices : list Z)
  (acc : list Z * nat) : list Z * nat :=
  match triangle_list with
  | e0 :: e1 :: e2 :: rest =>
    if e0 =? -1 then acc
    else emit_triangles rest edge_vertices
           (fst acc ++ [nthZ 0 edge_vertices e0; nthZ 0 edge_vertices e1;
                        nthZ 0 edge_vertices e2],
            S (snd acc))
  | _ => acc
  end.

Section WithTables.
Context {tables : McTables}.

(** The body of the three cube loops.  [edge_vertices] starts
    uninitialised in C++; its unwritten slots are never read when the two
    tables agree, and hold 0 here. *)
Definition process_cube (grid : DenseVoxelGrid) (iso_value max_z : Q)
  (st : McState) (x y z : Z) : McState :=
  let values := corner_values grid x y z in
  let positions := corner_positions grid x y z in
  if Float.ltb max_z (vz (nthZ (Vec3 0 0 0) positions 0)) then st
  else
    let index := cube_index values iso_value in
    if (index =? 0) || (index =? 255) then st
    else
      let edge_flags := edge_table index in
      let es := fold_left (edge_step values positions iso_value x y z edge_flags)
                  (range 0 12)
                  {| es_vertices := vertices (mc_mesh st);
                     es_normals := normals (mc_mesh st);
                     es_cache := vertex_cache st;
                     edge_vertices := replicate 12 0 |} in
      let '(new_indices, generated) :=
        emit_triangles (triangle_table index) (edge_vertices es)
                       (indices (mc_mesh st), triangles_generated st) in
      {| mc_mesh := {| vertices := es_vertices es;
                       normals := es_normals es;
                       indices := new_indices |};
         vertex_cache := es_cache es;
         cubes_processed := S (cubes_processed st);
         triangles_generated := generated |}.

(** The cube loops of [extract_surface], before the normals are computed. *)
Definition march (grid : DenseVoxelGrid) (iso_value max_z : Q) : McState :=
  let resolution := resolution_ grid in
  for3 (range 0 (resolution - 1)) (range 0 (resolution - 1))
       (range 0 (resolution - 1))
       (process_cube grid iso_value max_z)
       {| mc_mesh := Mesh.empty_mesh;
          vertex_cache := ∅;
          cubes_processed := 0;
          triangles_generated := 0 |}.

End WithTables.

Section WithLibm.
Context {libm : Libm}.

(** The accumulation loop over the index list, three indices at a time.
    A NaN vertex or a degenerate triangle makes the face normal NaN, and a
    NaN face normal makes the three sums NaN. *)
Fixpoint accumulate_normals (verts : list fvec3) (idx : list Z)
  (acc : list fvec3 * list Z) : list fvec3 * list Z :=
  match idx with
  | i0 :: i1 :: i2 :: rest =>
    let face_normal : fvec3 :=
      v0 ← nthZ None verts i0;
      v1 ← nthZ None verts i1;
      v2 ← nthZ None verts i2;
      let edge1 := Glm.sub v1 v0 in
      let edge2 := Glm.sub v2 v0 in
      GlmLen.normalize (Glm.cross edge1 edge2) in
    let bump_n := fun i l =>
      alter (fun n => a ← n; f ← face_normal; Some (Glm.add a f))
            (Z.to_nat i) l in
    let bump_c := fun i l => alter Z.succ (Z.to_nat i) l in
    accumulate_normals verts rest
      (bump_n i2 (bump_n i1 (bump_n i0 (fst acc))),
       bump_c i2 (bump_c i1 (bump_c i0 (snd acc))))
  | _ => acc
  end.

(** The per-vertex averaging loop, over [mesh.normals.size()] entries. *)
Definition vertex_normals (m : TriangleMesh) : list fvec3 :=
  let n := length (vertices m) in
  let '(normal_accum, normal_count) :=
    accumulate_normals (vertices m) (indices m)
                       (replicate n (Some (Vec3 0 0 0)), replicate n 0) in
  imap (fun i _ =>
          let count := nthZ 0 normal_count (Z.of_nat i) in
          if 0 <? count then
            a ← nthZ None normal_accum (Z.of_nat i);
            GlmLen.normalize (Glm.div a (Float.of_int count))
          else Some (Vec3 0 0 1))
       (normals m).

Context {tables : McTables}.

Definition extract_surface (grid : DenseVoxelGrid) (iso_value max_z : Q)
  : TriangleMesh :=
  let mesh := mc_mesh (march grid iso_value max_z) in
  {| vertices := vertices mesh;
     normals := vertex_normals mesh;
     indices := indices mesh |}.

End WithLibm.

End MC.

Module SDF.

Section WithParams.
Context {libm : Libm} {tables : McTables}.

(** The grid [build] allocates and rasterizes into. *)
Definition build_grid (gcode : ParsedGCodeFile) (options : SDFOptions)
  : SdfState :=
  let opts := Options.validate options in
  let all_segments := concat (map segments (layers gcode)) in
  let grid := Dense.make (grid_resolution opts) (global_bounding_box gcode) in
  Builder.generate_sdf grid all_segments (segment_radius_mm opts)
                       (smoothing_radius opts).

(** [SDFBuilder::build]: the mesh, and the builder with its statistics
    overwritten. *)
Definition build (self : SDFBuilder) (gcode : ParsedGCodeFile)
  (options : SDFOptions) : TriangleMesh * SDFBuilder :=
  let opts := Options.validate options in
  let all_segments := concat (map segments (layers gcode)) in
  let grid := sdf_grid (build_grid gcode options) in
  let mesh := MC.extract_surface grid (iso_value opts) (max_z_height opts) in
  (mesh,
   {| stats_ := {| input_segments := length all_segments;
                   output_triangles := Mesh.triangle_count mesh;
                   output_vertices := length (vertices mesh);
                   voxel_grid_bytes := dense_memory_usage grid;
                   output_mesh_bytes := Mesh.memory_usage mesh |} |}).

Definition last_stats (self : SDFBuilder) : BuildStats := stats_ self.

End WithParams.

End SDF.

(** ** Sparse voxel grid *)

(** The NanoVDB grid behind the opaque pointer.  NanoVDB is an external
    library: its tree is a finite map from coordinates to the values set
    through the builder, read with the builder's background value for
    every other coordinate. *)
Record NanoVDBGridStorage : Type := MkStorage {
  nano_tree : gmap (Z * Z * Z) Q;
  nano_background : Q
}.

Record SparseVoxelGrid : Type := MkSparse {
  sparse_resolution_ : Z;
  sparse_bounds_ : AABB;
  sparse_voxel_size_ : Q;
  nanovdb_grid_ : option NanoVDBGridStorage;   (* [None] is [nullptr] *)
  dense_equivalent_ : nat
}.

Module Sparse.

(** [accessor.getValue(nanovdb::Coord(x, y, z))]. *)
Definition getValue (s : NanoVDBGridStorage) (x y z : Z) : Q :=
  default (nano_background s) (nano_tree s !! (x, y, z)).

(** The body of the conversion loops: the builder's tree and the count of
    stored voxels. *)
Definition copy_voxel (dense_grid : DenseVoxelGrid)
  (st : gmap (Z * Z * Z) Q * nat) (x y z : Z) : gmap (Z * Z * Z) Q * nat :=
  let value := Dense.get dense_grid x y z in
  if Float.ltb value Float.lit_10
  then (<[(x, y, z) := value]> (fst st), S (snd st))
  else st.

(** The converting constructor.  The failure of [createNanoGrid] (the
    [throw]) is outside the model. *)
Definition make (dense_grid : DenseVoxelGrid) : SparseVoxelGrid :=
  let resolution := resolution_ dense_grid in
  let '(tree, non_background_voxels) :=
    for3 (range 0 resolution) (range 0 resolution) (range 0 resolution)
         (copy_voxel dense_grid) (∅, 0%nat) in
  {| sparse_resolution_ := resolution;
     sparse_bounds_ := bounds_ dense_grid;
     sparse_voxel_size_ := voxel_size_ dense_grid;
     nanovdb_grid_ := Some {| nano_tree := tree;
                              nano_background := Float.FLT_MAX |};
     dense_equivalent_ := dense_memory_usage dense_grid |}.

Definition get (g : SparseVoxelGrid) (x y z : Z) : Q :=
  match nanovdb_grid_ g with
  | None => Float.FLT_MAX
  | Some storage => getValue storage x y z
  end.

(** What the tree holds at a coordinate: [None] when nothing was stored. *)
Definition stored (g : SparseVoxelGrid) (x y z : Z) : option Q :=
  storage ← nanovdb_grid_ g; nano_tree storage !! (x, y, z).

Definition world_to_voxel (g : SparseVoxelGrid) (pos : vec3) : ivec3 :=
  let normalized := Glm.div (Glm.sub pos (aabb_min (sparse_bounds_ g)))
                            (sparse_voxel_size_ g) in
  let hi := sparse_resolution_ g - 1 in
  let clampi := fun v => if v <? 0 then 0 else if hi <? v then hi else v in
  IVec3 (clampi (Float.floor (vx normalized)))
        (clampi (Float.floor (vy normalized)))
        (clampi (Float.floor (vz normalized))).

Definition voxel_to_world (g : SparseVoxelGrid) (voxel : ivec3) : vec3 :=
  Glm.add (aabb_min (sparse_bounds_ g))
          (Glm.scale (Glm.of_ivec voxel) (sparse_voxel_size_ g)).

(** [SparseVoxelGrid::sample]: trilinear interpolation over the eight
    tree values around the clamped cell of [pos]. *)
Definition sample (g : SparseVoxelGrid) (pos : vec3) : Q :=
  match nanovdb_grid_ g with
  | None => Float.FLT_MAX
  | Some storage =>
    let voxel := world_to_voxel g pos in
    let grid_pos := Glm.div (Glm.sub pos (aabb_min (sparse_bounds_ g)))
                            (sparse_voxel_size_ g) in
    let frac := Glm.sub grid_pos (Glm.of_ivec voxel) in
    let v000 := getValue storage (ix voxel) (iy voxel) (iz voxel) in
    let v001 := getValue storage (ix voxel) (iy voxel) (iz voxel + 1) in
    let v010 := getValue storage (ix voxel) (iy voxel + 1) (iz voxel) in
    let v011 := getValue storage (ix voxel) (iy voxel + 1) (iz voxel + 1) in
    let v100 := getValue storage (ix voxel + 1) (iy voxel) (iz voxel) in
    let v101 := getValue storage (ix voxel + 1) (iy voxel) (iz voxel + 1) in
    let v110 := getValue storage (ix voxel + 1) (iy voxel + 1) (iz voxel) in
    let v111 := getValue storage (ix voxel + 1) (iy voxel + 1) (iz voxel + 1) in
    let v00 := (v000 * (1 - vx frac) + v100 * vx frac)%Q in
    let v01 := (v001 * (1 - vx frac) + v101 * vx frac)%Q in
    let v10 := (v010 * (1 - vx frac) + v110 * vx frac)%Q in
    let v11 := (v011 * (1 - vx frac) + v111 * vx frac)%Q in
    let v0 := (v00 * (1 - vy frac) + v10 * vy frac)%Q in
    let v1 := (v01 * (1 - vy frac) + v11 * vy frac)%Q in
    (v0 * (1 - vz frac) + v1 * vz frac)%Q
  end.

(** The conversion loops of the constructor on their own: the builder's
    tree and [non_background_voxels]. *)
Definition convert (dense_grid : DenseVoxelGrid) : gmap (Z * Z * Z) Q * nat :=
  let resolution := resolution_ dense_grid in
  for3 (range 0 resolution) (range 0 resolution) (range 0 resolution)
       (copy_voxel dense_grid) (∅, 0%nat).

End Sparse.

(** ** Notions used to state the properties *)

(** Two grids that differ at most in the contents of their cells. *)
Definition same_shape (g g' : DenseVoxelGrid) : Prop :=
  resolution_ g' = resolution_ g /\ bounds_ g' = bounds_ g /\
  voxel_size_ g' = voxel_size_ g /\ length (data_ g') = length (data_ g).

(** A coordinate triple inside [[0, resolution)] on every axis. *)
Definition in_range (g : DenseVoxelGrid) (x y z : Z) : Prop :=
  0 <= x < resolution_ g /\ 0 <= y < resolution_ g /\ 0 <= z < resolution_ g.

(** The world-space height of the lowest corner of the cube at [(x, y, z)]:
    [corner_positions[0].z]. *)
Definition lowest_corner_z (g : DenseVoxelGrid) (x y z : Z) : Q :=
  vz (nthZ (Vec3 0 0 0) (MC.corner_positions g x y z) 0).

(** The key the edge loop computes for local edge [edge] of a cube. *)
Definition edge_key_of (x y z edge : Z) : Z :=
  MC.make_edge_key (MC.edge_corners x y z edge).1 (MC.edge_corners x y z edge).2.

(** Two edges with the same pair of end corners, in either order. *)
Definition same_corners (a b : ivec3 * ivec3) : Prop :=
  (a.1 = b.1 /\ a.2 = b.2) \/ (a.1 = b.2 /\ a.2 = b.1).

Section CubeNotions.
Context {tables : McTables}.

(** The cube at [c] passes both [continue]s: it is not above the cutoff
    and it has a surface crossing. *)
Definition crossing (g : DenseVoxelGrid) (iso_value max_z : Q) (c : Z * Z * Z)
  : bool :=
  let index := MC.cube_index (MC.corner_values g c.1.1 c.1.2 c.2) iso_value in
  negb (Float.ltb max_z (lowest_corner_z g c.1.1 c.1.2 c.2))
  && negb ((index =? 0) || (index =? 255)).

(** Local edge [edge] of the cube at [c] has its bit set in [edge_flags]. *)
Definition crossed_edge (g : DenseVoxelGrid) (iso_value : Q) (c : Z * Z * Z)
  (edge : Z) : bool :=
  let index := MC.cube_index (MC.corner_values g c.1.1 c.1.2 c.2) iso_value in
  negb (Z.land (edge_table index) (Z.shiftl 1 edge) =? 0).

(** Two distinct crossing cubes with a crossed edge in common. *)
Definition share_crossed_edge (g : DenseVoxelGrid) (iso_value max_z : Q)
  (c1 c2 : Z * Z * Z) : Prop :=
  c1 <> c2 /\
  crossing g iso_value max_z c1 = true /\
  crossing g iso_value max_z c2 = true /\
  exists e1 e2, 0 <= e1 < 12 /\ 0 <= e2 < 12 /\
    crossed_edge g iso_value c1 e1 = true /\
    crossed_edge g iso_value c2 e2 = true /\
    same_corners (MC.edge_corners c1.1.1 c1.1.2 c1.2 e1)
                 (MC.edge_corners c2.1.1 c2.1.2 c2.2 e2).

End CubeNotions.

(** How many segments of a list meet a given fate. *)
Definition count_fate (fate : SegmentFate) (segs : list ToolpathSegment) : nat :=
  length (filter (fun s => Builder.segment_fate s = fate) segs).

(** [kw] occurs in [s] as a contiguous substring. *)
Definition is_substring (kw s : string) : Prop :=
  exists pre post, s = String.append pre (String.append kw post).

(** The ten literals the rasterizer searches for. *)
Definition code_keywords : list string :=
  [ "wall"; "Wall"; "perimeter"; "Perimeter"; "surface"; "Surface";
    "skin"; "Skin"; "bridge"; "Bridge" ]%string.

(** The filter as the specification words it: the five keywords
    shell, perimeter, surface, skin and bridge, matched as substrings
    without regard to case. *)
Module SpecFilter.

Definition to_lower_ascii (c : ascii) : ascii :=
  let n := nat_of_ascii c in
  if (65 <=? n)%nat && (n <=? 90)%nat then ascii_of_nat (n + 32) else c.

Fixpoint to_lower (s : string) : string :=
  match s with
  | EmptyString => EmptyString
  | String c rest => String (to_lower_ascii c) (to_lower rest)
  end.

Definition keywords : list string :=
  [ "shell"; "perimeter"; "surface"; "skin"; "bridge" ]%string.

Definition label_matches (label : string) : bool :=
  existsb (Str.found (to_lower label)) keywords.

Definition rasterized (segment : ToolpathSegment) : bool :=
  is_extrusion segment
  && (Str.empty (feature_type segment) || label_matches (feature_type segment)).

End SpecFilter.

(** A coordinate triple inside the index box [(voxel_min, voxel_max)]. *)
Definition in_voxel_box (b : ivec3 * ivec3) (x y z : Z) : Prop :=
  (ix b.1 <= x <= ix b.2) /\ (iy b.1 <= y <= iy b.2) /\ (iz b.1 <= z <= iz b.2).


(** ** Instances for the closed examples *)

Module Examples.

(** A square root that is exact on the squares of rationals and rounds
    down elsewhere; the examples only take roots of squares. *)
Definition sqrt_floor (q : Q) : Q :=
  Z.sqrt (Qnum q * Zpos (Qden q)) # Qden q.

Definition libm : Libm := {| sqrtf := sqrt_floor |}.

(** The rule that defines the standard edge table: an edge is crossed when
    exactly one of its two corners is inside. *)
Definition rule_edge_table (index : Z) : Z :=
  fold_left (fun flags edge =>
               let '(c0, c1) := MC.edge_connection edge in
               if xorb (Z.testbit index c0) (Z.testbit index c1)
               then Z.lor flags (Z.shiftl 1 edge) else flags)
            (range 0 12) 0.

Definition row (l : list Z) : list Z := l ++ replicate (16 - length l) (-1).

(** The rows of the standard triangle table for the eight configurations
    with a single corner inside; the other rows are left empty. *)
Definition one_corner_rows (index : Z) : list Z :=
  row (if index =? 1 then [0; 8; 3]
       else if index =? 2 then [0; 1; 9]
       else if index =? 4 then [1; 2; 10]
       else if index =? 8 then [3; 11; 2]
       else if index =? 16 then [4; 7; 8]
       else if index =? 32 then [9; 5; 4]
       else if index =? 64 then [10; 6; 5]
       else if index =? 128 then [7; 6; 11]
       else []).

(** The case tables of the examples.  Every theorem is proved for
    arbitrary tables; this instance only makes the examples closed. *)
Definition tables : McTables :=
  {| edge_table := rule_edge_table; triangle_table := one_corner_rows |}.

(** An 8^3 grid over [[0,7]^3], voxel size 1. *)
Definition example_grid : DenseVoxelGrid :=
  Dense.make 8 (MkAABB (Vec3 0 0 0) (Vec3 7 7 7)).

(** A vertical segment from [(3.5, 3, 3)] to [(3.5, 3, 5)]. *)
Definition example_segment : ToolpathSegment :=
  MkSegment (Vec3 (7 # 2) 3 3) (Vec3 (7 # 2) 3 5) true "Outer wall".

(** Two segments on the same line: an infill move and a travel move. *)
Definition infill_segment : ToolpathSegment :=
  MkSegment (Vec3 1 1 1) (Vec3 6 1 1) true "Internal infill".

Definition travel_segment : ToolpathSegment :=
  MkSegment (Vec3 1 1 1) (Vec3 6 1 1) false "Internal infill".

Definition toolpath (segs : list ToolpathSegment) : ParsedGCodeFile :=
  {| layers := [ {| segments := segs |} ];
     global_bounding_box := MkAABB (Vec3 0 0 0) (Vec3 7 7 7) |}.

(** A 3^3 grid over [[0,2]^3] (voxel size 1) whose centre cell alone is
    inside: the iso-surface at 0 is an octahedron around the centre. *)
Definition octahedron_grid : DenseVoxelGrid :=
  Dense.set (Dense.fill (Dense.make 3 (MkAABB (Vec3 0 0 0) (Vec3 2 2 2))) 1)
            1 1 1 (-1).

(** [0.001f]. *)
Definition lit_0_001 : Q := 8589935 # 8589934592.

(** A 2^3 grid over the unit cube: the first corner of its one cube is
    exactly on the surface, the corner next to it along x is [0.0001f]
    inside, the other six are outside. *)
Definition degenerate_grid : DenseVoxelGrid :=
  Dense.set
    (Dense.set (Dense.fill (Dense.make 2 (MkAABB (Vec3 0 0 0) (Vec3 1 1 1))) 1)
               0 0 0 0)
    1 0 0 (- Float.lit_0_0001).

End Examples.

(** ** Notions used to state further properties *)

(** The edge numbers the triangle loop reads from a row: everything before
    a [-1] at a position that is a multiple of three. *)
Fixpoint row_edges (triangle_list : list Z) : list Z :=
  match triangle_list with
  | e0 :: e1 :: e2 :: rest =>
    if e0 =? -1 then [] else e0 :: e1 :: e2 :: row_edges rest
  | _ => []
  end.

(** The two case tables agree: every edge a triangle row names is one of
    the twelve and is marked as crossed in the edge table. *)
Definition tables_agree (tables : McTables) : Prop :=
  forall index e, e ∈ row_edges (triangle_table index) ->
    0 <= e < 12 /\ (Z.land (edge_table index) (Z.shiftl 1 e) =? 0) = false.

(** A mesh whose index list is made of whole triangles that name existing
    vertices, with one normal per vertex. *)
Definition mesh_well_formed (m : TriangleMesh) : Prop :=
  length (normals m) = length (vertices m) /\
  (length (indices m) mod 3 = 0)%nat /\
  forall i, i ∈ indices m -> 0 <= i < Z.of_nat (length (vertices m)).

(** A coordinate below [2^14] on every axis: what fits the fields of an
    edge key. *)
Definition fits_key (x y z : Z) : Prop :=
  0 <= x < 2 ^ 14 - 1 /\ 0 <= y < 2 ^ 14 - 1 /\ 0 <= z < 2 ^ 14 - 1.

(** The neighbour of a grid corner one step along axis [a] (0 = x, 1 = y,
    2 = z). *)
Definition unit_step (a : Z) (c : ivec3) : ivec3 :=
  if a =? 0 then IVec3 (ix c + 1) (iy c) (iz c)
  else if a =? 1 then IVec3 (ix c) (iy c + 1) (iz c)
  else IVec3 (ix c) (iy c) (iz c + 1).

(** The number a key packs: 14-bit fields for y and z, the axis in two
    bits below them, x on top. *)
Definition key_code (m : ivec3) (a : Z) : Z :=
  ix m * 2 ^ 44 + iy m * 2 ^ 30 + iz m * 2 ^ 16 + a * 2 ^ 14.

(** A value inside the range of [int]. *)
Definition fits_int (n : Z) : Prop := - 2 ^ 31 <= n < 2 ^ 31.

(** The results the [int] expression of [index] passes through, in the
    order C++ evaluates them: [z * resolution_], [z * resolution_ *
    resolution_], [y * resolution_], and the two sums. *)
Definition index_steps (g : DenseVoxelGrid) (x y z : Z) : list Z :=
  let r := resolution_ g in
  [ z * r; z * r * r; y * r; z * r * r + y * r; z * r * r + y * r + x ].

Section PassNotions.
Context {tables : McTables}.

(** The cubes the three loops of [extract_surface] visit, in order. *)
Definition cubes (g : DenseVoxelGrid) : list (Z * Z * Z) :=
  cells3 (range 0 (resolution_ g - 1)) (range 0 (resolution_ g - 1))
         (range 0 (resolution_ g - 1)).

(** The locals of [extract_surface] before the first cube. *)
Definition initial_state : McState :=
  {| mc_mesh := Mesh.empty_mesh; vertex_cache := ∅;
     cubes_processed := 0; triangles_generated := 0 |}.

(** The state of the cube loops after the cubes of [l], in order. *)
Definition run (g : DenseVoxelGrid) (iso_value max_z : Q)
  (l : list (Z * Z * Z)) : McState :=
  fold_left (fun st c => MC.process_cube g iso_value max_z st c.1.1 c.1.2 c.2)
            l initial_state.

(** The edge loop of the cube at [c], entered in state [st]: the mesh
    arrays, the cache and the [edge_vertices] array it leaves. *)
Definition cube_edge_loop (g : DenseVoxelGrid) (iso_value : Q) (st : McState)
  (c : Z * Z * Z) : EdgeState :=
  let values := MC.corner_values g c.1.1 c.1.2 c.2 in
  let positions := MC.corner_positions g c.1.1 c.1.2 c.2 in
  fold_left (MC.edge_step values positions iso_value c.1.1 c.1.2 c.2
               (edge_table (MC.cube_index values iso_value)))
            (range 0 12)
            {| es_vertices := vertices (mc_mesh st);
               es_normals := normals (mc_mesh st);
               es_cache := vertex_cache st;
               edge_vertices := replicate 12 0 |}.

(** The vertex number the cube at [c] holds for its local edge [edge]
    when its triangles are emitted: [edge_vertices[edge]]. *)
Definition edge_vertex (g : DenseVoxelGrid) (iso_value : Q) (st : McState)
  (c : Z * Z * Z) (edge : Z) : Z :=
  nthZ 0 (edge_vertices (cube_edge_loop g iso_value st c)) edge.

(** The crossing point the edge loop computes for local edge [edge] of the
    cube at [c]. *)
Definition edge_point (g : DenseVoxelGrid) (iso_value : Q) (c : Z * Z * Z)
  (edge : Z) : fvec3 :=
  MC.interpolate (MC.corner_values g c.1.1 c.1.2 c.2)
                 (MC.corner_positions g c.1.1 c.1.2 c.2) iso_value
                 (MC.edge_connection edge).1 (MC.edge_connection edge).2.

End PassNotions.





(** * Properties *)

(** ** Facts about the float operations *)

Module FloatFacts.
Import Float.

Lemma ltb_lt a b : ltb a b = true <-> (a < b)%Q.
Proof.
  unfold ltb. rewrite negb_true_iff.
  split; intros H.
  - apply Qnot_le_lt. intros Hle. apply Qle_bool_iff in Hle. congruence.
  - destruct (Qle_bool b a) eqn:E; [|reflexivity].
    apply Qle_bool_iff in E. exfalso. apply (Qlt_not_le _ _ H E).
Qed.

Lemma ltb_ge a b : ltb a b = false <-> (b <= a)%Q.
Proof.
  unfold ltb. rewrite negb_false_iff. apply Qle_bool_iff.
Qed.

Lemma ltb_irrefl a : ltb a a = false.
Proof. apply ltb_ge. apply Qle_refl. Qed.

Lemma max_spec a b : (a <= max a b /\ b <= max a b)%Q.
Proof.
  unfold max. destruct (ltb a b) eqn:E.
  - apply ltb_lt in E. lra.
  - apply ltb_ge in E. lra.
Qed.

Lemma min_spec a b : (min a b <= a /\ min a b <= b)%Q.
Proof.
  unfold min. destruct (ltb b a) eqn:E.
  - apply ltb_lt in E. lra.
  - apply ltb_ge in E. lra.
Qed.

Lemma max_lub a b c : (a <= c -> b <= c -> max a b <= c)%Q.
Proof. unfold max. destruct (ltb a b); auto. Qed.

Lemma min_glb a b c : (c <= a -> c <= b -> c <= min a b)%Q.
Proof. unfold min. destruct (ltb b a); auto. Qed.


End FloatFacts.

(** ** Facts about the loops *)

Module LoopFacts.

Lemma fold_left_invariant {S A : Type} (P : S -> Prop) (f : S -> A -> S)
  (l : list A) (s : S) :
  P s -> (forall s a, a ∈ l -> P s -> P (f s a)) -> P (fold_left f l s).
Proof.
  revert s. induction l as [|a l IH]; intros s Hs Hf; simpl; [exact Hs|].
  apply IH.
  - apply Hf; [left | exact Hs].
  - intros s' a' Ha'. apply Hf. right. exact Ha'.
Qed.

Lemma for3_cells {S : Type} (zs ys xs : list Z) (body : S -> Z -> Z -> Z -> S)
  (s : S) :
  for3 zs ys xs body s
  = fold_left (fun s c => body s c.1.1 c.1.2 c.2) (cells3 zs ys xs) s.
Proof.
  unfold for3, cells3. revert s.
  induction zs as [|z zs IHz]; intros s; [reflexivity|].
  simpl. rewrite fold_left_app, <- IHz. f_equal.
  generalize s. clear.
  induction ys as [|y ys IHy]; intros s; [reflexivity|].
  simpl. rewrite fold_left_app, <- IHy. f_equal.
  generalize s. clear.
  induction xs as [|x xs IHx]; intros s; [reflexivity|].
  simpl. apply IHx.
Qed.

Lemma elem_of_cells3 zs ys xs x y z :
  (x, y, z) ∈ cells3 zs ys xs <-> x ∈ xs /\ y ∈ ys /\ z ∈ zs.
Proof.
  unfold cells3. rewrite list_elem_of_bind. split.
  - intros (z' & H & Hz). apply list_elem_of_bind in H as (y' & H & Hy).
    apply list_elem_of_bind in H as (x' & H & Hx).
    apply list_elem_of_singleton in H. by simplify_eq.
  - intros (Hx & Hy & Hz). exists z. split; [|done].
    apply list_elem_of_bind. exists y. split; [|done].
    apply list_elem_of_bind. exists x. split; [|done].
    by apply list_elem_of_singleton.
Qed.

Lemma for3_invariant {S : Type} (P : S -> Prop) zs ys xs
  (body : S -> Z -> Z -> Z -> S) (s : S) :
  P s ->
  (forall s x y z, x ∈ xs -> y ∈ ys -> z ∈ zs -> P s -> P (body s x y z)) ->
  P (for3 zs ys xs body s).
Proof.
  intros Hs Hbody. rewrite for3_cells. apply fold_left_invariant; [done|].
  intros s' [[x y] z] Hin Hs'. apply elem_of_cells3 in Hin as (? & ? & ?).
  by apply Hbody.
Qed.

Lemma elem_of_range lo hi x : x ∈ range lo hi <-> lo <= x < hi.
Proof. unfold range. rewrite elem_of_seqZ. lia. Qed.

Lemma elem_of_range_incl lo hi x : x ∈ range_incl lo hi <-> lo <= x <= hi.
Proof. unfold range_incl. rewrite elem_of_seqZ. lia. Qed.

End LoopFacts.

(** ** Dense voxel grid *)

Module DenseFacts.
Import Dense.

Lemma in_bounds_true g x y z : in_bounds g x y z = true <-> in_range g x y z.
Proof. unfold in_bounds, in_range. rewrite !andb_true_iff. lia. Qed.

Lemma in_bounds_false g x y z : in_bounds g x y z = false <-> ~ in_range g x y z.
Proof. rewrite <- in_bounds_true. destruct (in_bounds g x y z); naive_solver. Qed.

(** Under [in_bounds] the flat index is inside the vector. *)
Lemma index_in_range g x y z :
  wf g -> in_range g x y z -> (Z.to_nat (index g x y z) < length (data_ g))%nat.
Proof.
  intros [Hr Hlen] (Hx & Hy & Hz). unfold index.
  set (r := resolution_ g) in *.
  assert (0 <= z * r * r + y * r + x < r * r * r) by nia.
  lia.
Qed.

(** The flat index is injective on in-range coordinates. *)
Lemma index_inj g x y z x' y' z' :
  in_range g x y z -> in_range g x' y' z' ->
  index g x y z = index g x' y' z' -> x = x' /\ y = y' /\ z = z'.
Proof.
  intros (Hx & Hy & Hz) (Hx' & Hy' & Hz'). unfold index.
  set (r := resolution_ g) in *. intros E.
  destruct (Z.div_mod_unique r (z * r + y) (z' * r + y') x x') as [E1 ->];
    [lia | lia | lia |].
  destruct (Z.div_mod_unique r z z' y y') as [-> ->]; [lia | lia | lia |].
  done.
Qed.

Lemma set_same_shape g x y z v : same_shape g (set g x y z v).
Proof.
  unfold set, same_shape. destruct (in_bounds g x y z); simpl;
    rewrite ?length_insert; done.
Qed.

Lemma same_shape_refl g : same_shape g g.
Proof. by unfold same_shape. Qed.

Lemma same_shape_trans g1 g2 g3 :
  same_shape g1 g2 -> same_shape g2 g3 -> same_shape g1 g3.
Proof.
  unfold same_shape. intros (? & ? & ? & ?) (? & ? & ? & ?).
  repeat split; congruence.
Qed.

Lemma same_shape_wf g g' : same_shape g g' -> wf g -> wf g'.
Proof. unfold same_shape, wf. intros (-> & _ & _ & ->). done. Qed.

Lemma same_shape_in_range g g' x y z :
  same_shape g g' -> in_range g' x y z <-> in_range g x y z.
Proof. unfold same_shape, in_range. by intros (-> & _). Qed.

(** Up to a resolution of [2^21] the [size_t] product does not wrap. *)
Lemma total_voxels_exact resolution :
  0 <= resolution <= 2 ^ 21 ->
  total_voxels resolution = resolution * resolution * resolution.
Proof.
  intros H. unfold total_voxels, mul_size_t, to_size_t.
  change (2 ^ 21) with 2097152 in H.
  change (2 ^ 64) with 18446744073709551616.
  rewrite (Z.mod_small resolution) by lia.
  rewrite (Z.mod_small (resolution * resolution)) by nia.
  apply Z.mod_small. nia.
Qed.

Lemma make_wf resolution bounds :
  0 <= resolution <= 2 ^ 21 -> wf (make resolution bounds).
Proof.
  intros H. unfold wf, make. simpl. split; [lia|].
  rewrite length_replicate, total_voxels_exact by done.
  change (2 ^ 21) with 2097152 in H. nia.
Qed.

(** Reading back the cell just written. *)
Lemma get_set_eq g x y z v :
  wf g -> in_range g x y z -> get (set g x y z v) x y z = v.
Proof.
  intros Hwf Hin. pose proof (index_in_range _ _ _ _ Hwf Hin) as Hlt.
  apply in_bounds_true in Hin. unfold get, set. rewrite Hin.
  unfold in_bounds in *. simpl. rewrite Hin. simpl.
  unfold at_index, index. simpl.
  by rewrite list_lookup_insert_eq.
Qed.

(** Writing one cell leaves every other coordinate's value alone. *)
Lemma get_set_ne g x y z v x' y' z' :
  (x', y', z') <> (x, y, z) -> get (set g x y z v) x' y' z' = get g x' y' z'.
Proof.
  intros Hne. unfold get, set.
  destruct (in_bounds g x y z) eqn:Hin; [|done].
  unfold in_bounds at 1. simpl. fold (in_bounds g x' y' z').
  destruct (in_bounds g x' y' z') eqn:Hin'; [|done]. simpl.
  unfold at_index, index. simpl. fold (index g x y z) (index g x' y' z').
  rewrite list_lookup_insert_ne; [done|].
  apply in_bounds_true in Hin, Hin'. intros E.
  assert (index g x y z = index g x' y' z') as E'.
  { assert (0 <= index g x y z /\ 0 <= index g x' y' z') as [? ?]; [|lia].
    unfold in_range, index in *. split; nia. }
  apply index_inj in E'; [|done..].
  destruct E' as (? & ? & ?). apply Hne. congruence.
Qed.

(** C6: for every coordinate triple with a component outside
    [[0, resolution)], [DenseVoxelGrid::get] returns the far-outside
    sentinel and [DenseVoxelGrid::set] returns the grid as it was, every
    cell unchanged; both are total, so neither faults on a bad index. *)
Theorem dense_out_of_range g x y z v :
  ~ in_range g x y z ->
  get g x y z = Float.FLT_MAX /\ set g x y z v = g.
Proof.
  intros H. apply in_bounds_false in H. unfold get, set. by rewrite H.
Qed.

Lemma dense_out_of_range_witness :
  let g := make 2 (MkAABB (Vec3 0 0 0) (Vec3 1 1 1)) in
  ~ in_range g 2 0 (-1) /\
  get g 2 0 (-1) = Float.FLT_MAX /\ set g 2 0 (-1) 5 = g.
Proof.
  intros g.
  assert (~ in_range g 2 0 (-1)) as H by (unfold in_range; simpl; lia).
  split; [exact H|]. exact (dense_out_of_range g 2 0 (-1) 5 H).
Defined.

End DenseFacts.

(** ** Options *)

Module OptionsFacts.
Import Options.

Lemma validate_resolution o : 64 <= grid_resolution (validate o) <= 1024.
Proof. simpl. lia. Qed.

Lemma clamp_by_max_min lo hi v :
  (lo <= hi)%Q -> (lo <= Float.max lo (Float.min hi v) <= hi)%Q.
Proof.
  intros H. split.
  - apply FloatFacts.max_spec.
  - apply FloatFacts.max_lub; [exact H|]. apply FloatFacts.min_spec.
Qed.

Lemma validate_segment_radius o :
  (Float.lit_0_05 <= segment_radius_mm (validate o) <= 1)%Q.
Proof. simpl. apply clamp_by_max_min. unfold Float.lit_0_05. lra. Qed.

Lemma validate_smoothing_radius o :
  (Float.lit_0_1 <= smoothing_radius (validate o) <= 2)%Q.
Proof. simpl. apply clamp_by_max_min. unfold Float.lit_0_1. lra. Qed.

End OptionsFacts.

(** ** The rasterizer *)

Module BuilderFacts.
Import Builder.

(** C3: for all [a], [b] and every smoothing factor [k > 0], the value
    [smooth_min a b k], computed as [min(a,b) - h*h*k*0.25] with
    [h = max(k - |a-b|, 0) / k], is at most the minimum of [a] and [b]. *)
Theorem smooth_min_le_min (a b k : Q) :
  (0 < k)%Q -> (smooth_min a b k <= Qmin a b)%Q.
Proof.
  intros Hk. unfold smooth_min.
  set (h := (Float.max (k - Float.abs (a - b)) 0 / k)%Q).
  assert (0 <= h * h * k * Float.lit_0_25)%Q as Hnn.
  { unfold Float.lit_0_25. nra. }
  pose proof (FloatFacts.min_spec a b) as [Ha Hb].
  apply Q.min_glb; lra.
Qed.

Lemma smooth_min_le_min_witness :
  (0 < 1 # 2)%Q /\ (smooth_min 3 (13 # 4) (1 # 2) <= Qmin 3 (13 # 4))%Q.
Proof.
  assert (0 < 1 # 2)%Q as H by reflexivity.
  split; [exact H|]. exact (smooth_min_le_min 3 (13 # 4) (1 # 2) H).
Defined.

(** With [a = 3], [b = 3.25] and [k = 0.5] the blend is active:
    [h = 0.5] and the result is [3 - 0.03125]. *)
Example smooth_min_blend : (smooth_min 3 (13 # 4) (1 # 2) == 95 # 32)%Q.
Proof. reflexivity. Qed.

(** *** [std::string::find] finds exactly the substrings *)

Lemma prefix_append (n h : string) :
  String.prefix n h = true <-> exists post, h = String.append n post.
Proof.
  revert h. induction n as [|a n IH]; intros h.
  - destruct h; simpl; split; eauto.
  - destruct h as [|b h]; simpl.
    + split; [done|]. intros [post H]. discriminate.
    + destruct (ascii_dec a b) as [->|Hne].
      * rewrite IH. split; intros [post H]; exists post.
        -- by rewrite H.
        -- by injection H.
      * split; [done|]. intros [post H]. by injection H.
Qed.

Lemma find_from_unfold (needle hay : string) (pos : nat) :
  Str.find_from needle hay pos
  = if String.prefix needle hay then Some pos
    else match hay with
         | EmptyString => None
         | String _ rest => Str.find_from needle rest (S pos)
         end.
Proof. by destruct hay. Qed.

Lemma find_from_substring (needle hay : string) (pos : nat) :
  is_Some (Str.find_from needle hay pos) <-> is_substring needle hay.
Proof.
  revert pos. induction hay as [|c hay IH]; intros pos;
    rewrite find_from_unfold.
  - destruct (String.prefix needle EmptyString) eqn:E.
    + split; [intros _ | intros _; by eexists].
      apply prefix_append in E as [post E].
      exists EmptyString, post. exact E.
    + split; [intros [? ?]; done|]. intros (pre & post & H).
      destruct pre; simpl in H; [|discriminate].
      assert (String.prefix needle EmptyString = true) as E'
        by (apply prefix_append; eauto).
      congruence.
  - destruct (String.prefix needle (String c hay)) eqn:E.
    + split; [intros _ | intros _; by eexists].
      apply prefix_append in E as [post E].
      exists EmptyString, post. exact E.
    + rewrite IH. split.
      * intros (pre & post & ->). by exists (String c pre), post.
      * intros (pre & post & H). destruct pre as [|c' pre]; simpl in H.
        -- assert (String.prefix needle (String c hay) = true) as E'
             by (apply prefix_append; eauto).
           congruence.
        -- injection H as -> ->. by exists pre, post.
Qed.

Lemma found_substring (s kw : string) :
  Str.found s kw = true <-> is_substring kw s.
Proof.
  unfold Str.found, Str.find. rewrite <- (find_from_substring kw s 0).
  destruct (Str.find_from kw s 0); split; try done.
Qed.

Lemma is_shell_feature_keywords (label : string) :
  is_shell_feature label = true
  <-> exists kw, kw ∈ code_keywords /\ is_substring kw label.
Proof.
  unfold is_shell_feature, code_keywords.
  rewrite !orb_true_iff, !found_substring. split.
  - intros H. repeat (destruct H as [H|H]);
      (eexists; split; [|exact H]); set_solver.
  - intros (kw & Hin & H).
    repeat (apply elem_of_cons in Hin as [->|Hin]; [tauto|]).
    by apply elem_of_nil in Hin.
Qed.

Lemma empty_true (s : string) : Str.empty s = true <-> s = EmptyString.
Proof. by destruct s. Qed.

Section WithLibm.
Context {libm : Libm}.

(** Only the fall-through into the rasterization loops touches the grid. *)
Lemma process_segment_grid segment r k R st :
  sdf_grid (process_segment r k R st segment)
  = match segment_fate segment with
    | Rasterized => rasterize_segment segment r k R (sdf_grid st)
    | _ => sdf_grid st
    end.
Proof. unfold process_segment. destruct (segment_fate segment); reflexivity. Qed.

(** C1 (amended): a segment is rasterized exactly when it is extruding and
    its label is empty or contains one of the ten literal keywords of the
    code ([wall], [perimeter], [surface], [skin], [bridge], each also with a
    capital first letter) as a case-sensitive substring; only a rasterized
    segment changes the grid. *)
Theorem feature_filter (segment : ToolpathSegment) :
  (segment_fate segment = Rasterized
   <-> is_extrusion segment = true /\
       (feature_type segment = EmptyString \/
        exists kw, kw ∈ code_keywords /\ is_substring kw (feature_type segment)))
  /\ (forall r k R st,
        sdf_grid (process_segment r k R st segment)
        = match segment_fate segment with
          | Rasterized => rasterize_segment segment r k R (sdf_grid st)
          | _ => sdf_grid st
          end).
Proof.
  split.
  - unfold segment_fate. rewrite <- is_shell_feature_keywords, <- empty_true.
    destruct (is_extrusion segment), (Str.empty (feature_type segment)),
      (is_shell_feature (feature_type segment)); simpl;
      intuition (discriminate || congruence).
  - intros r k R st. apply process_segment_grid.
Qed.

End WithLibm.

(** C1, as stated, fails: an extruding segment labelled [Outer wall] is
    rasterized although its label has none of the five keywords; labels
    [shell] and [PERIMETER] are filtered out although they match one. *)
Lemma feature_filter_counterexample :
  let seg label := MkSegment (Vec3 0 0 0) (Vec3 1 0 0) true label in
  (segment_fate (seg "Outer wall"%string) = Rasterized /\
   SpecFilter.rasterized (seg "Outer wall"%string) = false) /\
  (segment_fate (seg "shell"%string) = Filtered /\
   SpecFilter.rasterized (seg "shell"%string) = true) /\
  (segment_fate (seg "PERIMETER"%string) = Filtered /\
   SpecFilter.rasterized (seg "PERIMETER"%string) = true).
Proof. vm_compute. repeat split. Qed.

End BuilderFacts.

(** ** The rasterizer's effect on the grid *)

Module RasterFacts.
Import Builder.

Lemma float_min_Qmin a b : (Float.min a b == Qmin a b)%Q.
Proof.
  unfold Float.min. destruct (Float.ltb b a) eqn:E.
  - apply FloatFacts.ltb_lt in E. symmetry. apply Q.min_r. lra.
  - apply FloatFacts.ltb_ge in E. symmetry. apply Q.min_l. lra.
Qed.

Lemma float_max_Qmax a b : (Float.max a b == Qmax a b)%Q.
Proof.
  unfold Float.max. destruct (Float.ltb a b) eqn:E.
  - apply FloatFacts.ltb_lt in E. symmetry. apply Q.max_r. lra.
  - apply FloatFacts.ltb_ge in E. symmetry. apply Q.max_l. lra.
Qed.

Section WithLibm.
Context {libm : Libm}.

Lemma rasterize_voxel_same_shape seg r k g x y z :
  same_shape g (rasterize_voxel seg r k g x y z).
Proof. apply DenseFacts.set_same_shape. Qed.

Lemma rasterize_voxel_frame seg r k g x y z x' y' z' :
  (x', y', z') <> (x, y, z) ->
  Dense.get (rasterize_voxel seg r k g x y z) x' y' z' = Dense.get g x' y' z'.
Proof. apply DenseFacts.get_set_ne. Qed.

Lemma rasterize_segment_same_shape seg r k R g :
  same_shape g (rasterize_segment seg r k R g).
Proof.
  unfold rasterize_segment. destruct (voxel_box g seg R) as [lo hi].
  unfold rasterize_box.
  apply LoopFacts.for3_invariant; [apply DenseFacts.same_shape_refl|].
  intros g' x y z _ _ _ H.
  eapply DenseFacts.same_shape_trans; [exact H|].
  apply rasterize_voxel_same_shape.
Qed.

(** The three loops write inside their index box only. *)
Lemma rasterize_box_frame seg r k lo hi g x y z :
  ~ in_voxel_box (lo, hi) x y z ->
  Dense.get (rasterize_box seg r k lo hi g) x y z = Dense.get g x y z.
Proof.
  unfold rasterize_box, in_voxel_box. cbn [fst snd]. intros Hout.
  apply (LoopFacts.for3_invariant
           (fun g' => Dense.get g' x y z = Dense.get g x y z)); [done|].
  intros g' x' y' z' Hx Hy Hz <-.
  apply LoopFacts.elem_of_range_incl in Hx, Hy, Hz.
  apply rasterize_voxel_frame. intros E. injection E as -> -> ->. tauto.
Qed.

Lemma rasterize_segment_box seg r k R g :
  rasterize_segment seg r k R g
  = rasterize_box seg r k (voxel_box g seg R).1 (voxel_box g seg R).2 g.
Proof. unfold rasterize_segment. by destruct (voxel_box g seg R). Qed.

Lemma rasterize_segment_frame seg r k R g x y z :
  ~ in_voxel_box (voxel_box g seg R) x y z ->
  Dense.get (rasterize_segment seg r k R g) x y z = Dense.get g x y z.
Proof.
  rewrite rasterize_segment_box. destruct (voxel_box g seg R) as [lo hi].
  apply rasterize_box_frame.
Qed.



Lemma process_segment_same_shape r k R st seg :
  same_shape (sdf_grid st) (sdf_grid (process_segment r k R st seg)).
Proof.
  unfold process_segment. destruct (segment_fate seg); simpl;
    [apply DenseFacts.same_shape_refl | apply DenseFacts.same_shape_refl |].
  apply rasterize_segment_same_shape.
Qed.

Lemma generate_sdf_same_shape g segs r k :
  same_shape g (sdf_grid (generate_sdf g segs r k)).
Proof.
  unfold generate_sdf.
  apply (LoopFacts.fold_left_invariant (fun st => same_shape g (sdf_grid st)));
    [apply DenseFacts.same_shape_refl|].
  intros st seg _ H. eapply DenseFacts.same_shape_trans; [exact H|].
  apply process_segment_same_shape.
Qed.



End WithLibm.


End RasterFacts.

(** ** The orchestrator *)

Module BuildFacts.
Import Builder SDF.

Section WithParams.
Context {libm : Libm} {tables : McTables}.

(** The counters of the segment loop count the fates. *)
Lemma process_segments_counters r k R segs st :
  let st' := fold_left (process_segment r k R) segs st in
  segments_processed st' = (segments_processed st + count_fate Rasterized segs)%nat /\
  segments_filtered st' = (segments_filtered st + count_fate Filtered segs)%nat.
Proof.
  revert st. induction segs as [|s segs IH]; intros st; simpl.
  - unfold count_fate. simpl. lia.
  - destruct (IH (process_segment r k R st s)) as [-> ->].
    unfold count_fate. rewrite !filter_cons. unfold process_segment.
    destruct (segment_fate s) eqn:E; simpl;
      repeat case_decide; try discriminate; simpl; lia.
Qed.

Lemma generate_sdf_counters g segs r k :
  segments_processed (generate_sdf g segs r k) = count_fate Rasterized segs /\
  segments_filtered (generate_sdf g segs r k) = count_fate Filtered segs.
Proof.
  unfold generate_sdf.
  destruct (process_segments_counters r k (r + k + voxel_size_ g) segs
    {| sdf_grid := g; segments_processed := 0; segments_filtered := 0;
       feature_type_counts := ∅; filtered_type_counts := ∅ |}) as [-> ->].
  done.
Qed.

(** The grid after the segment loop is a function of the grid before. *)
Lemma process_segments_grid r k R segs st st' :
  sdf_grid st = sdf_grid st' ->
  sdf_grid (fold_left (process_segment r k R) segs st)
  = sdf_grid (fold_left (process_segment r k R) segs st').
Proof.
  revert st st'. induction segs as [|s segs IH]; intros st st' H; [done|].
  simpl. apply IH.
  rewrite !BuilderFacts.process_segment_grid. by rewrite H.
Qed.

(** A segment that is not rasterized can be dropped from the front. *)
Lemma generate_sdf_skip g s segs r k :
  segment_fate s <> Rasterized ->
  sdf_grid (generate_sdf g (s :: segs) r k)
  = sdf_grid (generate_sdf g segs r k).
Proof.
  intros Hs. unfold generate_sdf. simpl. apply process_segments_grid.
  rewrite BuilderFacts.process_segment_grid.
  by destruct (segment_fate s).
Qed.

Lemma build_grid_resolution gcode o :
  resolution_ (sdf_grid (build_grid gcode o))
  = grid_resolution (Options.validate o).
Proof.
  unfold build_grid.
  by destruct (RasterFacts.generate_sdf_same_shape
    (Dense.make (grid_resolution (Options.validate o)) (global_bounding_box gcode))
    (concat (map segments (layers gcode)))
    (segment_radius_mm (Options.validate o))
    (smoothing_radius (Options.validate o))) as (-> & _).
Qed.

(** C7: whatever the options, those [build] works with after [validate]
    have the resolution in [[64, 1024]], the segment radius in
    [[0.05, 1.0]] and the smoothing radius in [[0.1, 2.0]]; the grid it
    rasterizes into has the clamped resolution; requests of 32 and 4096
    become 64 and 1024, segment radii of 0.001 and 10.0 become 0.05 and
    1.0.  Nothing is rejected: [validate] and [build] are total. *)
Theorem options_clamped (gcode : ParsedGCodeFile) (o : SDFOptions) :
  let opts := Options.validate o in
  (64 <= grid_resolution opts <= 1024) /\
  ((5 # 100) <= segment_radius_mm opts <= 1)%Q /\
  ((1 # 10) <= smoothing_radius opts <= 2)%Q /\
  (64 <= resolution_ (sdf_grid (build_grid gcode o)) <= 1024) /\
  grid_resolution (Options.validate (Options.with_resolution o 32)) = 64 /\
  grid_resolution (Options.validate (Options.with_resolution o 4096)) = 1024 /\
  segment_radius_mm
    (Options.validate (Options.with_segment_radius o Examples.lit_0_001))
  = Float.lit_0_05 /\
  segment_radius_mm (Options.validate (Options.with_segment_radius o 10)) = 1%Q.
Proof.
  intros opts.
  pose proof (OptionsFacts.validate_resolution o) as Hres.
  pose proof (OptionsFacts.validate_segment_radius o) as Hseg.
  pose proof (OptionsFacts.validate_smoothing_radius o) as Hsm.
  unfold Float.lit_0_05, Float.lit_0_1 in *.
  rewrite build_grid_resolution. subst opts.
  split; [lia|]. split; [lra|]. split; [lra|]. split; [lia|].
  repeat split; reflexivity.
Qed.

Lemma build_input_segments self gcode o :
  input_segments (last_stats (build self gcode o).2)
  = length (concat (map segments (layers gcode))).
Proof. reflexivity. Qed.

(** C8 (amended): for a toolpath of exactly two extruding segments, one
    labelled [Internal infill] and one [Outer wall], the rasterizer's own
    counters, which it logs and does not store, end at one processed and
    one filtered segment; the statistics record of [build] has no such
    fields and reports two input segments. *)
Theorem filter_counters self gcode o (s1 s2 : ToolpathSegment) :
  concat (map segments (layers gcode)) ≡ₚ [s1; s2] ->
  is_extrusion s1 = true -> feature_type s1 = "Internal infill"%string ->
  is_extrusion s2 = true -> feature_type s2 = "Outer wall"%string ->
  segments_processed (build_grid gcode o) = 1%nat /\
  segments_filtered (build_grid gcode o) = 1%nat /\
  input_segments (last_stats (build self gcode o).2) = 2%nat.
Proof.
  intros Hperm He1 Hl1 He2 Hl2.
  assert (segment_fate s1 = Filtered) as Hf1
    by (unfold segment_fate; rewrite He1, Hl1; reflexivity).
  assert (segment_fate s2 = Rasterized) as Hf2
    by (unfold segment_fate; rewrite He2, Hl2; reflexivity).
  rewrite build_input_segments. unfold build_grid.
  destruct (generate_sdf_counters
    (Dense.make (grid_resolution (Options.validate o)) (global_bounding_box gcode))
    (concat (map segments (layers gcode)))
    (segment_radius_mm (Options.validate o))
    (smoothing_radius (Options.validate o))) as [-> ->].
  unfold count_fate. rewrite !Hperm. rewrite !filter_cons, Hf1, Hf2.
  repeat case_decide; try discriminate; try done.
Qed.

(** Dropping a leading segment that is not rasterized changes neither the
    mesh nor the statistics, as long as the segment count is the same. *)
Lemma build_skip self s s' segs o :
  segment_fate s <> Rasterized -> segment_fate s' <> Rasterized ->
  build self (Examples.toolpath (s :: segs)) o
  = build self (Examples.toolpath (s' :: segs)) o.
Proof.
  intros Hs Hs'.
  assert (sdf_grid (build_grid (Examples.toolpath (s :: segs)) o)
          = sdf_grid (build_grid (Examples.toolpath (s' :: segs)) o)) as E.
  { unfold build_grid. simpl. rewrite !app_nil_r.
    rewrite !generate_sdf_skip by done. reflexivity. }
  unfold build. rewrite E. simpl. rewrite !app_nil_r. reflexivity.
Qed.

End WithParams.

Lemma filter_counters_witness :
  let gcode := Examples.toolpath [Examples.infill_segment; Examples.example_segment] in
  let self := MkBuilder (MkStats 0 0 0 0 0) in
  segments_processed
    (build_grid (libm := Examples.libm) gcode Options.default) = 1%nat /\
  segments_filtered
    (build_grid (libm := Examples.libm) gcode Options.default) = 1%nat /\
  input_segments
    (last_stats (build (libm := Examples.libm) (tables := Examples.tables)
                   self gcode Options.default).2) = 2%nat.
Proof.
  intros gcode self.
  exact (filter_counters (libm := Examples.libm) (tables := Examples.tables)
           self gcode Options.default
           Examples.infill_segment Examples.example_segment
           (Permutation_refl _) eq_refl eq_refl eq_refl eq_refl).
Defined.

(** C8, as stated, fails: the statistics record cannot report the filtered
    count.  A toolpath with an infill move and one with a travel move in its
    place build the same mesh and the same statistics, two input segments
    each, yet the first filters one segment and the second none. *)
Lemma filter_counters_counterexample :
  let A := Examples.toolpath [Examples.infill_segment; Examples.example_segment] in
  let B := Examples.toolpath [Examples.travel_segment; Examples.example_segment] in
  let self := MkBuilder (MkStats 0 0 0 0 0) in
  let build := build (libm := Examples.libm) (tables := Examples.tables) in
  let build_grid := build_grid (libm := Examples.libm) in
  last_stats (build self A Options.default).2
  = last_stats (build self B Options.default).2 /\
  input_segments (last_stats (build self A Options.default).2) = 2%nat /\
  segments_filtered (build_grid A Options.default) = 1%nat /\
  segments_filtered (build_grid B Options.default) = 0%nat.
Proof.
  intros A B self bld bg. subst bld bg. split; [|split; [reflexivity|]].
  - unfold A, B. rewrite (build_skip _ Examples.infill_segment
                            Examples.travel_segment); done.
  - unfold build_grid. rewrite !(proj2 (generate_sdf_counters _ _ _ _)).
    split; reflexivity.
Qed.

End BuildFacts.

(** ** Sparse voxel grid *)

Module SparseFacts.

(** The tree after copying a list of cells. *)
Lemma copy_voxels_lookup g (l : list (Z * Z * Z)) st (k : Z * Z * Z) :
  (fold_left (fun s c => Sparse.copy_voxel g s c.1.1 c.1.2 c.2) l st).1 !! k
  = if bool_decide (k ∈ l) && Float.ltb (Dense.get g k.1.1 k.1.2 k.2) Float.lit_10
    then Some (Dense.get g k.1.1 k.1.2 k.2)
    else st.1 !! k.
Proof.
  revert st. induction l as [|c l IH]; intros st; [done|].
  simpl fold_left. rewrite IH. clear IH.
  destruct (decide (k = c)) as [->|Hne].
  - rewrite (bool_decide_eq_true_2 (c ∈ c :: l)) by left.
    unfold Sparse.copy_voxel at 1. destruct c as [[x y] z]. simpl.
    destruct (Float.ltb (Dense.get g x y z) Float.lit_10) eqn:E; simpl.
    + rewrite andb_true_r. rewrite lookup_insert_eq. by case_bool_decide.
    + by rewrite andb_false_r.
  - assert (bool_decide (k ∈ c :: l) = bool_decide (k ∈ l)) as ->.
    { apply bool_decide_ext. rewrite elem_of_cons. tauto. }
    destruct (bool_decide (k ∈ l) && _); [done|].
    unfold Sparse.copy_voxel. destruct c as [[x y] z]. simpl.
    destruct (Float.ltb (Dense.get g x y z) Float.lit_10); [|done].
    simpl. by rewrite lookup_insert_ne.
Qed.

Lemma make_tree g x y z :
  Sparse.stored (Sparse.make g) x y z
  = if Dense.in_bounds g x y z && Float.ltb (Dense.get g x y z) Float.lit_10
    then Some (Dense.get g x y z) else None.
Proof.
  unfold Sparse.stored, Sparse.make. rewrite LoopFacts.for3_cells.
  pose proof (copy_voxels_lookup g
    (cells3 (range 0 (resolution_ g)) (range 0 (resolution_ g))
            (range 0 (resolution_ g))) (∅, 0%nat) (x, y, z)) as H.
  destruct (fold_left _ _ _) as [tree n]. simpl in *. rewrite H.
  rewrite lookup_empty.
  assert (bool_decide ((x, y, z) ∈ cells3 (range 0 (resolution_ g))
            (range 0 (resolution_ g)) (range 0 (resolution_ g)))
          = Dense.in_bounds g x y z) as ->; [|done].
  destruct (Dense.in_bounds g x y z) eqn:E.
  - apply bool_decide_eq_true_2. apply DenseFacts.in_bounds_true in E.
    apply LoopFacts.elem_of_cells3. rewrite !LoopFacts.elem_of_range.
    unfold in_range in E. lia.
  - apply bool_decide_eq_false_2. apply DenseFacts.in_bounds_false in E.
    rewrite LoopFacts.elem_of_cells3, !LoopFacts.elem_of_range.
    unfold in_range in E. lia.
Qed.

(** C4: for every coordinate, [SparseVoxelGrid::get] on the grid converted
    from a dense grid returns the dense value when the coordinate is in
    [[0, resolution)^3] and that value is below 10.0, and the background
    sentinel otherwise; the tree holds exactly the cells below 10.0. *)
Theorem sparse_get_dense g x y z :
  Sparse.get (Sparse.make g) x y z
  = (if Dense.in_bounds g x y z && Float.ltb (Dense.get g x y z) Float.lit_10
     then Dense.get g x y z else Float.FLT_MAX)
  /\ Sparse.stored (Sparse.make g) x y z
     = (if Dense.in_bounds g x y z && Float.ltb (Dense.get g x y z) Float.lit_10
        then Some (Dense.get g x y z) else None).
Proof.
  split; [|apply make_tree].
  pose proof (make_tree g x y z) as H. unfold Sparse.stored in H.
  unfold Sparse.get, Sparse.getValue.
  destruct (nanovdb_grid_ (Sparse.make g)) as [storage|] eqn:E.
  - simpl in H. rewrite H.
    assert (nano_background storage = Float.FLT_MAX) as Hbg.
    { unfold Sparse.make in E. destruct (for3 _ _ _ _ _) in E.
      by injection E as <-. }
    destruct (_ && _); [done|]. simpl. exact Hbg.
  - unfold Sparse.make in E. destruct (for3 _ _ _ _ _) in E. discriminate.
Qed.

(** A 3^3 grid with one cell near the surface and one cell far away. *)
Example sparse_get_example :
  let g := Dense.set (Dense.set (Dense.make 3 (MkAABB (Vec3 0 0 0) (Vec3 2 2 2)))
                        1 1 1 (1 # 2)) 2 0 1 12 in
  Sparse.get (Sparse.make g) 1 1 1 = (1 # 2)%Q /\
  Dense.get g 2 0 1 = 12%Q /\ Sparse.get (Sparse.make g) 2 0 1 = Float.FLT_MAX /\
  Sparse.get (Sparse.make g) 0 0 0 = Float.FLT_MAX /\
  Sparse.get (Sparse.make g) 5 0 0 = Float.FLT_MAX.
Proof. vm_compute. repeat split. Qed.

End SparseFacts.

(** ** Marching cubes: classification and the cutoff *)

Module MarchFacts.
Import MC.

Lemma range_0_8 : range 0 8 = [0; 1; 2; 3; 4; 5; 6; 7].
Proof. reflexivity. Qed.

Lemma range_0_12 : range 0 12 = [0; 1; 2; 3; 4; 5; 6; 7; 8; 9; 10; 11].
Proof. reflexivity. Qed.

(** Bit [i] of the cube index is the outcome of the strict comparison at
    corner [i]. *)
Lemma classify_testbit values iso (l : list Z) idx i :
  0 <= i -> (forall j, j ∈ l -> 0 <= j) ->
  Z.testbit
    (fold_left (fun idx i => if Float.ltb (nthZ 0%Q values i) iso
                             then Z.lor idx (Z.shiftl 1 i) else idx) l idx) i
  = (bool_decide (i ∈ l) && Float.ltb (nthZ 0%Q values i) iso)
    || Z.testbit idx i.
Proof.
  intros Hi. revert idx. induction l as [|j l IH]; intros idx Hl; [done|].
  simpl fold_left. rewrite IH by (intros; apply Hl; by right).
  assert (0 <= j) as Hj by (apply Hl; left).
  destruct (decide (i = j)) as [->|Hne].
  - rewrite (bool_decide_eq_true_2 (j ∈ j :: l)) by left.
    destruct (Float.ltb (nthZ 0%Q values j) iso).
    + change (Z.lor idx (Z.shiftl 1 j)) with (Z.setbit idx j).
      rewrite Z.setbit_eq by done. by rewrite andb_true_r, !orb_true_r.
    + by rewrite andb_false_r.
  - assert (bool_decide (i ∈ j :: l) = bool_decide (i ∈ l)) as ->.
    { apply bool_decide_ext. rewrite elem_of_cons. tauto. }
    destruct (Float.ltb (nthZ 0%Q values j) iso); [|done].
    change (Z.lor idx (Z.shiftl 1 j)) with (Z.setbit idx j).
    by rewrite Z.setbit_neq by done.
Qed.

Lemma cube_index_testbit values iso i :
  0 <= i < 8 ->
  Z.testbit (cube_index values iso) i = Float.ltb (nthZ 0%Q values i) iso.
Proof.
  intros Hi. unfold cube_index.
  rewrite classify_testbit; [|lia|].
  - rewrite Z.testbit_0_l, orb_false_r.
    rewrite bool_decide_eq_true_2; [done|].
    apply LoopFacts.elem_of_range. lia.
  - intros j Hj. apply LoopFacts.elem_of_range in Hj. lia.
Qed.

Lemma cube_index_zero values iso :
  (forall i, 0 <= i < 8 -> Float.ltb (nthZ 0%Q values i) iso = false) ->
  cube_index values iso = 0.
Proof.
  intros H. unfold cube_index.
  apply (LoopFacts.fold_left_invariant (fun idx => idx = 0)); [done|].
  intros idx i Hi ->. apply LoopFacts.elem_of_range in Hi.
  by rewrite H by lia.
Qed.

(** The eight corners of a cube of the loop range are grid cells. *)
Lemma corner_value_get g x y z i :
  0 <= i < 8 ->
  exists dx dy dz, 0 <= dx <= 1 /\ 0 <= dy <= 1 /\ 0 <= dz <= 1 /\
    nthZ 0%Q (corner_values g x y z) i = Dense.get g (x + dx) (y + dy) (z + dz) /\
    nthZ (Vec3 0 0 0) (corner_positions g x y z) i
    = Dense.voxel_to_world g (IVec3 (x + dx) (y + dy) (z + dz)).
Proof.
  intros Hi.
  assert (i = 0 \/ i = 1 \/ i = 2 \/ i = 3 \/ i = 4 \/ i = 5 \/ i = 6 \/ i = 7)
    as Hcases by lia.
  destruct Hcases as [->|[->|[->|[->|[->|[->|[->| ->]]]]]]];
    [ exists 0, 0, 0 | exists 1, 0, 0 | exists 1, 1, 0 | exists 0, 1, 0
    | exists 0, 0, 1 | exists 1, 0, 1 | exists 1, 1, 1 | exists 0, 1, 1 ];
    repeat split; lia.
Qed.

Lemma ltb_eq_false a b : (a == b)%Q -> Float.ltb a b = false.
Proof. intros H. apply FloatFacts.ltb_ge. lra. Qed.

(** The lowest corner of a cube is the grid point of the cube's own
    coordinates. *)
Lemma lowest_corner_z_world g x y z :
  lowest_corner_z g x y z = vz (Dense.voxel_to_world g (IVec3 x y z)).
Proof.
  unfold lowest_corner_z, corner_positions, nthZ. simpl.
  by rewrite !Z.add_0_r.
Qed.

Section WithTables.
Context {tables : McTables}.



Lemma process_cube_no_crossing g iso max_z st x y z :
  cube_index (corner_values g x y z) iso = 0 ->
  process_cube g iso max_z st x y z = st.
Proof.
  intros H. unfold process_cube. rewrite H. simpl.
  by destruct (Float.ltb max_z _).
Qed.

Section WithLibm.
Context {libm : Libm}.

(** C10: a corner whose value equals the iso-value is classified as not
    inside, its bit of the cube index staying clear (the test is a strict
    [<]); so in a grid whose every cell equals the iso-value each cube of
    the loop has index 0 and the extracted mesh is empty. *)
Theorem iso_corner_not_inside g iso max_z :
  (forall values i, 0 <= i < 8 -> (nthZ 0%Q values i == iso)%Q ->
     Z.testbit (cube_index values iso) i = false) /\
  ((forall x y z, in_range g x y z -> (Dense.get g x y z == iso)%Q) ->
   (forall x y z, x ∈ range 0 (resolution_ g - 1) ->
      y ∈ range 0 (resolution_ g - 1) -> z ∈ range 0 (resolution_ g - 1) ->
      cube_index (corner_values g x y z) iso = 0) /\
   extract_surface g iso max_z = Mesh.empty_mesh).
Proof.
  split.
  - intros values i Hi Heq. rewrite cube_index_testbit by done.
    by apply ltb_eq_false.
  - intros Huniform.
    assert (forall x y z, x ∈ range 0 (resolution_ g - 1) ->
      y ∈ range 0 (resolution_ g - 1) -> z ∈ range 0 (resolution_ g - 1) ->
      cube_index (corner_values g x y z) iso = 0) as Hzero.
    { intros x y z Hx Hy Hz. apply LoopFacts.elem_of_range in Hx, Hy, Hz.
      apply cube_index_zero. intros i Hi.
      destruct (corner_value_get g x y z i Hi)
        as (dx & dy & dz & Hdx & Hdy & Hdz & -> & _).
      apply ltb_eq_false, Huniform. unfold in_range. lia. }
    split; [exact Hzero|].
    assert (march g iso max_z
            = {| mc_mesh := Mesh.empty_mesh; vertex_cache := ∅;
                 cubes_processed := 0; triangles_generated := 0 |}) as Hmarch.
    { unfold march.
      apply (LoopFacts.for3_invariant (fun st => st = _)); [done|].
      intros st x y z Hx Hy Hz ->.
      apply process_cube_no_crossing. by apply Hzero. }
    unfold extract_surface. rewrite Hmarch. reflexivity.
Qed.

End WithLibm.

End WithTables.

Lemma iso_corner_not_inside_witness :
  let g := Dense.fill (Dense.make 3 (MkAABB (Vec3 0 0 0) (Vec3 2 2 2))) 0 in
  (forall x y z, in_range g x y z -> (Dense.get g x y z == 0)%Q) /\
  extract_surface (libm := Examples.libm) (tables := Examples.tables)
    g 0 Float.FLT_MAX = Mesh.empty_mesh.
Proof.
  intros g.
  assert (forall x y z, in_range g x y z -> (Dense.get g x y z == 0)%Q) as H.
  { intros x y z (Hx & Hy & Hz). simpl in Hx, Hy, Hz.
    assert (x = 0 \/ x = 1 \/ x = 2) as [->|[->| ->]] by lia;
      assert (y = 0 \/ y = 1 \/ y = 2) as [->|[->| ->]] by lia;
      assert (z = 0 \/ z = 1 \/ z = 2) as [->|[->| ->]] by lia;
      reflexivity. }
  split; [exact H|].
  exact (proj2 (proj2 (iso_corner_not_inside (libm := Examples.libm)
                         (tables := Examples.tables) g 0 Float.FLT_MAX) H)).
Defined.

End MarchFacts.

(** ** Marching cubes: the edge loop and the vertex cache *)

Module ExtractFacts.
Import MC.


(** What one iteration of the edge loop does, by cases. *)
Lemma edge_step_cases values positions iso x y z flags es e :
  let es' := edge_step values positions iso x y z flags es e in
  let key := edge_key_of x y z e in
  ((Z.land flags (Z.shiftl 1 e) =? 0) = true /\ es' = es)
  \/ ((Z.land flags (Z.shiftl 1 e) =? 0) = false /\
      is_Some (es_cache es !! key) /\
      es_vertices es' = es_vertices es /\ es_cache es' = es_cache es)
  \/ ((Z.land flags (Z.shiftl 1 e) =? 0) = false /\
      es_cache es !! key = None /\
      es_vertices es'
      = es_vertices es
        ++ [interpolate values positions iso (edge_connection e).1
                        (edge_connection e).2] /\
      es_cache es'
      = <[key := to_u32 (Z.of_nat (length (es_vertices es)))]> (es_cache es)).
Proof.
  unfold edge_step, edge_key_of.
  destruct (Z.land flags (Z.shiftl 1 e) =? 0); simpl; [by left | right].
  destruct (edge_connection e) as [c0 c1].
  destruct (edge_corners x y z e) as [k0 k1]. simpl.
  destruct (es_cache es !! make_edge_key k0 k1) eqn:E; simpl.
  - left. eauto.
  - right. done.
Qed.

Section EdgeLoop.
Variables (values : list Q) (positions : list vec3) (iso : Q) (x y z flags : Z).

Local Abbreviation step := (edge_step values positions iso x y z flags).
Local Abbreviation flagged e := ((Z.land flags (Z.shiftl 1 e) =? 0) = false).

Lemma edge_step_mono es e k :
  is_Some (es_cache es !! k) -> is_Some (es_cache (step es e) !! k).
Proof.
  intros Hk.
  destruct (edge_step_cases values positions iso x y z flags es e)
    as [[_ ->]|[(_ & _ & _ & ->)|(_ & _ & _ & ->)]]; try done.
  destruct (decide (edge_key_of x y z e = k)) as [->|Hne].
  - rewrite lookup_insert_eq. eauto.
  - by rewrite lookup_insert_ne.
Qed.

Lemma edge_step_length es e :
  (length (es_vertices (step es e)) <= S (length (es_vertices es)))%nat.
Proof.
  destruct (edge_step_cases values positions iso x y z flags es e)
    as [[_ ->]|[(_ & _ & -> & _)|(_ & _ & -> & _)]];
    rewrite ?length_app; simpl; lia.
Qed.

Lemma edge_step_hit es e :
  flagged e -> is_Some (es_cache es !! edge_key_of x y z e) ->
  es_vertices (step es e) = es_vertices es.
Proof.
  intros Hf [v Hv].
  destruct (edge_step_cases values positions iso x y z flags es e)
    as [[H _]|[(_ & _ & -> & _)|(_ & H & _)]]; [|done|]; congruence.
Qed.

Lemma edge_step_cached es e :
  flagged e -> is_Some (es_cache (step es e) !! edge_key_of x y z e).
Proof.
  intros Hf.
  destruct (edge_step_cases values positions iso x y z flags es e)
    as [[H _]|[(_ & H & _ & ->)|(_ & _ & _ & ->)]].
  - congruence.
  - done.
  - rewrite lookup_insert_eq. eauto.
Qed.

Lemma edge_loop_mono l es k :
  is_Some (es_cache es !! k) -> is_Some (es_cache (fold_left step l es) !! k).
Proof.
  revert es. induction l as [|e l IH]; intros es H; [done|].
  simpl. apply IH. by apply edge_step_mono.
Qed.

Lemma edge_loop_length l es :
  (length (es_vertices (fold_left step l es))
   <= length (es_vertices es) + length l)%nat.
Proof.
  revert es. induction l as [|e l IH]; intros es; simpl; [lia|].
  pose proof (IH (step es e)). pose proof (edge_step_length es e). lia.
Qed.

(** After the loop every crossed edge has its key in the cache. *)
Lemma edge_loop_cached l es e :
  e ∈ l -> flagged e ->
  is_Some (es_cache (fold_left step l es) !! edge_key_of x y z e).
Proof.
  revert es. induction l as [|e' l IH]; intros es Hin Hf.
  - by apply elem_of_nil in Hin.
  - simpl. apply elem_of_cons in Hin as [->|Hin].
    + apply edge_loop_mono. by apply edge_step_cached.
    + by apply IH.
Qed.

(** A crossed edge whose key is cached before the loop saves a vertex. *)
Lemma edge_loop_hit l es e :
  e ∈ l -> flagged e -> is_Some (es_cache es !! edge_key_of x y z e) ->
  (S (length (es_vertices (fold_left step l es)))
   <= length (es_vertices es) + length l)%nat.
Proof.
  revert es. induction l as [|e' l IH]; intros es Hin Hf Hk.
  - by apply elem_of_nil in Hin.
  - simpl. apply elem_of_cons in Hin as [->|Hin].
    + pose proof (edge_loop_length l (step es e')) as H.
      rewrite (edge_step_hit es e' Hf Hk) in H. lia.
    + pose proof (IH (step es e') Hin Hf (edge_step_mono es e' _ Hk)) as H.
      pose proof (edge_step_length es e'). lia.
Qed.

(** Every vertex the loop adds is the crossing point of one of its edges. *)
Lemma edge_loop_vertices (P : fvec3 -> Prop) l es :
  (forall v, v ∈ es_vertices es -> P v) ->
  (forall e, e ∈ l ->
     P (interpolate values positions iso (edge_connection e).1
                    (edge_connection e).2)) ->
  forall v, v ∈ es_vertices (fold_left step l es) -> P v.
Proof.
  intros Hes Hl.
  apply (LoopFacts.fold_left_invariant
           (fun es => forall v, v ∈ es_vertices es -> P v)); [done|].
  intros es' e He Hes' v.
  destruct (edge_step_cases values positions iso x y z flags es' e)
    as [[_ ->]|[(_ & _ & -> & _)|(_ & _ & -> & _)]]; try apply Hes'.
  intros Hv. apply elem_of_app in Hv as [Hv|Hv]; [by apply Hes'|].
  apply list_elem_of_singleton in Hv as ->. by apply Hl.
Qed.


(** *** The cache and the [edge_vertices] array *)

(** An entry of the cache is never changed: a key is inserted only when it
    is absent. *)
Lemma edge_step_cache_keep es e k i :
  es_cache es !! k = Some i -> es_cache (step es e) !! k = Some i.
Proof.
  intros Hk.
  destruct (edge_step_cases values positions iso x y z flags es e)
    as [[_ ->]|[(_ & _ & _ & ->)|(_ & Hnone & _ & ->)]]; try done.
  rewrite lookup_insert_ne; [done|]. intros <-. congruence.
Qed.

Lemma edge_loop_cache_keep l es k i :
  es_cache es !! k = Some i -> es_cache (fold_left step l es) !! k = Some i.
Proof.
  revert es. induction l as [|e l IH]; intros es H; [done|].
  simpl. apply IH. by apply edge_step_cache_keep.
Qed.

(** Vertices are only ever appended. *)
Lemma edge_step_prefix es e :
  es_vertices es `prefix_of` es_vertices (step es e).
Proof.
  destruct (edge_step_cases values positions iso x y z flags es e)
    as [[_ ->]|[(_ & _ & -> & _)|(_ & _ & -> & _)]]; try done.
  by apply prefix_app_r.
Qed.

Lemma edge_loop_prefix l es :
  es_vertices es `prefix_of` es_vertices (fold_left step l es).
Proof.
  revert es. induction l as [|e l IH]; intros es; [done|].
  simpl. etrans; [apply edge_step_prefix | apply IH].
Qed.

Lemma edge_step_slots_length es e :
  length (edge_vertices (step es e)) = length (edge_vertices es).
Proof.
  unfold edge_step. destruct (negb _); [|done].
  destruct (edge_connection e), (edge_corners x y z e).
  destruct (es_cache es !! _); cbn; by rewrite length_insert.
Qed.

Lemma edge_loop_slots_length l es :
  length (edge_vertices (fold_left step l es)) = length (edge_vertices es).
Proof.
  revert es. induction l as [|e l IH]; intros es; [done|].
  simpl. by rewrite IH, edge_step_slots_length.
Qed.

(** A crossed edge leaves its step with its slot holding the number the
    cache has for its key. *)
Lemma edge_step_slot es e :
  0 <= e -> (Z.to_nat e < length (edge_vertices es))%nat -> flagged e ->
  es_cache (step es e) !! edge_key_of x y z e
  = Some (nthZ 0 (edge_vertices (step es e)) e).
Proof.
  intros He Hlen Hf. unfold edge_step, edge_key_of. rewrite Hf. cbn [negb].
  destruct (edge_connection e) as [c0 c1].
  destruct (edge_corners x y z e) as [k0 k1]. cbn [fst snd].
  unfold nthZ.
  destruct (es_cache es !! make_edge_key k0 k1) as [it|] eqn:Hk; cbn.
  - rewrite Hk, nth_lookup, list_lookup_insert_eq by lia. done.
  - rewrite lookup_insert_eq, nth_lookup, list_lookup_insert_eq by lia. done.
Qed.

(** The step of one edge leaves the slots of the others alone. *)
Lemma edge_step_other_slot es e e' :
  0 <= e -> 0 <= e' -> e' <> e ->
  nthZ 0 (edge_vertices (step es e)) e' = nthZ 0 (edge_vertices es) e'.
Proof.
  intros He He' Hne. unfold edge_step. destruct (negb _); [|done].
  destruct (edge_connection e), (edge_corners x y z e).
  unfold nthZ.
  destruct (es_cache es !! _); cbn;
    by rewrite !nth_lookup, list_lookup_insert_ne by lia.
Qed.

Lemma edge_loop_other_slot l es e' :
  (forall e, e ∈ l -> 0 <= e) -> 0 <= e' -> e' ∉ l ->
  nthZ 0 (edge_vertices (fold_left step l es)) e'
  = nthZ 0 (edge_vertices es) e'.
Proof.
  revert es. induction l as [|e l IH]; intros es Hl He' Hnot; [done|].
  simpl. apply not_elem_of_cons in Hnot as [Hne Hnot].
  rewrite IH; [|intros e0 H0; apply Hl; by right|done..].
  apply edge_step_other_slot; [apply Hl; by left|done..].
Qed.

(** After the loop every crossed edge has in its slot the number the cache
    holds for its key. *)
Lemma edge_loop_slots l es e :
  NoDup l -> (forall e, e ∈ l -> 0 <= e) ->
  (forall e, e ∈ l -> (Z.to_nat e < length (edge_vertices es))%nat) ->
  e ∈ l -> flagged e ->
  es_cache (fold_left step l es) !! edge_key_of x y z e
  = Some (nthZ 0 (edge_vertices (fold_left step l es)) e).
Proof.
  revert es. induction l as [|e0 l IH]; intros es Hnd Hl Hlen Hin Hf.
  - by apply elem_of_nil in Hin.
  - apply NoDup_cons in Hnd as [Hnot Hnd]. simpl.
    assert (forall e, e ∈ l -> 0 <= e) as Hl' by (intros; apply Hl; by right).
    apply elem_of_cons in Hin as [->|Hin].
    + rewrite edge_loop_other_slot by (try done; apply Hl; by left).
      apply edge_loop_cache_keep.
      apply edge_step_slot; [apply Hl; by left | apply Hlen; by left | done].
    + apply IH; try done.
      intros e1 H1. rewrite edge_step_slots_length. apply Hlen. by right.
Qed.

(** Cached numbers name existing vertices. *)
Lemma edge_loop_cache_bound l es :
  (forall k i, es_cache es !! k = Some i ->
     0 <= i < Z.of_nat (length (es_vertices es))) ->
  forall k i, es_cache (fold_left step l es) !! k = Some i ->
    0 <= i < Z.of_nat (length (es_vertices (fold_left step l es))).
Proof.
  intros Hes.
  apply (LoopFacts.fold_left_invariant
           (fun es => forall k i, es_cache es !! k = Some i ->
                        0 <= i < Z.of_nat (length (es_vertices es))));
    [done|].
  intros es' e _ Hes' k i.
  unfold edge_step. destruct (negb _); [|apply Hes'].
  destruct (edge_connection e), (edge_corners x y z e).
  destruct (es_cache es' !! _) eqn:Hk; cbn; [apply Hes'|].
  rewrite length_app. cbn.
  destruct (decide (make_edge_key i0 i1 = k)) as [<-|Hne].
  - rewrite lookup_insert_eq. intros [= <-]. unfold to_u32.
    pose proof (Z.mod_pos_bound (Z.of_nat (length (es_vertices es')))
                  (2 ^ 32) ltac:(done)).
    pose proof (Z.mod_le (Z.of_nat (length (es_vertices es'))) (2 ^ 32)
                  ltac:(lia) ltac:(done)). lia.
  - rewrite lookup_insert_ne by done. intros H. specialize (Hes' k i H). lia.
Qed.

(** While the vertex count fits [uint32_t], a cached number is the position
    of the crossing point computed for an edge with that key. *)
Lemma edge_loop_origin (Orig : Z -> fvec3 -> Prop) l es :
  Z.of_nat (length (es_vertices (fold_left step l es))) < 2 ^ 32 ->
  (forall e, e ∈ l -> flagged e ->
     Orig (edge_key_of x y z e)
          (interpolate values positions iso (edge_connection e).1
                       (edge_connection e).2)) ->
  (forall k i, es_cache es !! k = Some i ->
     exists v, es_vertices es !! Z.to_nat i = Some v /\ Orig k v) ->
  forall k i, es_cache (fold_left step l es) !! k = Some i ->
    exists v, es_vertices (fold_left step l es) !! Z.to_nat i = Some v
              /\ Orig k v.
Proof.
  revert es. induction l as [|e l IH]; intros es Hfit Hl Hes; [done|].
  simpl in *. apply IH; [done | intros e0 H0; apply Hl; by right |].
  pose proof (prefix_length _ _ (edge_loop_prefix l (step es e))) as Hlen.
  intros k i.
  destruct (edge_step_cases values positions iso x y z flags es e)
    as [[_ ->]|[(_ & _ & -> & ->)|(Hf & Hnone & Hv & Hc)]];
    [apply Hes | apply Hes |].
  assert (to_u32 (Z.of_nat (length (es_vertices es)))
          = Z.of_nat (length (es_vertices es))) as Hidx.
  { unfold to_u32. apply Z.mod_small.
    rewrite Hv, length_app in Hlen. cbn in Hlen. lia. }
  rewrite Hc, Hv, Hidx.
  destruct (decide (edge_key_of x y z e = k)) as [<-|Hne].
  - rewrite lookup_insert_eq. intros [= <-]. rewrite Nat2Z.id.
    eexists. split; [apply list_lookup_middle; done|].
    apply Hl; [by left | done].
  - rewrite lookup_insert_ne by done. intros H.
    destruct (Hes k i H) as (v & Hv' & Ho). exists v. split; [|done].
    by apply lookup_app_l_Some.
Qed.

(** One vertex per cached key. *)
Lemma edge_loop_size l es :
  length (es_vertices es) = size (es_cache es) ->
  length (es_vertices (fold_left step l es))
  = size (es_cache (fold_left step l es)).
Proof.
  intros H.
  apply (LoopFacts.fold_left_invariant
           (fun es => length (es_vertices es) = size (es_cache es))); [done|].
  intros es' e _ Hes'.
  destruct (edge_step_cases values positions iso x y z flags es' e)
    as [[_ ->]|[(_ & _ & -> & ->)|(_ & Hnone & -> & ->)]]; try done.
  rewrite length_app, map_size_insert_None by done. simpl. lia.
Qed.

End EdgeLoop.

Lemma make_edge_key_sym c0 c1 : make_edge_key c0 c1 = make_edge_key c1 c0.
Proof.
  unfold make_edge_key.
  assert (Glm.imin c0 c1 = Glm.imin c1 c0) as ->
    by (unfold Glm.imin; f_equal; lia).
  assert (Glm.imax c0 c1 = Glm.imax c1 c0) as ->
    by (unfold Glm.imax; f_equal; lia).
  reflexivity.
Qed.

Lemma same_corners_key a b :
  same_corners a b -> make_edge_key a.1 a.2 = make_edge_key b.1 b.2.
Proof.
  intros [[-> ->]|[-> ->]]; [done|]. apply make_edge_key_sym.
Qed.

(** What the triangle loop appends: the vertex numbers of the edges the
    row names, three per triangle counted. *)
Lemma emit_triangles_spec row ev acc :
  (emit_triangles row ev acc).1 = acc.1 ++ map (nthZ 0 ev) (row_edges row) /\
  exists n, length (row_edges row) = (3 * n)%nat /\
            (emit_triangles row ev acc).2 = (acc.2 + n)%nat.
Proof.
  remember (length row) as k eqn:Hk. revert row acc Hk.
  induction k as [k IH] using lt_wf_ind. intros row acc Hk.
  destruct row as [|e0 [|e1 [|e2 rest]]]; simpl;
    try (rewrite app_nil_r; split; [done | exists 0%nat; split; [done | lia]]).
  destruct (e0 =? -1).
  - rewrite app_nil_r. split; [done | exists 0%nat; split; [done | lia]].
  - destruct (IH (length rest) ltac:(subst k; simpl; lia) rest
                (acc.1 ++ [nthZ 0 ev e0; nthZ 0 ev e1; nthZ 0 ev e2], S acc.2)
                eq_refl) as (Hf & n & Hn & Hs).
    rewrite Hf, Hs. simpl. split.
    + by rewrite <- app_assoc.
    + exists (S n). simpl. split; lia.
Qed.

Section WithTables.
Context {tables : McTables}.

Lemma process_cube_skip g iso max_z st c :
  crossing g iso max_z c = false ->
  process_cube g iso max_z st c.1.1 c.1.2 c.2 = st.
Proof.
  unfold crossing, process_cube, lowest_corner_z. intros H.
  destruct (Float.ltb max_z _); [done|]. simpl in H.
  apply negb_false_iff in H. by rewrite H.
Qed.

(** A crossing cube runs the edge loop once and counts as processed. *)
Lemma process_cube_run g iso max_z st c :
  crossing g iso max_z c = true ->
  let es :=
    fold_left
      (edge_step (corner_values g c.1.1 c.1.2 c.2)
                 (corner_positions g c.1.1 c.1.2 c.2) iso c.1.1 c.1.2 c.2
                 (edge_table (cube_index (corner_values g c.1.1 c.1.2 c.2) iso)))
      (range 0 12)
      {| es_vertices := vertices (mc_mesh st);
         es_normals := normals (mc_mesh st);
         es_cache := vertex_cache st;
         edge_vertices := replicate 12 0 |} in
  let st' := process_cube g iso max_z st c.1.1 c.1.2 c.2 in
  vertices (mc_mesh st') = es_vertices es /\
  vertex_cache st' = es_cache es /\
  cubes_processed st' = S (cubes_processed st) /\
  (lowest_corner_z g c.1.1 c.1.2 c.2 <= max_z)%Q.
Proof.
  unfold crossing, process_cube, lowest_corner_z. intros H.
  apply andb_true_iff in H as [Hz Hidx].
  apply negb_true_iff in Hz, Hidx. rewrite Hz, Hidx.
  apply FloatFacts.ltb_ge in Hz. simpl.
  destruct (emit_triangles _ _ _). done.
Qed.

(** The mesh and the counters after a crossing cube. *)
Lemma process_cube_mesh g iso max_z st c :
  crossing g iso max_z c = true ->
  let index := cube_index (corner_values g c.1.1 c.1.2 c.2) iso in
  let es :=
    fold_left
      (edge_step (corner_values g c.1.1 c.1.2 c.2)
                 (corner_positions g c.1.1 c.1.2 c.2) iso c.1.1 c.1.2 c.2
                 (edge_table index))
      (range 0 12)
      {| es_vertices := vertices (mc_mesh st);
         es_normals := normals (mc_mesh st);
         es_cache := vertex_cache st;
         edge_vertices := replicate 12 0 |} in
  let out := emit_triangles (triangle_table index) (edge_vertices es)
               (indices (mc_mesh st), triangles_generated st) in
  process_cube g iso max_z st c.1.1 c.1.2 c.2
  = {| mc_mesh := {| vertices := es_vertices es; normals := es_normals es;
                     indices := out.1 |};
       vertex_cache := es_cache es;
       cubes_processed := S (cubes_processed st);
       triangles_generated := out.2 |}.
Proof.
  unfold crossing, process_cube, lowest_corner_z. intros H.
  apply andb_true_iff in H as [Hz Hidx].
  apply negb_true_iff in Hz, Hidx. rewrite Hz, Hidx. simpl.
  by destruct (emit_triangles _ _ _).
Qed.

End WithTables.

End ExtractFacts.

(** ** The edge keys as numbers *)

Module KeyFacts.
Import MC.

(** [lia] after evaluating the constant powers of two. *)
Ltac pow_lia :=
  repeat match goal with
         | |- context [2 ^ ?n] =>
           let v := eval vm_compute in (2 ^ n) in change (2 ^ n) with v
         | H : context [2 ^ ?n] |- _ =>
           let v := eval vm_compute in (2 ^ n) in change (2 ^ n) with v in H
         end;
  lia.

(** Or-ing a number below [2^n] into a multiple of [2^n] adds it. *)
Lemma lor_shift_add hi lo n :
  0 <= n -> 0 <= lo < 2 ^ n -> Z.lor (hi * 2 ^ n) lo = hi * 2 ^ n + lo.
Proof.
  intros Hn Hlo.
  assert (Z.land (hi * 2 ^ n) lo = 0) as Hland.
  { apply Z.bits_inj'. intros i Hi. rewrite Z.land_spec, Z.bits_0.
    destruct (Z.lt_ge_cases i n).
    - by rewrite Z.mul_pow2_bits_low.
    - rewrite <- (Z.mod_small lo (2 ^ n)) by done.
      rewrite Z.mod_pow2_bits_high by lia. apply andb_false_r. }
  rewrite <- Z.lxor_lor by done. symmetry. by apply Z.add_nocarry_lxor.
Qed.

(** The key of two corners that fit the fields, as a number. *)
Lemma make_edge_key_code c0 c1 :
  0 <= ix c0 < 2 ^ 14 -> 0 <= iy c0 < 2 ^ 14 -> 0 <= iz c0 < 2 ^ 14 ->
  0 <= ix c1 < 2 ^ 14 -> 0 <= iy c1 < 2 ^ 14 -> 0 <= iz c1 < 2 ^ 14 ->
  make_edge_key c0 c1
  = key_code (Glm.imin c0 c1)
             (if negb (ix c0 =? ix c1) then 0
              else if negb (iy c0 =? iy c1) then 1 else 2).
Proof.
  intros Hx0 Hy0 Hz0 Hx1 Hy1 Hz1. unfold make_edge_key, key_code.
  set (m := Glm.imin c0 c1).
  assert (0 <= ix m < 2 ^ 14 /\ 0 <= iy m < 2 ^ 14 /\ 0 <= iz m < 2 ^ 14)
    as (Hmx & Hmy & Hmz) by (unfold m, Glm.imin; simpl; lia).
  assert ((ix (Glm.imax c0 c1) =? ix m) = (ix c0 =? ix c1)) as ->.
  { unfold m, Glm.imax, Glm.imin. simpl.
    destruct (Z.eqb_spec (ix c0) (ix c1)); [apply Z.eqb_eq | apply Z.eqb_neq] ; pow_lia. }
  assert ((iy (Glm.imax c0 c1) =? iy m) = (iy c0 =? iy c1)) as ->.
  { unfold m, Glm.imax, Glm.imin. simpl.
    destruct (Z.eqb_spec (iy c0) (iy c1)); [apply Z.eqb_eq | apply Z.eqb_neq] ; pow_lia. }
  set (a := if negb (ix c0 =? ix c1) then 0
            else if negb (iy c0 =? iy c1) then 1 else 2).
  assert (0 <= a <= 2) as Ha
    by (unfold a; destruct (negb _); [lia|]; destruct (negb _); lia).
  unfold shl64, to_u64.
  rewrite !Z.shiftl_mul_pow2 by pow_lia.
  rewrite (Z.mod_small (ix m)), (Z.mod_small (iy m)), (Z.mod_small (iz m))
    by pow_lia.
  rewrite (Z.mod_small (ix m * 2 ^ 44)), (Z.mod_small (iy m * 2 ^ 30)),
    (Z.mod_small (iz m * 2 ^ 16)), (Z.mod_small (a * 2 ^ 14)) by pow_lia.
  rewrite (lor_shift_add (ix m) (iy m * 2 ^ 30) 44) by pow_lia.
  replace (ix m * 2 ^ 44 + iy m * 2 ^ 30)
    with ((ix m * 2 ^ 14 + iy m) * 2 ^ 30) by pow_lia.
  rewrite (lor_shift_add _ (iz m * 2 ^ 16) 30) by pow_lia.
  replace ((ix m * 2 ^ 14 + iy m) * 2 ^ 30 + iz m * 2 ^ 16)
    with ((ix m * 2 ^ 28 + iy m * 2 ^ 14 + iz m) * 2 ^ 16) by pow_lia.
  rewrite (lor_shift_add _ (a * 2 ^ 14) 16) by pow_lia.
  pow_lia.
Qed.

Lemma key_code_inj m a m' a' :
  0 <= ix m < 2 ^ 14 -> 0 <= iy m < 2 ^ 14 -> 0 <= iz m < 2 ^ 14 ->
  0 <= ix m' < 2 ^ 14 -> 0 <= iy m' < 2 ^ 14 -> 0 <= iz m' < 2 ^ 14 ->
  0 <= a <= 2 -> 0 <= a' <= 2 ->
  key_code m a = key_code m' a' -> m = m' /\ a = a'.
Proof.
  unfold key_code. destruct m as [mx my mz], m' as [nx ny nz]. simpl. intros.
  assert (mx = nx /\ my = ny /\ mz = nz /\ a = a') as (-> & -> & -> & ->)
    by pow_lia.
  done.
Qed.

(** Every edge of a cube joins a corner to its neighbour along one axis. *)
Lemma edge_corners_unit x y z e :
  0 <= e < 12 ->
  exists a, 0 <= a <= 2 /\
    let c := edge_corners x y z e in
    (c.2 = unit_step a c.1 \/ c.1 = unit_step a c.2) /\
    x <= ix c.1 <= x + 1 /\ y <= iy c.1 <= y + 1 /\ z <= iz c.1 <= z + 1 /\
    x <= ix c.2 <= x + 1 /\ y <= iy c.2 <= y + 1 /\ z <= iz c.2 <= z + 1.
Proof.
  intros He.
  assert (e = 0 \/ e = 1 \/ e = 2 \/ e = 3 \/ e = 4 \/ e = 5 \/ e = 6 \/ e = 7
          \/ e = 8 \/ e = 9 \/ e = 10 \/ e = 11) as Hcases by pow_lia.
  destruct Hcases as [->|[->|[->|[->|[->|[->|[->|[->|[->|[->|[->| ->]]]]]]]]]]];
    [ exists 0 | exists 1 | exists 0 | exists 1 | exists 0 | exists 1
    | exists 0 | exists 1 | exists 2 | exists 2 | exists 2 | exists 2 ];
    (split; [lia|]); cbv -[Z.add Z.le Z.lt]; (split; [|lia]);
    first [ left; f_equal; lia | right; f_equal; lia ].
Qed.

(** The key of a unit edge names its lower corner and its axis. *)
Lemma unit_edge_key c a :
  0 <= a <= 2 ->
  0 <= ix c -> 0 <= iy c -> 0 <= iz c ->
  ix (unit_step a c) < 2 ^ 14 -> iy (unit_step a c) < 2 ^ 14 ->
  iz (unit_step a c) < 2 ^ 14 ->
  make_edge_key c (unit_step a c) = key_code c a.
Proof.
  intros Ha Hx Hy Hz Hx' Hy' Hz'. destruct c as [cx cy cz].
  assert (a = 0 \/ a = 1 \/ a = 2) as [->|[->| ->]] by lia;
    unfold unit_step in *; cbn in *;
    (rewrite make_edge_key_code by (cbn; pow_lia)); cbn;
    unfold Glm.imin; cbn;
    rewrite ?(Z.min_l cx), ?(Z.min_l cy), ?(Z.min_l cz) by lia;
    repeat match goal with
           | |- context [?u =? ?v] => destruct (Z.eqb_spec u v); try lia
           end; reflexivity.
Qed.

(** An edge of a cube, seen from its lower corner. *)
Lemma oriented_edge x y z e :
  fits_key x y z -> 0 <= e < 12 ->
  exists m a, 0 <= a <= 2 /\
    0 <= ix m < 2 ^ 14 /\ 0 <= iy m < 2 ^ 14 /\ 0 <= iz m < 2 ^ 14 /\
    edge_key_of x y z e = key_code m a /\
    (edge_corners x y z e = (m, unit_step a m)
     \/ edge_corners x y z e = (unit_step a m, m)).
Proof.
  intros (Hx & Hy & Hz) He. unfold edge_key_of.
  destruct (edge_corners_unit x y z e He) as (a & Ha & Hs & B).
  destruct (edge_corners x y z e) as [p q]. cbn [fst snd] in *.
  destruct Hs as [E|E].
  - exists p, a. subst q.
    repeat split; try pow_lia; [|by left].
    apply unit_edge_key; pow_lia.
  - exists q, a. subst p.
    repeat split; try pow_lia; [|by right].
    rewrite ExtractFacts.make_edge_key_sym. apply unit_edge_key; pow_lia.
Qed.

(** Edges of cubes that fit the key's fields have the same key only when
    they join the same two corners. *)
Lemma key_same_corners x1 y1 z1 e1 x2 y2 z2 e2 :
  fits_key x1 y1 z1 -> fits_key x2 y2 z2 -> 0 <= e1 < 12 -> 0 <= e2 < 12 ->
  edge_key_of x1 y1 z1 e1 = edge_key_of x2 y2 z2 e2 ->
  same_corners (edge_corners x1 y1 z1 e1) (edge_corners x2 y2 z2 e2).
Proof.
  intros H1 H2 He1 He2.
  destruct (oriented_edge x1 y1 z1 e1 H1 He1)
    as (m & a & Ha & Hmx & Hmy & Hmz & -> & Ho).
  destruct (oriented_edge x2 y2 z2 e2 H2 He2)
    as (m' & a' & Ha' & Hmx' & Hmy' & Hmz' & -> & Ho').
  intros Hkey. apply key_code_inj in Hkey as [-> ->]; try done.
  unfold same_corners.
  destruct Ho as [-> | ->], Ho' as [-> | ->]; cbn [fst snd]; tauto.
Qed.

End KeyFacts.

(** ** Marching cubes: the whole pass *)

Module SurfaceFacts.
Import MC ExtractFacts.

Section WithTables.
Context {tables : McTables}.

Local Abbreviation body g iso max_z :=
  (fun (st : McState) (c : Z * Z * Z) =>
     process_cube g iso max_z st c.1.1 c.1.2 c.2).

Lemma march_run g iso max_z : march g iso max_z = run g iso max_z (cubes g).
Proof. unfold march, run, cubes, initial_state. apply LoopFacts.for3_cells. Qed.

Lemma run_app g iso max_z l1 l2 :
  run g iso max_z (l1 ++ l2)
  = fold_left (body g iso max_z) l2 (run g iso max_z l1).
Proof. unfold run. apply fold_left_app. Qed.

Lemma run_snoc g iso max_z l c :
  run g iso max_z (l ++ [c])
  = process_cube g iso max_z (run g iso max_z l) c.1.1 c.1.2 c.2.
Proof. by rewrite run_app. Qed.

Lemma elem_of_cubes g c :
  c ∈ cubes g <->
  0 <= c.1.1 < resolution_ g - 1 /\ 0 <= c.1.2 < resolution_ g - 1 /\
  0 <= c.2 < resolution_ g - 1.
Proof.
  destruct c as [[x y] z]. unfold cubes.
  rewrite LoopFacts.elem_of_cells3, !LoopFacts.elem_of_range. cbn. lia.
Qed.

Lemma NoDup_cubes g : NoDup (cubes g).
Proof.
  unfold cubes, cells3.
  apply NoDup_bind; [| |apply NoDup_seqZ].
  - intros z1 z2 c _ _ H1 H2.
    apply list_elem_of_bind in H1 as (y1 & H1 & _).
    apply list_elem_of_bind in H1 as (x1 & H1 & _).
    apply list_elem_of_singleton in H1.
    apply list_elem_of_bind in H2 as (y2 & H2 & _).
    apply list_elem_of_bind in H2 as (x2 & H2 & _).
    apply list_elem_of_singleton in H2. congruence.
  - intros z _. apply NoDup_bind; [| |apply NoDup_seqZ].
    + intros y1 y2 c _ _ H1 H2.
      apply list_elem_of_bind in H1 as (x1 & H1 & _).
      apply list_elem_of_singleton in H1.
      apply list_elem_of_bind in H2 as (x2 & H2 & _).
      apply list_elem_of_singleton in H2. congruence.
    + intros y _. apply NoDup_bind; [| |apply NoDup_seqZ].
      * intros x1 x2 c _ _ H1 H2.
        apply list_elem_of_singleton in H1, H2. congruence.
      * intros x _. apply NoDup_singleton.
Qed.

Lemma crossed_edge_flagged g iso c e :
  crossed_edge g iso c e = true ->
  (Z.land (edge_table (cube_index (corner_values g c.1.1 c.1.2 c.2) iso))
          (Z.shiftl 1 e) =? 0) = false.
Proof. unfold crossed_edge. apply negb_true_iff. Qed.

Lemma flagged_crossed_edge g iso c e :
  (Z.land (edge_table (cube_index (corner_values g c.1.1 c.1.2 c.2) iso))
          (Z.shiftl 1 e) =? 0) = false ->
  crossed_edge g iso c e = true.
Proof. unfold crossed_edge. apply negb_true_iff. Qed.

Lemma elem_of_range_0_12 e : e ∈ range 0 12 <-> 0 <= e < 12.
Proof. rewrite LoopFacts.elem_of_range. lia. Qed.

(** *** One cube *)

Lemma cube_edge_loop_eq g iso st c :
  cube_edge_loop g iso st c
  = fold_left
      (edge_step (corner_values g c.1.1 c.1.2 c.2)
                 (corner_positions g c.1.1 c.1.2 c.2) iso c.1.1 c.1.2 c.2
                 (edge_table (cube_index (corner_values g c.1.1 c.1.2 c.2) iso)))
      (range 0 12)
      {| es_vertices := vertices (mc_mesh st);
         es_normals := normals (mc_mesh st);
         es_cache := vertex_cache st;
         edge_vertices := replicate 12 0 |}.
Proof. reflexivity. Qed.

(** What a crossing cube leaves behind: the arrays and the cache of its
    edge loop, one more cube counted, and its triangles written with the
    numbers of its [edge_vertices] array. *)
Lemma process_cube_loop g iso max_z st c :
  crossing g iso max_z c = true ->
  let st' := process_cube g iso max_z st c.1.1 c.1.2 c.2 in
  vertices (mc_mesh st') = es_vertices (cube_edge_loop g iso st c) /\
  vertex_cache st' = es_cache (cube_edge_loop g iso st c) /\
  cubes_processed st' = S (cubes_processed st) /\
  indices (mc_mesh st')
  = indices (mc_mesh st)
    ++ map (edge_vertex g iso st c)
           (row_edges (triangle_table
                         (cube_index (corner_values g c.1.1 c.1.2 c.2) iso))).
Proof.
  intros Hc. pose proof (process_cube_mesh g iso max_z st c Hc) as Heq.
  cbv zeta in Heq. unfold edge_vertex, cube_edge_loop. cbv zeta.
  rewrite Heq. cbn [mc_mesh vertices vertex_cache cubes_processed indices].
  split; [done|]. split; [done|]. split; [done|].
  apply emit_triangles_spec.
Qed.

Lemma process_cube_cache_keep g iso max_z st c k i :
  vertex_cache st !! k = Some i ->
  vertex_cache (process_cube g iso max_z st c.1.1 c.1.2 c.2) !! k = Some i.
Proof.
  intros Hk. destruct (crossing g iso max_z c) eqn:Hc.
  - destruct (process_cube_loop g iso max_z st c Hc) as (_ & -> & _).
    rewrite cube_edge_loop_eq. by apply edge_loop_cache_keep.
  - by rewrite (process_cube_skip g iso max_z st c Hc).
Qed.

Lemma process_cube_prefix g iso max_z st c :
  vertices (mc_mesh st)
  `prefix_of` vertices (mc_mesh (process_cube g iso max_z st c.1.1 c.1.2 c.2)).
Proof.
  destruct (crossing g iso max_z c) eqn:Hc.
  - destruct (process_cube_loop g iso max_z st c Hc) as (-> & _).
    rewrite cube_edge_loop_eq. apply edge_loop_prefix.
  - by rewrite (process_cube_skip g iso max_z st c Hc).
Qed.

(** *** The pass over a list of cubes *)

Lemma fold_cache_keep g iso max_z l st k i :
  vertex_cache st !! k = Some i ->
  vertex_cache (fold_left (body g iso max_z) l st) !! k = Some i.
Proof.
  revert st. induction l as [|c l IH]; intros st H; [done|].
  cbn [fold_left]. apply IH. by apply process_cube_cache_keep.
Qed.

Lemma fold_prefix g iso max_z l st :
  vertices (mc_mesh st)
  `prefix_of` vertices (mc_mesh (fold_left (body g iso max_z) l st)).
Proof.
  revert st. induction l as [|c l IH]; intros st; [done|].
  cbn [fold_left]. etrans; [apply process_cube_prefix | apply IH].
Qed.

(** The state after any list of cubes: the processed count, one vertex per
    key, at most twelve vertices per processed cube, the keys of all
    crossed edges cached, and one vertex fewer once two cubes share a
    crossed edge. *)
Lemma run_invariant g iso max_z (l : list (Z * Z * Z)) :
  let st := run g iso max_z l in
  cubes_processed st = length (filter (fun c => crossing g iso max_z c = true) l) /\
  length (vertices (mc_mesh st)) = size (vertex_cache st) /\
  (length (vertices (mc_mesh st)) <= 12 * cubes_processed st)%nat /\
  (forall c e, c ∈ l -> crossing g iso max_z c = true -> 0 <= e < 12 ->
     crossed_edge g iso c e = true ->
     is_Some (vertex_cache st !! edge_key_of c.1.1 c.1.2 c.2 e)) /\
  ((exists c1 c2, c1 ∈ l /\ c2 ∈ l /\ share_crossed_edge g iso max_z c1 c2) ->
   (length (vertices (mc_mesh st)) < 12 * cubes_processed st)%nat).
Proof.
  induction l as [|c l IH] using rev_ind.
  - simpl. repeat split; try done; try lia.
    + intros c e Hc. by apply elem_of_nil in Hc.
    + intros (c1 & c2 & Hc1 & _). by apply elem_of_nil in Hc1.
  - cbv zeta. rewrite run_snoc.
    set (st := run g iso max_z l) in *.
    destruct IH as (IHn & IHsize & IHle & IHcache & IHshare).
    rewrite filter_app, length_app.
    destruct (crossing g iso max_z c) eqn:Hc.
    + (* the cube is processed *)
      destruct (process_cube_run g iso max_z st c Hc) as (Hv & Hcache & Hn & _).
      rewrite Hv, Hcache, Hn.
      set (values := corner_values g c.1.1 c.1.2 c.2) in *.
      set (positions := corner_positions g c.1.1 c.1.2 c.2) in *.
      set (flags := edge_table (cube_index values iso)) in *.
      set (es0 := {| es_vertices := vertices (mc_mesh st);
                     es_normals := normals (mc_mesh st);
                     es_cache := vertex_cache st;
                     edge_vertices := replicate 12 0 |}) in *.
      pose proof (edge_loop_length values positions iso c.1.1 c.1.2 c.2 flags
                    (range 0 12) es0) as Hlen.
      change (length (range 0 12)) with 12%nat in Hlen.
      change (es_vertices es0) with (vertices (mc_mesh st)) in Hlen.
      split; [|split; [|split; [|split]]].
      * rewrite filter_cons_True by done. simpl. lia.
      * by apply edge_loop_size.
      * lia.
      * intros c' e Hin Hc' He Hcr.
        apply elem_of_app in Hin as [Hin|Hin].
        -- apply edge_loop_mono. by apply IHcache.
        -- apply list_elem_of_singleton in Hin as ->.
           apply edge_loop_cached; [by apply elem_of_range_0_12|].
           by apply crossed_edge_flagged.
      * intros (c1 & c2 & Hc1 & Hc2 & Hshare).
        assert (forall c' e e', c' ∈ l -> crossing g iso max_z c' = true ->
                  0 <= e < 12 -> 0 <= e' < 12 ->
                  crossed_edge g iso c e = true ->
                  crossed_edge g iso c' e' = true ->
                  edge_key_of c.1.1 c.1.2 c.2 e
                  = edge_key_of c'.1.1 c'.1.2 c'.2 e' ->
                  (S (length (es_vertices
                     (fold_left (edge_step values positions iso c.1.1 c.1.2 c.2
                                           flags) (range 0 12) es0)))
                   <= 12 * S (cubes_processed st))%nat) as Hhit.
        { intros c' e e' Hin Hc' He He' Hcr Hcr' Hkey.
          pose proof (edge_loop_hit values positions iso c.1.1 c.1.2 c.2 flags
                        (range 0 12) es0 e (proj2 (elem_of_range_0_12 e) He)
                        (crossed_edge_flagged _ _ _ _ Hcr)) as H.
          change (length (range 0 12)) with 12%nat in H.
          change (es_vertices es0) with (vertices (mc_mesh st)) in H.
          change (es_cache es0) with (vertex_cache st) in H.
          rewrite Hkey in H.
          specialize (H (IHcache c' e' Hin Hc' He' Hcr')). lia. }
        pose proof Hshare as Hshare0.
        destruct Hshare as (Hne & Hcr1 & Hcr2 & e1 & e2 & He1 & He2 & Hx1 & Hx2 & Hsame).
        apply same_corners_key in Hsame. fold (edge_key_of c1.1.1 c1.1.2 c1.2 e1) in Hsame.
        fold (edge_key_of c2.1.1 c2.1.2 c2.2 e2) in Hsame.
        apply elem_of_app in Hc1 as [Hc1|Hc1];
          apply elem_of_app in Hc2 as [Hc2|Hc2].
        -- assert (length (vertices (mc_mesh st)) < 12 * cubes_processed st)%nat
             by (apply IHshare; exists c1, c2; done).
           lia.
        -- apply list_elem_of_singleton in Hc2 as ->.
           by apply (Hhit c1 e2 e1).
        -- apply list_elem_of_singleton in Hc1 as ->.
           by apply (Hhit c2 e1 e2).
        -- apply list_elem_of_singleton in Hc1, Hc2. congruence.
    + (* the cube is skipped *)
      rewrite (process_cube_skip g iso max_z st c Hc).
      rewrite filter_cons_False by (rewrite Hc; done). simpl.
      assert (forall c', c' ∈ l ++ [c] -> crossing g iso max_z c' = true -> c' ∈ l)
        as Hin_l.
      { intros c' Hin Hc'. apply elem_of_app in Hin as [Hin|Hin]; [done|].
        apply list_elem_of_singleton in Hin as ->. congruence. }
      split; [lia|]. split; [done|]. split; [done|]. split.
      * intros c' e Hin Hc'. apply IHcache; [|done]. by apply Hin_l.
      * intros (c1 & c2 & Hc1 & Hc2 & Hshare). apply IHshare.
        exists c1, c2. pose proof Hshare as (? & ? & ? & _).
        split; [by apply Hin_l|]. split; [by apply Hin_l|]. done.
Qed.

(** Cached numbers name existing vertices. *)
Lemma run_cache_bound g iso max_z l k i :
  vertex_cache (run g iso max_z l) !! k = Some i ->
  0 <= i < Z.of_nat (length (vertices (mc_mesh (run g iso max_z l)))).
Proof.
  revert k i. unfold run.
  apply (LoopFacts.fold_left_invariant
           (fun st => forall k i, vertex_cache st !! k = Some i ->
              0 <= i < Z.of_nat (length (vertices (mc_mesh st))))).
  { intros k i H. cbn in H. by rewrite lookup_empty in H. }
  intros st c _ Hst. destruct (crossing g iso max_z c) eqn:Hc.
  - destruct (process_cube_loop g iso max_z st c Hc) as (-> & -> & _).
    rewrite cube_edge_loop_eq. by apply edge_loop_cache_bound.
  - by rewrite (process_cube_skip g iso max_z st c Hc).
Qed.

(** An edge of a cube of [l] that passed both tests and is marked in the
    edge table, with key [k] and crossing point [v]. *)
Local Abbreviation origin g iso max_z l :=
  (fun (k : Z) (v : fvec3) =>
     exists c e, c ∈ l /\ crossing g iso max_z c = true /\ 0 <= e < 12 /\
       crossed_edge g iso c e = true /\
       edge_key_of c.1.1 c.1.2 c.2 e = k /\ v = edge_point g iso c e).


(** While the vertex count fits [uint32_t], the number cached for a key is
    the position of the crossing point of an edge with that key. *)
Lemma cube_origin g iso max_z st c (l : list (Z * Z * Z)) :
  crossing g iso max_z c = true -> c ∈ l ->
  Z.of_nat (length (es_vertices (cube_edge_loop g iso st c))) < 2 ^ 32 ->
  (forall k i, vertex_cache st !! k = Some i ->
     exists v, vertices (mc_mesh st) !! Z.to_nat i = Some v
               /\ origin g iso max_z l k v) ->
  forall k i, es_cache (cube_edge_loop g iso st c) !! k = Some i ->
    exists v, es_vertices (cube_edge_loop g iso st c) !! Z.to_nat i = Some v
              /\ origin g iso max_z l k v.
Proof.
  rewrite cube_edge_loop_eq. intros Hc Hin Hfit Hst.
  apply (edge_loop_origin _ _ _ _ _ _ _ (origin g iso max_z l));
    [exact Hfit | | exact Hst].
  intros e He Hf. apply elem_of_range_0_12 in He. exists c, e.
  split; [done|]. split; [done|]. split; [done|].
  split; [by apply flagged_crossed_edge|]. split; reflexivity.
Qed.

Lemma run_origin g iso max_z l k i :
  Z.of_nat (length (vertices (mc_mesh (run g iso max_z l)))) < 2 ^ 32 ->
  vertex_cache (run g iso max_z l) !! k = Some i ->
  exists v, vertices (mc_mesh (run g iso max_z l)) !! Z.to_nat i = Some v
            /\ origin g iso max_z l k v.
Proof.
  revert k i. induction l as [|c l IH] using rev_ind; intros k i Hfit.
  { intros H. cbn in H. by rewrite lookup_empty in H. }
  assert (forall k i, vertex_cache (run g iso max_z l) !! k = Some i ->
            exists v, vertices (mc_mesh (run g iso max_z l)) !! Z.to_nat i
                      = Some v
                      /\ origin g iso max_z (l ++ [c]) k v) as Hst.
  { intros k' i' H'.
    assert (Z.of_nat (length (vertices (mc_mesh (run g iso max_z l)))) < 2 ^ 32)
      as Hfit'.
    { rewrite run_snoc in Hfit.
      pose proof (prefix_length _ _
        (process_cube_prefix g iso max_z (run g iso max_z l) c)). lia. }
    destruct (IH k' i' Hfit' H') as (v & Hv & c' & e & Hin & Hrest).
    exists v. split; [done|]. exists c', e. split; [|done].
    apply elem_of_app. by left. }
  revert Hfit. rewrite run_snoc.
  destruct (crossing g iso max_z c) eqn:Hc.
  - destruct (process_cube_loop g iso max_z (run g iso max_z l) c Hc)
      as (-> & -> & _).
    intros Hfit. apply (cube_origin g iso max_z _ c (l ++ [c])); try done.
    apply elem_of_app; right; by left.
  - rewrite (process_cube_skip g iso max_z _ c Hc). intros _. apply Hst.
Qed.

(** A crossed edge of a crossing cube: the number in its slot is the one
    the cache keeps for its key until the end of the pass. *)
Lemma run_edge_vertex g iso max_z l1 c l2 e :
  crossing g iso max_z c = true -> 0 <= e < 12 ->
  crossed_edge g iso c e = true ->
  vertex_cache (run g iso max_z (l1 ++ c :: l2)) !! edge_key_of c.1.1 c.1.2 c.2 e
  = Some (edge_vertex g iso (run g iso max_z l1) c e).
Proof.
  intros Hc He Hcr.
  replace (l1 ++ c :: l2) with ((l1 ++ [c]) ++ l2) by by rewrite <- app_assoc.
  rewrite run_app. apply fold_cache_keep. rewrite run_snoc.
  destruct (process_cube_loop g iso max_z (run g iso max_z l1) c Hc)
    as (_ & -> & _).
  unfold edge_vertex. rewrite cube_edge_loop_eq.
  apply edge_loop_slots.
  - apply NoDup_seqZ.
  - intros e' He'. apply elem_of_range_0_12 in He'. lia.
  - intros e' He'. apply elem_of_range_0_12 in He'. cbn. lia.
  - by apply elem_of_range_0_12.
  - by apply crossed_edge_flagged.
Qed.

(** *** Welding *)

Section WithLibm.
Context {libm : Libm}.

(** C2: two cubes that share a crossed edge compute the same key for it,
    because the key is a function of the edge's two corners in either
    order, and they use the same vertex for it: every crossed edge of a
    cube that passes both tests gets a vertex, the cube's [edge_vertices]
    slot holds the number the cache keeps for the edge's key until the
    end, two cubes with a crossed edge between the same corners hold the
    same number, and the cube's triangles are written with these numbers.
    For grids that fit the key's 14-bit fields, and while the vertex
    count fits [uint32_t], that vertex is the crossing point computed on
    an edge between the same two corners.  The mesh has one vertex per
    key, at most twelve per processed cube, and strictly fewer once two
    processed cubes share a crossed edge. *)
Theorem vertex_welding g iso max_z :
  let F := march g iso max_z in
  let V := length (vertices (extract_surface g iso max_z)) in
  let N := cubes_processed F in
  (forall a b, same_corners a b -> make_edge_key a.1 a.2 = make_edge_key b.1 b.2) /\
  (forall l1 c l2 e,
     cubes g = l1 ++ c :: l2 -> crossing g iso max_z c = true ->
     0 <= e < 12 -> crossed_edge g iso c e = true ->
     let i := edge_vertex g iso (run g iso max_z l1) c e in
     vertex_cache F !! edge_key_of c.1.1 c.1.2 c.2 e = Some i /\
     0 <= i < Z.of_nat V) /\
  (forall l1 c1 l2 e1 l1' c2 l2' e2,
     cubes g = l1 ++ c1 :: l2 -> cubes g = l1' ++ c2 :: l2' ->
     crossing g iso max_z c1 = true -> crossing g iso max_z c2 = true ->
     0 <= e1 < 12 -> 0 <= e2 < 12 ->
     crossed_edge g iso c1 e1 = true -> crossed_edge g iso c2 e2 = true ->
     same_corners (edge_corners c1.1.1 c1.1.2 c1.2 e1)
                  (edge_corners c2.1.1 c2.1.2 c2.2 e2) ->
     edge_vertex g iso (run g iso max_z l1) c1 e1
     = edge_vertex g iso (run g iso max_z l1') c2 e2) /\
  (forall l c, crossing g iso max_z c = true ->
     indices (mc_mesh (run g iso max_z (l ++ [c])))
     = indices (mc_mesh (run g iso max_z l))
       ++ map (edge_vertex g iso (run g iso max_z l) c)
              (row_edges (triangle_table
                 (cube_index (corner_values g c.1.1 c.1.2 c.2) iso)))) /\
  (resolution_ g <= 2 ^ 14 -> Z.of_nat V < 2 ^ 32 ->
   forall c e i,
     c ∈ cubes g -> crossing g iso max_z c = true -> 0 <= e < 12 ->
     crossed_edge g iso c e = true ->
     vertex_cache F !! edge_key_of c.1.1 c.1.2 c.2 e = Some i ->
     exists c' e',
       c' ∈ cubes g /\ crossing g iso max_z c' = true /\ 0 <= e' < 12 /\
       crossed_edge g iso c' e' = true /\
       same_corners (edge_corners c'.1.1 c'.1.2 c'.2 e')
                    (edge_corners c.1.1 c.1.2 c.2 e) /\
       vertices (mc_mesh F) !! Z.to_nat i = Some (edge_point g iso c' e')) /\
  N = length (filter (fun c => crossing g iso max_z c = true) (cubes g)) /\
  V = size (vertex_cache F) /\
  (V <= 12 * N)%nat /\
  ((exists c1 c2, c1 ∈ cubes g /\ c2 ∈ cubes g /\
      share_crossed_edge g iso max_z c1 c2) ->
   (V < 12 * N)%nat).
Proof.
  intros F V N. subst F V N. cbn [extract_surface vertices].
  rewrite march_run.
  assert (forall l1 c l2 e,
     cubes g = l1 ++ c :: l2 -> crossing g iso max_z c = true ->
     0 <= e < 12 -> crossed_edge g iso c e = true ->
     vertex_cache (run g iso max_z (cubes g)) !! edge_key_of c.1.1 c.1.2 c.2 e
     = Some (edge_vertex g iso (run g iso max_z l1) c e)) as Hslot.
  { intros l1 c l2 e -> Hc He Hcr. by apply run_edge_vertex. }
  split; [apply same_corners_key|].
  split.
  { intros l1 c l2 e Hl Hc He Hcr. cbv zeta.
    pose proof (Hslot l1 c l2 e Hl Hc He Hcr) as H.
    split; [exact H|]. by apply run_cache_bound in H. }
  split.
  { intros l1 c1 l2 e1 l1' c2 l2' e2 Hl Hl' Hc1 Hc2 He1 He2 Hcr1 Hcr2 Hsame.
    pose proof (Hslot l1 c1 l2 e1 Hl Hc1 He1 Hcr1) as H1.
    pose proof (Hslot l1' c2 l2' e2 Hl' Hc2 He2 Hcr2) as H2.
    apply same_corners_key in Hsame.
    fold (edge_key_of c1.1.1 c1.1.2 c1.2 e1) in Hsame.
    fold (edge_key_of c2.1.1 c2.1.2 c2.2 e2) in Hsame.
    rewrite Hsame in H1. congruence. }
  split.
  { intros l c Hc. rewrite run_snoc.
    by destruct (process_cube_loop g iso max_z (run g iso max_z l) c Hc)
      as (_ & _ & _ & ->). }
  split.
  { intros Hres Hfit c e i Hin Hc He Hcr Hk.
    destruct (run_origin g iso max_z (cubes g) _ i Hfit Hk)
      as (v & Hv & c' & e' & Hin' & Hc' & He' & Hcr' & Hkey & ->).
    exists c', e'. repeat (split; [done|]). split; [|done].
    apply elem_of_cubes in Hin, Hin'.
    apply KeyFacts.key_same_corners; try done;
      unfold fits_key; KeyFacts.pow_lia. }
  destruct (run_invariant g iso max_z (cubes g)) as (H1 & H2 & H3 & _ & H5).
  done.
Qed.

(** *** The cutoff *)







End WithLibm.

End WithTables.

Lemma vertex_welding_witness :
  let g := Examples.octahedron_grid in
  (exists c1 c2, c1 ∈ cubes g /\ c2 ∈ cubes g /\
     share_crossed_edge (tables := Examples.tables) g 0 Float.FLT_MAX c1 c2) /\
  edge_vertex (tables := Examples.tables) g 0
    (run (tables := Examples.tables) g 0 Float.FLT_MAX []) (0, 0, 0) 5
  = edge_vertex (tables := Examples.tables) g 0
      (run (tables := Examples.tables) g 0 Float.FLT_MAX [(0, 0, 0)])
      (1, 0, 0) 7 /\
  (length (vertices (extract_surface (libm := Examples.libm)
                       (tables := Examples.tables) g 0 Float.FLT_MAX))
   < 12 * cubes_processed (march (tables := Examples.tables) g 0 Float.FLT_MAX))%nat.
Proof.
  intros g.
  assert (same_corners (edge_corners 0 0 0 5) (edge_corners 1 0 0 7)) as Hsame
    by (right; split; reflexivity).
  assert (exists c1 c2, c1 ∈ cubes g /\ c2 ∈ cubes g /\
     share_crossed_edge (tables := Examples.tables) g 0 Float.FLT_MAX c1 c2) as H.
  { exists (0, 0, 0), (1, 0, 0).
    split; [apply elem_of_cubes; cbn; lia|].
    split; [apply elem_of_cubes; cbn; lia|].
    split; [discriminate|]. split; [reflexivity|]. split; [reflexivity|].
    exists 5, 7. split; [lia|]. split; [lia|].
    split; [reflexivity|]. split; [reflexivity|]. exact Hsame. }
  pose proof (vertex_welding (libm := Examples.libm) (tables := Examples.tables)
                g 0 Float.FLT_MAX)
    as (_ & _ & Hreuse & _ & _ & _ & _ & _ & Hless).
  split; [exact H|]. split; [|exact (Hless H)].
  exact (Hreuse [] (0, 0, 0)
           [(1, 0, 0); (0, 1, 0); (1, 1, 0); (0, 0, 1); (1, 0, 1); (0, 1, 1);
            (1, 1, 1)] 5
           [(0, 0, 0)] (1, 0, 0)
           [(0, 1, 0); (1, 1, 0); (0, 0, 1); (1, 0, 1); (0, 1, 1); (1, 1, 1)] 7
           eq_refl eq_refl eq_refl eq_refl ltac:(lia) ltac:(lia)
           eq_refl eq_refl Hsame).
Defined.

(** The octahedron: eight crossing cubes, six welded vertices, eight
    triangles. *)
Example octahedron_counts :
  let st := march (tables := Examples.tables)
              Examples.octahedron_grid 0 Float.FLT_MAX in
  cubes_processed st = 8%nat /\
  length (vertices (mc_mesh st)) = 6%nat /\
  triangles_generated st = 8%nat /\
  indices (mc_mesh st)
  = [2; 1; 0; 0; 3; 2; 2; 4; 1; 3; 4; 2; 0; 1; 5; 0; 5; 3; 1; 4; 5; 3; 5; 4].
Proof. vm_compute. repeat split. Qed.

(** The octahedron under a cutoff.  At [max_z = 1] the cubes that start at
    [z = 1] are kept, and the top vertex sits almost half a voxel above the
    cutoff; just below, at [max_z = 0.99], those cubes are skipped and no
    vertex is above [z = 1]. *)
Example octahedron_cutoff :
  let verts (max_z : Q) :=
    vertices (mc_mesh (march (tables := Examples.tables)
                         Examples.octahedron_grid 0 max_z)) in
  let above (h : Q) (v : fvec3) :=
    match v with Some p => Float.ltb h (vz p) | None => false end in
  existsb (above (1 + (49 # 100))%Q) (verts 1%Q) = true /\
  forallb (fun v => negb (above 1%Q v)) (verts (99 # 100)) = true /\
  length (verts 1%Q) = 6%nat /\
  length (verts (99 # 100)) = 5%nat.
Proof. vm_compute. repeat split. Qed.


End SurfaceFacts.

(** * Further properties *)

(** ** Dense voxel grid: storage *)

Module DenseMore.
Import Dense.

(** For an in-range coordinate of a grid of resolution at most 1290, no
    step of the [int] expression of [index] leaves [int]. *)
Lemma index_steps_fit g x y z :
  resolution_ g <= 1290 -> in_range g x y z ->
  Forall fits_int (index_steps g x y z).
Proof.
  intros Hres (Hx & Hy & Hz). unfold index_steps, fits_int.
  set (r := resolution_ g) in *.
  change (2 ^ 31) with 2147483648.
  assert (0 <= z * r <= 1289 * 1290) by nia.
  assert (0 <= z * r * r <= 1289 * 1290 * 1290) by nia.
  assert (0 <= y * r <= 1289 * 1290) by nia.
  repeat constructor; lia.
Qed.

(** From resolution 1291 on, the expression overflows at the top layer. *)
Example index_overflows_at_1291 :
  let g := MkDense 1291 (MkAABB (Vec3 0 0 0) (Vec3 1 1 1)) 1 [] in
  in_range g 0 0 1290 /\ ~ Forall fits_int (index_steps g 0 0 1290).
Proof.
  intros g. split; [unfold in_range; cbn; lia|].
  intros H. apply Forall_cons in H as [_ H]. apply Forall_cons in H as [H _].
  unfold fits_int in H. vm_compute in H. destruct H as [_ H]. discriminate.
Qed.

(** X1: in a grid of resolution at most 1290 with the constructor's size
    invariant, the [int] expression of [index] does not overflow on an
    in-range coordinate; the index addresses an existing element of the
    vector, and no other in-range coordinate has the same index. *)
Theorem flat_index_safe g x y z :
  wf g -> resolution_ g <= 1290 -> in_range g x y z ->
  Forall fits_int (index_steps g x y z) /\
  is_Some (data_ g !! Z.to_nat (index g x y z)) /\
  0 <= index g x y z /\
  (forall x' y' z', in_range g x' y' z' ->
     index g x' y' z' = index g x y z -> (x', y', z') = (x, y, z)).
Proof.
  intros Hwf Hres Hin. split; [by apply index_steps_fit|]. split; [|split].
  - apply lookup_lt_is_Some. by apply DenseFacts.index_in_range.
  - unfold in_range, index in *. nia.
  - intros x' y' z' Hin' E.
    destruct (DenseFacts.index_inj g x' y' z' x y z Hin' Hin E) as (-> & -> & ->).
    done.
Qed.

Lemma flat_index_safe_witness :
  let g := Examples.example_grid in
  wf g /\ resolution_ g <= 1290 /\ in_range g 7 0 3 /\
  is_Some (data_ g !! Z.to_nat (index g 7 0 3)).
Proof.
  intros g.
  assert (wf g) as Hwf by (split; [by vm_compute | reflexivity]).
  assert (resolution_ g <= 1290) as Hres by (by vm_compute).
  assert (in_range g 7 0 3) as Hin by (unfold in_range; simpl; lia).
  split; [exact Hwf|]. split; [exact Hres|]. split; [exact Hin|].
  exact (proj1 (proj2 (flat_index_safe g 7 0 3 Hwf Hres Hin))).
Defined.

(** At resolution [2^22] the [size_t] product is [2^66], which wraps to
    zero: the constructor allocates nothing. *)
Example make_wraps :
  length (data_ (make (2 ^ 22) (MkAABB (Vec3 0 0 0) (Vec3 1 1 1)))) = 0%nat.
Proof. reflexivity. Qed.

(** X2: for a resolution from 0 to 1290 (where the [size_t] product does
    not wrap and the grid can be indexed), the constructor, when its
    allocation succeeds, establishes the size invariant, stores the
    far-outside sentinel in every cell, and [memory_usage] is four bytes
    per cell. *)
Theorem make_initial resolution bounds :
  0 <= resolution <= 1290 ->
  let g := make resolution bounds in
  wf g /\
  (forall x y z, in_range g x y z ->
     data_ g !! Z.to_nat (index g x y z) = Some Float.FLT_MAX) /\
  Z.of_nat (dense_memory_usage g) = 4 * (resolution * resolution * resolution).
Proof.
  intros Hr g.
  assert (0 <= resolution <= 2 ^ 21) as Hr'
    by (change (2 ^ 21) with 2097152; lia).
  pose proof (DenseFacts.make_wf resolution bounds Hr') as Hwf.
  split; [exact Hwf|]. split.
  - intros x y z Hin.
    pose proof (DenseFacts.index_in_range g x y z Hwf Hin) as Hlt.
    unfold g, make in *. cbn [data_ resolution_ index] in *.
    rewrite length_replicate in Hlt.
    by apply lookup_replicate_2.
  - unfold dense_memory_usage, g, make. cbn [data_].
    rewrite length_replicate, DenseFacts.total_voxels_exact by done. nia.
Qed.

Lemma make_initial_witness :
  0 <= 8 <= 1290 /\ wf (make 8 (MkAABB (Vec3 0 0 0) (Vec3 7 7 7))).
Proof.
  assert (0 <= 8 <= 1290) as H by lia. split; [exact H|].
  exact (proj1 (make_initial 8 (MkAABB (Vec3 0 0 0) (Vec3 7 7 7)) H)).
Defined.

(** X3: in a grid of resolution at most 1290 (where [index] does not
    overflow), writing an in-range cell and reading any coordinate back
    gives the written value at that cell and the old value everywhere
    else, and the size invariant is kept. *)
Theorem get_after_set g x y z v x' y' z' :
  wf g -> resolution_ g <= 1290 -> in_range g x y z ->
  get (set g x y z v) x' y' z'
  = (if decide ((x', y', z') = (x, y, z)) then v else get g x' y' z') /\
  wf (set g x y z v).
Proof.
  intros Hwf _ Hin. split.
  - case_decide as E.
    + injection E as -> -> ->. by apply DenseFacts.get_set_eq.
    + by apply DenseFacts.get_set_ne.
  - eapply DenseFacts.same_shape_wf; [apply DenseFacts.set_same_shape | done].
Qed.

Lemma get_after_set_witness :
  let g := Examples.example_grid in
  wf g /\ resolution_ g <= 1290 /\ in_range g 1 2 3 /\
  get (set g 1 2 3 (5 # 4)) 1 2 3 = (5 # 4)%Q.
Proof.
  intros g.
  assert (wf g) as Hwf by (split; [by vm_compute | reflexivity]).
  assert (resolution_ g <= 1290) as Hres by (by vm_compute).
  assert (in_range g 1 2 3) as Hin by (unfold in_range; simpl; lia).
  split; [exact Hwf|]. split; [exact Hres|]. split; [exact Hin|].
  exact (proj1 (get_after_set g 1 2 3 (5 # 4) 1 2 3 Hwf Hres Hin)).
Defined.

(** X4: in a grid of resolution at most 1290, after [fill] every in-range
    cell reads the fill value, every other coordinate still reads the
    sentinel, and resolution, bounds, voxel size and vector length are
    unchanged. *)
Theorem get_after_fill g value x y z :
  wf g -> resolution_ g <= 1290 ->
  get (fill g value) x y z
  = (if in_bounds g x y z then value else Float.FLT_MAX) /\
  same_shape g (fill g value) /\ wf (fill g value).
Proof.
  intros Hwf _.
  assert (same_shape g (fill g value)) as Hshape.
  { unfold same_shape, fill. simpl. by rewrite length_replicate. }
  split; [|split; [exact Hshape | by eapply DenseFacts.same_shape_wf]].
  unfold get. change (in_bounds (fill g value) x y z) with (in_bounds g x y z).
  destruct (in_bounds g x y z) eqn:E; [|done]. simpl.
  apply DenseFacts.in_bounds_true in E.
  pose proof (DenseFacts.index_in_range g x y z Hwf E) as Hlt.
  unfold at_index, fill. simpl.
  change (index {| resolution_ := resolution_ g; bounds_ := bounds_ g;
                   voxel_size_ := voxel_size_ g;
                   data_ := replicate (length (data_ g)) value |} x y z)
    with (index g x y z).
  by rewrite lookup_replicate_2.
Qed.

Lemma get_after_fill_witness :
  let g := Examples.example_grid in
  wf g /\ resolution_ g <= 1290 /\
  get (fill g 10) 1 2 3 = 10%Q /\ get (fill g 10) 8 0 0 = Float.FLT_MAX.
Proof.
  intros g.
  assert (wf g) as Hwf by (split; [by vm_compute | reflexivity]).
  assert (resolution_ g <= 1290) as Hres by (by vm_compute).
  split; [exact Hwf|]. split; [exact Hres|]. split.
  - exact (proj1 (get_after_fill g 10 1 2 3 Hwf Hres)).
  - exact (proj1 (get_after_fill g 10 8 0 0 Hwf Hres)).
Defined.

End DenseMore.

(** ** The rasterizer: blending, distances and the segment loop *)

Module BlendMore.
Import Builder.

(** The blending weight [h] is between 0 and 1. *)
Lemma blend_weight a b k :
  (0 < k)%Q ->
  (0 <= Float.max (k - Float.abs (a - b)) 0 / k <= 1)%Q.
Proof.
  intros Hk. set (m := Float.max (k - Float.abs (a - b)) 0).
  assert (0 <= m)%Q as Hm0 by apply FloatFacts.max_spec.
  assert (m <= k)%Q as Hmk.
  { apply FloatFacts.max_lub; [|lra].
    pose proof (Qabs_nonneg (a - b)). unfold Float.abs. lra. }
  split.
  - apply Qle_shift_div_l; lra.
  - apply Qle_shift_div_r; lra.
Qed.

Lemma smooth_min_le_l a b k : (0 < k)%Q -> (smooth_min a b k <= a)%Q.
Proof.
  intros Hk. unfold smooth_min.
  pose proof (blend_weight a b k Hk) as [H0 H1].
  set (h := (Float.max (k - Float.abs (a - b)) 0 / k)%Q) in *.
  pose proof (FloatFacts.min_spec a b) as [Ha _].
  assert (0 <= h * h * k * Float.lit_0_25)%Q by (unfold Float.lit_0_25; nra).
  lra.
Qed.

(** X9: the blend takes off at most a quarter of the smoothing radius:
    for [k > 0], [min(a,b) - k/4 <= smooth_min a b k]. *)
Theorem smooth_min_lower_bound a b k :
  (0 < k)%Q -> (Qmin a b - k / 4 <= smooth_min a b k)%Q.
Proof.
  intros Hk. unfold smooth_min.
  pose proof (blend_weight a b k Hk) as [H0 H1].
  set (h := (Float.max (k - Float.abs (a - b)) 0 / k)%Q) in *.
  rewrite RasterFacts.float_min_Qmin. unfold Float.lit_0_25.
  assert (h * h <= 1)%Q by nra.
  assert (k / 4 == k * (1 # 4))%Q as -> by field.
  nra.
Qed.

Lemma smooth_min_lower_bound_witness :
  (0 < 1 # 2)%Q /\
  (Qmin 3 3 - (1 # 2) / 4 <= smooth_min 3 3 (1 # 2))%Q.
Proof.
  assert (0 < 1 # 2)%Q as H by reflexivity.
  split; [exact H|]. exact (smooth_min_lower_bound 3 3 (1 # 2) H).
Defined.

(** X10: values at least [k] apart are not blended: for [k > 0] and
    [k <= |a - b|], [smooth_min a b k] equals [min(a,b)]. *)
Theorem smooth_min_far_apart a b k :
  (0 < k)%Q -> (k <= Qabs (a - b))%Q -> (smooth_min a b k == Qmin a b)%Q.
Proof.
  intros Hk Hfar. unfold smooth_min.
  assert (Float.max (k - Float.abs (a - b)) 0 == 0)%Q as Hm.
  { unfold Float.max, Float.abs.
    destruct (Float.ltb (k - Qabs (a - b)) 0) eqn:E; [reflexivity|].
    apply FloatFacts.ltb_ge in E. lra. }
  rewrite RasterFacts.float_min_Qmin.
  set (m := Float.max (k - Float.abs (a - b)) 0) in *.
  assert (m / k == 0)%Q as -> by (rewrite Hm; field; lra).
  ring.
Qed.

Lemma smooth_min_far_apart_witness :
  (0 < 1 # 4)%Q /\ (1 # 4 <= Qabs (Float.FLT_MAX - (11 # 8)))%Q /\
  (smooth_min Float.FLT_MAX (11 # 8) (1 # 4) == Qmin Float.FLT_MAX (11 # 8))%Q.
Proof.
  assert (0 < 1 # 4)%Q as H by reflexivity.
  assert (1 # 4 <= Qabs (Float.FLT_MAX - (11 # 8)))%Q as H' by discriminate.
  split; [exact H|]. split; [exact H'|].
  exact (smooth_min_far_apart Float.FLT_MAX (11 # 8) (1 # 4) H H').
Defined.

(** X11: the blend does not depend on the order of its two values. *)
Theorem smooth_min_comm a b k : (smooth_min a b k == smooth_min b a k)%Q.
Proof.
  unfold smooth_min, Float.abs.
  rewrite !RasterFacts.float_min_Qmin, !RasterFacts.float_max_Qmax.
  rewrite (Q.min_comm b a).
  rewrite (Qabs_Qminus b a). reflexivity.
Qed.

Section WithLibm.
Context {libm : Libm}.

(** X12: the radius enters the capsule distance as an offset only, and
    with a square root that is never negative the distance is never below
    [-radius]. *)
Theorem capsule_sdf_radius point start end_ radius :
  (forall q, 0 <= sqrtf q)%Q ->
  (capsule_sdf point start end_ radius
   == capsule_sdf point start end_ 0 - radius)%Q /\
  (- radius <= capsule_sdf point start end_ radius)%Q.
Proof.
  intros Hsqrt. unfold capsule_sdf, GlmLen.distance, GlmLen.length.
  destruct (Float.ltb _ _); cbv zeta.
  - pose proof (Hsqrt (Glm.dot (Glm.sub start point) (Glm.sub start point))).
    split; [ring | lra].
  - set (closest := Glm.add start _).
    pose proof (Hsqrt (Glm.dot (Glm.sub closest point) (Glm.sub closest point))).
    split; [ring | lra].
Qed.

(** Rasterizing one voxel never raises a value. *)
Lemma rasterize_voxel_le seg r k g x y z x' y' z' :
  Dense.wf g -> (0 < k)%Q ->
  (Dense.get (rasterize_voxel seg r k g x y z) x' y' z'
   <= Dense.get g x' y' z')%Q.
Proof.
  intros Hwf Hk. unfold rasterize_voxel.
  destruct (decide ((x', y', z') = (x, y, z))) as [E|E].
  - injection E as -> -> ->.
    destruct (Dense.in_bounds g x y z) eqn:Hin.
    + apply DenseFacts.in_bounds_true in Hin.
      rewrite DenseFacts.get_set_eq by done. by apply smooth_min_le_l.
    + unfold Dense.set. rewrite Hin. lra.
  - rewrite DenseFacts.get_set_ne by done. lra.
Qed.

Lemma rasterize_segment_le seg r k R g x y z :
  Dense.wf g -> (0 < k)%Q ->
  (Dense.get (rasterize_segment seg r k R g) x y z <= Dense.get g x y z)%Q.
Proof.
  intros Hwf Hk. unfold rasterize_segment.
  destruct (voxel_box g seg R) as [lo hi].
  apply (LoopFacts.for3_invariant
           (fun g' => Dense.wf g' /\
                      (Dense.get g' x y z <= Dense.get g x y z)%Q)).
  - split; [done | lra].
  - intros g' x' y' z' _ _ _ [Hwf' Hle]. split.
    + eapply DenseFacts.same_shape_wf;
        [apply RasterFacts.rasterize_voxel_same_shape | done].
    + pose proof (rasterize_voxel_le seg r k g' x' y' z' x y z Hwf' Hk). lra.
Qed.

(** X13: rasterization only ever lowers values: after [generate_sdf] with
    a positive smoothing radius, every coordinate reads at most what it
    read before. *)
Theorem generate_sdf_lowers g segs r k x y z :
  Dense.wf g -> (0 < k)%Q ->
  (Dense.get (sdf_grid (generate_sdf g segs r k)) x y z <= Dense.get g x y z)%Q.
Proof.
  intros Hwf Hk. unfold generate_sdf.
  apply (LoopFacts.fold_left_invariant
           (fun st => Dense.wf (sdf_grid st) /\
                      (Dense.get (sdf_grid st) x y z <= Dense.get g x y z)%Q)).
  - simpl. split; [done | lra].
  - intros st seg _ [Hwf' Hle]. split.
    + eapply DenseFacts.same_shape_wf;
        [apply RasterFacts.process_segment_same_shape | done].
    + rewrite BuilderFacts.process_segment_grid.
      destruct (segment_fate seg); try done.
      pose proof (rasterize_segment_le seg r k
                    (r + k + voxel_size_ g) (sdf_grid st) x y z Hwf' Hk). lra.
Qed.

Lemma generate_sdf_grid_unchanged g segs r k :
  (forall seg, seg ∈ segs -> segment_fate seg <> Rasterized) ->
  sdf_grid (generate_sdf g segs r k) = g.
Proof.
  intros Hnone. unfold generate_sdf.
  apply (LoopFacts.fold_left_invariant (fun st => sdf_grid st = g)); [done|].
  intros st seg Hin <-. rewrite BuilderFacts.process_segment_grid.
  specialize (Hnone seg Hin). by destruct (segment_fate seg).
Qed.

(** X14: when no segment of the list is rasterized (an empty list, travel
    moves, filtered features), [generate_sdf] returns the grid it was given
    and counts no processed segment. *)
Theorem generate_sdf_nothing_to_do g segs r k :
  (forall seg, seg ∈ segs -> segment_fate seg <> Rasterized) ->
  sdf_grid (generate_sdf g segs r k) = g /\
  segments_processed (generate_sdf g segs r k) = 0%nat.
Proof.
  intros Hnone. split; [by apply generate_sdf_grid_unchanged|].
  rewrite (proj1 (BuildFacts.generate_sdf_counters g segs r k)).
  unfold count_fate. induction segs as [|s segs IH]; [done|].
  rewrite filter_cons_False by (apply Hnone; left).
  apply IH. intros seg Hin. apply Hnone. by right.
Qed.

(** X15: every segment is counted once: processed, filtered and travel
    segments add up to the length of the list. *)
Theorem generate_sdf_counts_all g segs r k :
  (segments_processed (generate_sdf g segs r k)
   + segments_filtered (generate_sdf g segs r k)
   + count_fate Travel segs)%nat = length segs.
Proof.
  destruct (BuildFacts.generate_sdf_counters g segs r k) as [-> ->].
  unfold count_fate. induction segs as [|s segs IH]; [done|].
  rewrite !filter_cons. simpl length.
  destruct (segment_fate s); repeat case_decide; try discriminate;
    try done; simpl; lia.
Qed.

End WithLibm.

Lemma sqrt_floor_nonneg q : (0 <= Examples.sqrt_floor q)%Q.
Proof.
  unfold Examples.sqrt_floor, Qle. simpl.
  pose proof (Z.sqrt_nonneg (Qnum q * Z.pos (Qden q))). lia.
Qed.

Lemma capsule_sdf_radius_witness :
  (forall q, 0 <= sqrtf (Libm := Examples.libm) q)%Q /\
  (- (1 # 8) <= capsule_sdf (libm := Examples.libm) (Vec3 2 3 3)
                  (Vec3 (7 # 2) 3 3) (Vec3 (7 # 2) 3 5) (1 # 8))%Q.
Proof.
  split; [exact sqrt_floor_nonneg|].
  exact (proj2 (capsule_sdf_radius (libm := Examples.libm) (Vec3 2 3 3)
                  (Vec3 (7 # 2) 3 3) (Vec3 (7 # 2) 3 5) (1 # 8)
                  sqrt_floor_nonneg)).
Defined.

(** The capsule distance of the example segment at the cell [(2, 3, 3)]:
    1.5 from the axis, less the radius. *)
Example capsule_sdf_example :
  (capsule_sdf (libm := Examples.libm) (Vec3 2 3 3)
     (Vec3 (7 # 2) 3 3) (Vec3 (7 # 2) 3 5) (1 # 8) == 11 # 8)%Q.
Proof. reflexivity. Qed.

Lemma generate_sdf_lowers_witness :
  let g := Examples.example_grid in
  Dense.wf g /\ (0 < 1 # 4)%Q /\
  (Dense.get (sdf_grid (generate_sdf (libm := Examples.libm) g
                          [Examples.example_segment] (1 # 8) (1 # 4))) 3 3 3
   <= Dense.get g 3 3 3)%Q.
Proof.
  intros g.
  assert (Dense.wf g) as Hwf by (split; [by vm_compute | reflexivity]).
  assert (0 < 1 # 4)%Q as Hk by reflexivity.
  split; [exact Hwf|]. split; [exact Hk|].
  exact (generate_sdf_lowers (libm := Examples.libm) g
           [Examples.example_segment] (1 # 8) (1 # 4) 3 3 3 Hwf Hk).
Defined.

Lemma generate_sdf_nothing_to_do_witness :
  let segs := [Examples.infill_segment; Examples.travel_segment] in
  (forall seg, seg ∈ segs -> segment_fate seg <> Rasterized) /\
  sdf_grid (generate_sdf (libm := Examples.libm) Examples.example_grid segs
              (1 # 8) (1 # 4)) = Examples.example_grid.
Proof.
  intros segs.
  assert (forall seg, seg ∈ segs -> segment_fate seg <> Rasterized) as H.
  { intros seg Hin. unfold segs in Hin.
    apply elem_of_cons in Hin as [->|Hin]; [discriminate|].
    apply list_elem_of_singleton in Hin as ->. discriminate. }
  split; [exact H|].
  exact (proj1 (generate_sdf_nothing_to_do (libm := Examples.libm)
                  Examples.example_grid segs (1 # 8) (1 # 4) H)).
Defined.

End BlendMore.

(** ** Marching cubes: the cube index and the edge keys *)

Module KeyMore.
Import MC KeyFacts.

Lemma cube_index_nonneg values iso : 0 <= cube_index values iso.
Proof.
  unfold cube_index.
  apply (LoopFacts.fold_left_invariant (fun idx => 0 <= idx)); [lia|].
  intros idx i Hi Hidx. apply LoopFacts.elem_of_range in Hi.
  destruct (Float.ltb _ _); [|done].
  apply Z.lor_nonneg. split; [done|]. apply Z.shiftl_nonneg. lia.
Qed.

Lemma cube_index_high_bits values iso i :
  8 <= i -> Z.testbit (cube_index values iso) i = false.
Proof.
  intros Hi. unfold cube_index. rewrite MarchFacts.classify_testbit.
  - rewrite Z.testbit_0_l, orb_false_r.
    rewrite bool_decide_eq_false_2; [done|].
    rewrite LoopFacts.elem_of_range. lia.
  - lia.
  - intros j Hj. apply LoopFacts.elem_of_range in Hj. lia.
Qed.

Lemma cube_index_full values iso :
  (forall i, 0 <= i < 8 -> Float.ltb (nthZ 0%Q values i) iso = true) ->
  cube_index values iso = 255.
Proof.
  intros Hall. change 255 with (Z.ones 8). apply Z.bits_inj'. intros n Hn.
  destruct (Z.lt_ge_cases n 8).
  - rewrite Z.ones_spec_low by lia.
    rewrite MarchFacts.cube_index_testbit by lia. apply Hall. lia.
  - rewrite Z.ones_spec_high by lia. by apply cube_index_high_bits.
Qed.

(** X16: the cube index is a valid position in the 256-entry tables; it is
    0 exactly when no corner is below the iso-value and 255 exactly when
    all eight are, so the cubes that pass the test are those whose corners
    lie on both sides. *)
Theorem cube_index_range values iso :
  0 <= cube_index values iso < 256 /\
  (cube_index values iso = 0
   <-> forall i, 0 <= i < 8 -> Float.ltb (nthZ 0%Q values i) iso = false) /\
  (cube_index values iso = 255
   <-> forall i, 0 <= i < 8 -> Float.ltb (nthZ 0%Q values i) iso = true).
Proof.
  pose proof (cube_index_nonneg values iso) as Hnn.
  assert (cube_index values iso = cube_index values iso mod 2 ^ 8) as Hmod.
  { apply Z.bits_inj'. intros n Hn.
    destruct (Z.lt_ge_cases n 8).
    - by rewrite Z.mod_pow2_bits_low by lia.
    - rewrite Z.mod_pow2_bits_high by lia.
      by apply cube_index_high_bits. }
  split; [|split].
  - pose proof (Z.mod_pos_bound (cube_index values iso) (2 ^ 8)). pow_lia.
  - split.
    + intros H0 i Hi. rewrite <- MarchFacts.cube_index_testbit by done.
      rewrite H0. apply Z.testbit_0_l.
    + apply MarchFacts.cube_index_zero.
  - split.
    + intros H255 i Hi. rewrite <- MarchFacts.cube_index_testbit by done.
      rewrite H255. change 255 with (Z.ones 8).
      apply Z.ones_spec_low. lia.
    + apply cube_index_full.
Qed.

(** X17: for cubes whose coordinates fit the 14-bit fields of the key (all
    grids up to resolution 16384, so every grid [build] can allocate), two
    edges get the same key only if they join the same two corners: welding
    never merges distinct edges. *)
Theorem edge_key_injective x1 y1 z1 e1 x2 y2 z2 e2 :
  fits_key x1 y1 z1 -> fits_key x2 y2 z2 -> 0 <= e1 < 12 -> 0 <= e2 < 12 ->
  edge_key_of x1 y1 z1 e1 = edge_key_of x2 y2 z2 e2 ->
  same_corners (edge_corners x1 y1 z1 e1) (edge_corners x2 y2 z2 e2).
Proof.
  intros H1 H2 He1 He2.
  destruct (oriented_edge x1 y1 z1 e1 H1 He1)
    as (m & a & Ha & Hmx & Hmy & Hmz & -> & Ho).
  destruct (oriented_edge x2 y2 z2 e2 H2 He2)
    as (m' & a' & Ha' & Hmx' & Hmy' & Hmz' & -> & Ho').
  intros Hkey. apply key_code_inj in Hkey as [-> ->]; try done.
  unfold same_corners.
  destruct Ho as [-> | ->], Ho' as [-> | ->]; cbn [fst snd]; tauto.
Qed.

Lemma edge_key_injective_witness :
  fits_key 0 0 0 /\ fits_key 1 0 0 /\
  edge_key_of 0 0 0 5 = edge_key_of 1 0 0 7 /\
  same_corners (edge_corners 0 0 0 5) (edge_corners 1 0 0 7).
Proof.
  assert (fits_key 0 0 0) as H1 by (unfold fits_key; pow_lia).
  assert (fits_key 1 0 0) as H2 by (unfold fits_key; pow_lia).
  assert (edge_key_of 0 0 0 5 = edge_key_of 1 0 0 7) as Hk by reflexivity.
  split; [exact H1|]. split; [exact H2|]. split; [exact Hk|].
  exact (edge_key_injective 0 0 0 5 1 0 0 7 H1 H2
           ltac:(lia) ltac:(lia) Hk).
Defined.

End KeyMore.

(** ** Marching cubes: the shape of the mesh *)

Module MeshMore.
Import MC ExtractFacts.

Lemma nthZ_insert {A : Type} (d : A) (l : list A) (e e' : Z) (v : A) :
  0 <= e -> 0 <= e' -> (Z.to_nat e < length l)%nat ->
  nthZ d (<[Z.to_nat e := v]> l) e' = if decide (e' = e) then v else nthZ d l e'.
Proof.
  intros He He' Hlen. unfold nthZ. rewrite !nth_lookup.
  case_decide as E.
  - subst. by rewrite list_lookup_insert_eq.
  - rewrite list_lookup_insert_ne by lia. done.
Qed.

Section EdgeLoop.
Variables (values : list Q) (positions : list vec3) (iso : Q) (x y z flags : Z).

Local Abbreviation step := (edge_step values positions iso x y z flags).
Local Abbreviation flagged e := ((Z.land flags (Z.shiftl 1 e) =? 0) = false).

(** The state of the edge loop once the edges of [done] are behind it:
    the two vertex arrays in step, cached numbers naming existing vertices,
    and so do the slots of the crossed edges of [done]. *)
Local Abbreviation inv es done :=
  (length (es_normals es) = length (es_vertices es) /\
   length (edge_vertices es) = 12%nat /\
   (forall k v, es_cache es !! k = Some v ->
      0 <= v < Z.of_nat (length (es_vertices es))) /\
   (forall e', e' ∈ done -> 0 <= e' < 12 -> flagged e' ->
      0 <= nthZ 0 (edge_vertices es) e'
      < Z.of_nat (length (es_vertices es)))).

Lemma to_u32_le n : 0 <= n -> 0 <= to_u32 n <= n.
Proof.
  intros Hn. unfold to_u32.
  pose proof (Z.mod_pos_bound n (2 ^ 32) ltac:(done)).
  pose proof (Z.mod_le n (2 ^ 32) Hn ltac:(done)). lia.
Qed.

Lemma edge_step_inv es e (done : list Z) :
  0 <= e < 12 -> inv es done ->
  inv (step es e) (done ++ [e]) /\
  (length (es_vertices es) <= length (es_vertices (step es e)))%nat.
Proof.
  intros He (Hn & Hev & Hc & Hd). unfold edge_step.
  destruct (Z.land flags (Z.shiftl 1 e) =? 0) eqn:Hf; simpl.
  - split; [|lia]. split; [done|]. split; [done|]. split; [done|].
    intros e' Hin He' Hf'.
    apply elem_of_app in Hin as [Hin|Hin]; [by apply Hd|].
    apply list_elem_of_singleton in Hin as ->. congruence.
  - destruct (edge_connection e) as [c0 c1].
    destruct (edge_corners x y z e) as [k0 k1].
    destruct (es_cache es !! make_edge_key k0 k1) as [it|] eqn:Hk; simpl.
    + split; [|lia]. split; [done|]. split; [by rewrite length_insert|].
      split; [done|]. intros e' Hin He' Hf'.
      rewrite nthZ_insert by lia. case_decide; [by eapply Hc|].
      apply Hd; [|done..]. apply elem_of_app in Hin as [Hin|Hin]; [done|].
      by apply list_elem_of_singleton in Hin.
    + rewrite !length_app. simpl.
      pose proof (to_u32_le (Z.of_nat (length (es_vertices es))) ltac:(lia)).
      split; [|lia]. split; [lia|]. split; [by rewrite length_insert|]. split.
      * intros k v Hkv. destruct (decide (make_edge_key k0 k1 = k)) as [<-|Hne].
        -- rewrite lookup_insert_eq in Hkv. injection Hkv as <-. lia.
        -- rewrite lookup_insert_ne in Hkv by done.
           specialize (Hc k v Hkv). lia.
      * intros e' Hin He' Hf'. rewrite nthZ_insert by lia.
        case_decide; [lia|].
        assert (e' ∈ done) as Hin'.
        { apply elem_of_app in Hin as [Hin|Hin]; [done|].
          by apply list_elem_of_singleton in Hin. }
        specialize (Hd e' Hin' He' Hf'). lia.
Qed.

Lemma edge_loop_inv l es (done : list Z) :
  (forall e, e ∈ l -> 0 <= e < 12) -> inv es done ->
  inv (fold_left step l es) (done ++ l) /\
  (length (es_vertices es) <= length (es_vertices (fold_left step l es)))%nat.
Proof.
  revert es done. induction l as [|e l IH]; intros es done Hl Hinv.
  - rewrite app_nil_r. simpl. split; [done | lia].
  - simpl.
    destruct (edge_step_inv es e done (Hl e ltac:(left)) Hinv) as [Hinv' Hle].
    destruct (IH (step es e) (done ++ [e])
                (fun e' H => Hl e' ltac:(by right)) Hinv') as [Hinv'' Hle'].
    rewrite <- app_assoc in Hinv''. simpl in Hinv''. split; [done | lia].
Qed.

End EdgeLoop.

Section WithTables.
Context {tables : McTables}.

(** The state of the cube loops: arrays in step, whole triangles, and,
    when the tables agree, only numbers of existing vertices in the cache
    and in the index list. *)
Lemma march_shape g iso max_z :
  let st := march g iso max_z in
  length (normals (mc_mesh st)) = length (vertices (mc_mesh st)) /\
  length (indices (mc_mesh st)) = (3 * triangles_generated st)%nat /\
  (tables_agree tables ->
   (forall k v, vertex_cache st !! k = Some v ->
      0 <= v < Z.of_nat (length (vertices (mc_mesh st)))) /\
   forall i, i ∈ indices (mc_mesh st) ->
             0 <= i < Z.of_nat (length (vertices (mc_mesh st)))).
Proof.
  unfold march.
  apply (LoopFacts.for3_invariant
    (fun st =>
       length (normals (mc_mesh st)) = length (vertices (mc_mesh st)) /\
       length (indices (mc_mesh st)) = (3 * triangles_generated st)%nat /\
       (tables_agree tables ->
        (forall k v, vertex_cache st !! k = Some v ->
           0 <= v < Z.of_nat (length (vertices (mc_mesh st)))) /\
        forall i, i ∈ indices (mc_mesh st) ->
                  0 <= i < Z.of_nat (length (vertices (mc_mesh st)))))).
  - simpl. split; [done|]. split; [done|]. intros _. split.
    + intros k v Hkv. by rewrite lookup_empty in Hkv.
    + intros i Hi. by apply elem_of_nil in Hi.
  - intros st x y z _ _ _ (Hn & Hi & Hagree).
    destruct (crossing g iso max_z (x, y, z)) eqn:Hc.
    + pose proof (process_cube_mesh g iso max_z st (x, y, z) Hc) as Heq.
      cbn [fst snd] in Heq. cbv zeta in Heq. rewrite Heq. clear Heq.
      set (index := cube_index (corner_values g x y z) iso).
      set (es0 := {| es_vertices := vertices (mc_mesh st);
                     es_normals := normals (mc_mesh st);
                     es_cache := vertex_cache st;
                     edge_vertices := replicate 12 0 |}).
      set (es := fold_left _ (range 0 12) es0).
      destruct (emit_triangles_spec (triangle_table index) (edge_vertices es)
                  (indices (mc_mesh st), triangles_generated st))
        as (Hf & n & Hlen & Hs).
      cbn [fst snd] in *. cbn [mc_mesh vertices normals indices
                               triangles_generated vertex_cache].
      rewrite Hf, Hs, length_app, length_map, Hlen.
      assert (forall e, e ∈ range 0 12 -> 0 <= e < 12) as Hrange
        by (intros e He; apply LoopFacts.elem_of_range in He; lia).
      split; [|split; [lia|]].
      * (* the arrays stay in step whatever the tables say *)
        unfold es.
        apply (LoopFacts.fold_left_invariant
                 (fun es => length (es_normals es) = length (es_vertices es)));
          [done|].
        intros es' e _ Hes'. unfold edge_step.
        destruct (_ =? 0); [done|]. simpl.
        destruct (edge_connection e), (edge_corners x y z e).
        destruct (es_cache es' !! _); simpl; [done|].
        rewrite !length_app. simpl. lia.
      * intros Hag. destruct (Hagree Hag) as [Hcache Hidx].
        destruct (edge_loop_inv (corner_values g x y z)
                    (corner_positions g x y z) iso x y z (edge_table index)
                    (range 0 12) es0 [] Hrange)
          as [(_ & _ & Hcache' & Hev) Hle].
        { split; [done|]. split; [done|]. split; [done|].
          intros e' He'. by apply elem_of_nil in He'. }
        fold es in Hcache', Hev, Hle. split; [done|].
        intros i Hin. apply elem_of_app in Hin as [Hin|Hin].
        -- specialize (Hidx i Hin). simpl in Hle. lia.
        -- apply list_elem_of_fmap in Hin as (e & -> & He).
           destruct (Hag index e He) as [He12 Hfl].
           apply Hev; [|done..]. simpl. by apply LoopFacts.elem_of_range.
    + pose proof (process_cube_skip g iso max_z st (x, y, z) Hc) as Hskip.
      cbn [fst snd] in Hskip. by rewrite Hskip.
Qed.

Section WithLibm.
Context {libm : Libm}.

Lemma vertex_normals_length m : length (vertex_normals m) = length (normals m).
Proof.
  unfold vertex_normals. destruct (accumulate_normals _ _ _).
  apply length_imap.
Qed.

(** X18: whatever the case tables, the extracted mesh has one normal per
    vertex and an index list of whole triangles; its triangle count is
    the number of triangles the cube loops counted. *)
Theorem mesh_counts g iso max_z :
  let m := extract_surface g iso max_z in
  length (normals m) = length (vertices m) /\
  length (indices m) = (3 * Mesh.triangle_count m)%nat /\
  Mesh.triangle_count m = triangles_generated (march g iso max_z).
Proof.
  destruct (march_shape g iso max_z) as (Hn & Hi & _).
  unfold extract_surface, Mesh.triangle_count.
  cbn [vertices normals indices].
  rewrite vertex_normals_length, Hi.
  assert ((3 * triangles_generated (march g iso max_z)) / 3
          = triangles_generated (march g iso max_z))%nat as ->
    by (rewrite Nat.mul_comm; by apply Nat.div_mul).
  done.
Qed.

(** X19: when every edge named by a triangle row is one of the twelve and
    is marked in the edge table, the extracted mesh is well formed: every
    index names an existing vertex. *)
Theorem mesh_indices_valid g iso max_z :
  tables_agree tables -> mesh_well_formed (extract_surface g iso max_z).
Proof.
  intros Hag. destruct (march_shape g iso max_z) as (Hn & Hi & Hidx).
  unfold mesh_well_formed, extract_surface. cbn [vertices normals indices].
  rewrite vertex_normals_length. split; [done|]. split.
  - rewrite Hi, Nat.mul_comm. by apply Nat.Div0.mod_mul.
  - by apply Hidx.
Qed.

End WithLibm.

End WithTables.

Lemma example_tables_agree : tables_agree Examples.tables.
Proof.
  intros index e He. simpl in *. unfold Examples.one_corner_rows in He.
  repeat match type of He with
         | context [index =? ?n] => destruct (Z.eqb_spec index n) as [->|?]
         end;
    [..|by apply elem_of_nil in He];
    vm_compute in He;
    repeat (apply elem_of_cons in He as [->|He]; [by vm_compute|]);
    by apply elem_of_nil in He.
Qed.

Lemma mesh_indices_valid_witness :
  tables_agree Examples.tables /\
  mesh_well_formed (extract_surface (libm := Examples.libm)
                      (tables := Examples.tables)
                      Examples.octahedron_grid 0 Float.FLT_MAX).
Proof.
  split; [exact example_tables_agree|].
  exact (mesh_indices_valid (libm := Examples.libm) (tables := Examples.tables)
           Examples.octahedron_grid 0 Float.FLT_MAX example_tables_agree).
Defined.

End MeshMore.

(** ** Marching cubes and the orchestrator: when the mesh is empty, and
    the statistics *)

Module SurfaceMore.
Import MC ExtractFacts.

Section WithTables.
Context {tables : McTables}.

Local Abbreviation init :=
  {| mc_mesh := Mesh.empty_mesh; vertex_cache := ∅;
     cubes_processed := 0; triangles_generated := 0 |}.

(** The cube loops leave the state untouched when every cube of the loop
    range is skipped. *)
Lemma march_all_skipped g iso max_z :
  (forall x y z, 0 <= x < resolution_ g - 1 -> 0 <= y < resolution_ g - 1 ->
     0 <= z < resolution_ g - 1 -> crossing g iso max_z (x, y, z) = false) ->
  march g iso max_z = init.
Proof.
  intros Hskip. unfold march.
  apply (LoopFacts.for3_invariant (fun st => st = init)); [done|].
  intros st x y z Hx Hy Hz ->.
  apply LoopFacts.elem_of_range in Hx, Hy, Hz.
  apply (process_cube_skip g iso max_z init (x, y, z)).
  apply Hskip; lia.
Qed.

Section WithLibm.
Context {libm : Libm}.

Lemma extract_of_nothing g iso max_z :
  march g iso max_z = init -> extract_surface g iso max_z = Mesh.empty_mesh.
Proof. intros H. unfold extract_surface. rewrite H. reflexivity. Qed.

(** X21: a cutoff below the grid's lowest layer skips every cube: the
    mesh is empty. *)
Theorem cutoff_below_grid g iso max_z :
  (0 <= voxel_size_ g)%Q -> (max_z < vz (aabb_min (bounds_ g)))%Q ->
  extract_surface g iso max_z = Mesh.empty_mesh.
Proof.
  intros Hvs Hlow. apply extract_of_nothing, march_all_skipped.
  intros x y z Hx Hy Hz. unfold crossing. cbn [fst snd].
  assert (Float.ltb max_z (lowest_corner_z g x y z) = true) as ->; [|done].
  apply FloatFacts.ltb_lt. rewrite MarchFacts.lowest_corner_z_world.
  unfold Dense.voxel_to_world, Glm.add, Glm.scale, Glm.of_ivec, Float.of_int.
  cbn [vx vy vz ix iy iz].
  assert (0 <= inject_Z z)%Q
    by (change 0%Q with (inject_Z 0); rewrite <- Zle_Qle; lia).
  nra.
Qed.

(** No cube crosses the surface of a grid whose cells are all on one side
    of the iso-value. *)
Lemma march_one_sided g iso max_z :
  (forall x y z, in_range g x y z -> (iso <= Dense.get g x y z)%Q)
  \/ (forall x y z, in_range g x y z -> (Dense.get g x y z < iso)%Q) ->
  march g iso max_z = init.
Proof.
  intros Hside. apply march_all_skipped.
  intros x y z Hx Hy Hz. unfold crossing. cbn [fst snd].
  assert (forall i, 0 <= i < 8 ->
            exists x' y' z', in_range g x' y' z' /\
              nthZ 0%Q (corner_values g x y z) i = Dense.get g x' y' z')
    as Hcorner.
  { intros i Hi.
    destruct (MarchFacts.corner_value_get g x y z i Hi)
      as (dx & dy & dz & ? & ? & ? & E & _).
    exists (x + dx), (y + dy), (z + dz). split; [unfold in_range; lia | done]. }
  destruct Hside as [Habove | Hbelow].
  - rewrite MarchFacts.cube_index_zero; [apply andb_false_r|].
    intros i Hi. destruct (Hcorner i Hi) as (x' & y' & z' & Hin & ->).
    apply FloatFacts.ltb_ge. by apply Habove.
  - rewrite KeyMore.cube_index_full; [apply andb_false_r|].
    intros i Hi. destruct (Hcorner i Hi) as (x' & y' & z' & Hin & ->).
    apply FloatFacts.ltb_lt. by apply Hbelow.
Qed.

(** X22: a grid whose cells are all on one side of the iso-value (none
    below it, or all below it) has no crossing cube: the mesh is empty. *)
Theorem one_sided_grid_empty g iso max_z :
  (forall x y z, in_range g x y z -> (iso <= Dense.get g x y z)%Q)
  \/ (forall x y z, in_range g x y z -> (Dense.get g x y z < iso)%Q) ->
  extract_surface g iso max_z = Mesh.empty_mesh.
Proof. intros Hside. by apply extract_of_nothing, march_one_sided. Qed.

(** Every coordinate of a freshly constructed grid reads the sentinel. *)
Lemma get_make resolution bounds x y z :
  Dense.get (Dense.make resolution bounds) x y z = Float.FLT_MAX.
Proof.
  unfold Dense.get. destruct (Dense.in_bounds _ _ _ _); [|done]. simpl.
  unfold Dense.at_index. simpl.
  destruct (replicate _ _ !! _) eqn:E; [|done].
  by apply list_elem_of_lookup_2, elem_of_replicate in E as [-> _].
Qed.

(** X23: [build] on a toolpath none of whose segments is rasterized (no
    segments at all, only travel moves, only filtered features), with an
    iso-value not above the sentinel, returns the empty mesh and records
    zero vertices and zero triangles. *)
Theorem build_nothing_to_rasterize self gcode o :
  (forall seg, seg ∈ concat (map segments (layers gcode)) ->
     Builder.segment_fate seg <> Rasterized) ->
  (iso_value o <= Float.FLT_MAX)%Q ->
  (SDF.build self gcode o).1 = Mesh.empty_mesh /\
  output_vertices (SDF.last_stats (SDF.build self gcode o).2) = 0%nat /\
  output_triangles (SDF.last_stats (SDF.build self gcode o).2) = 0%nat /\
  output_mesh_bytes (SDF.last_stats (SDF.build self gcode o).2) = 0%nat.
Proof.
  intros Hnone Hiso.
  assert ((SDF.build self gcode o).1 = Mesh.empty_mesh) as Hmesh.
  { unfold SDF.build, SDF.build_grid. cbn [fst].
    rewrite BlendMore.generate_sdf_grid_unchanged by done.
    apply extract_of_nothing, march_one_sided. left. intros x y z _.
    by rewrite get_make. }
  split; [exact Hmesh|].
  unfold SDF.last_stats, SDF.build in *. cbn [fst snd stats_ output_vertices
    output_triangles output_mesh_bytes] in *.
  rewrite Hmesh. done.
Qed.

(** X24: the statistics [build] records describe what it returns and what
    it allocated: the vertex count and the triangle count are those of the
    mesh, the mesh bytes are 12 per vertex, 12 per normal and 4 per index,
    and the grid bytes are 4 per cell of the clamped resolution. *)
Theorem build_stats self gcode o :
  let mesh := (SDF.build self gcode o).1 in
  let stats := SDF.last_stats (SDF.build self gcode o).2 in
  let r := grid_resolution (Options.validate o) in
  output_vertices stats = length (vertices mesh) /\
  (3 * output_triangles stats)%nat = length (indices mesh) /\
  output_mesh_bytes stats
  = (24 * length (vertices mesh) + 4 * length (indices mesh))%nat /\
  Z.of_nat (voxel_grid_bytes stats) = 4 * (r * r * r) /\
  4 * (64 * 64 * 64) <= Z.of_nat (voxel_grid_bytes stats)
  <= 4 * (1024 * 1024 * 1024).
Proof.
  intros mesh stats r.
  assert (Z.of_nat (voxel_grid_bytes stats) = 4 * (r * r * r)) as Hbytes.
  { unfold stats, SDF.last_stats, SDF.build. cbn [snd stats_ voxel_grid_bytes].
    unfold dense_memory_usage, SDF.build_grid.
    destruct (RasterFacts.generate_sdf_same_shape
      (Dense.make (grid_resolution (Options.validate o))
                  (global_bounding_box gcode))
      (concat (map segments (layers gcode)))
      (segment_radius_mm (Options.validate o))
      (smoothing_radius (Options.validate o))) as (_ & _ & _ & ->).
    unfold Dense.make. cbn [data_]. rewrite length_replicate. fold r.
    pose proof (OptionsFacts.validate_resolution o). fold r in H.
    rewrite DenseFacts.total_voxels_exact
      by (change (2 ^ 21) with 2097152; lia).
    nia. }
  pose proof (MeshMore.march_shape
                (sdf_grid (SDF.build_grid gcode o))
                (iso_value (Options.validate o))
                (max_z_height (Options.validate o))) as (Hn & Hi & _).
  assert (length (normals mesh) = length (vertices mesh)) as Hnm.
  { unfold mesh, SDF.build, extract_surface. cbn [fst vertices normals].
    by rewrite MeshMore.vertex_normals_length. }
  assert (length (indices mesh)
          = (3 * triangles_generated
                   (march (sdf_grid (SDF.build_grid gcode o))
                          (iso_value (Options.validate o))
                          (max_z_height (Options.validate o))))%nat) as Him
    by exact Hi.
  split; [reflexivity|]. split; [|split; [|split; [exact Hbytes|]]].
  - change (output_triangles stats) with (Mesh.triangle_count mesh).
    unfold Mesh.triangle_count. rewrite Him.
    rewrite (Nat.mul_comm 3 (triangles_generated _)), Nat.div_mul by done. lia.
  - change (output_mesh_bytes stats) with (Mesh.memory_usage mesh).
    unfold Mesh.memory_usage. lia.
  - pose proof (OptionsFacts.validate_resolution o) as Hr. fold r in Hr.
    rewrite Hbytes. nia.
Qed.

End WithLibm.

End WithTables.

Lemma cutoff_below_grid_witness :
  let g := Examples.octahedron_grid in
  (0 <= voxel_size_ g)%Q /\ (-1 < vz (aabb_min (bounds_ g)))%Q /\
  extract_surface (libm := Examples.libm) (tables := Examples.tables) g 0 (-1)
  = Mesh.empty_mesh.
Proof.
  intros g. assert (0 <= voxel_size_ g)%Q as H by discriminate.
  assert (-1 < vz (aabb_min (bounds_ g)))%Q as H' by reflexivity.
  split; [exact H|]. split; [exact H'|].
  exact (cutoff_below_grid (libm := Examples.libm) (tables := Examples.tables)
           g 0 (-1) H H').
Defined.

Lemma one_sided_grid_empty_witness :
  let g := Examples.example_grid in
  (forall x y z, in_range g x y z -> (0 <= Dense.get g x y z)%Q) /\
  extract_surface (libm := Examples.libm) (tables := Examples.tables)
    g 0 Float.FLT_MAX = Mesh.empty_mesh.
Proof.
  intros g.
  assert (forall x y z, in_range g x y z -> (0 <= Dense.get g x y z)%Q) as H.
  { intros x y z _. unfold g, Examples.example_grid.
    rewrite get_make. discriminate. }
  split; [exact H|].
  exact (one_sided_grid_empty (libm := Examples.libm)
           (tables := Examples.tables) g 0 Float.FLT_MAX (or_introl H)).
Defined.

Lemma build_nothing_to_rasterize_witness :
  let gcode := Examples.toolpath [Examples.infill_segment;
                                  Examples.travel_segment] in
  (forall seg, seg ∈ concat (map segments (layers gcode)) ->
     Builder.segment_fate seg <> Rasterized) /\
  (iso_value Options.default <= Float.FLT_MAX)%Q /\
  (SDF.build (libm := Examples.libm) (tables := Examples.tables)
     (MkBuilder (MkStats 0 0 0 0 0)) gcode Options.default).1
  = Mesh.empty_mesh.
Proof.
  intros gcode.
  assert (forall seg, seg ∈ concat (map segments (layers gcode)) ->
            Builder.segment_fate seg <> Rasterized) as H.
  { intros seg Hin. cbn in Hin.
    apply elem_of_cons in Hin as [->|Hin]; [discriminate|].
    apply list_elem_of_singleton in Hin as ->. discriminate. }
  assert (iso_value Options.default <= Float.FLT_MAX)%Q as H' by discriminate.
  split; [exact H|]. split; [exact H'|].
  exact (proj1 (build_nothing_to_rasterize (libm := Examples.libm)
                  (tables := Examples.tables) (MkBuilder (MkStats 0 0 0 0 0))
                  gcode Options.default H H')).
Defined.

End SurfaceMore.

(** ** The sparse grid and the options, further *)

Module SparseMore.

(** What the converting constructor leaves behind: the grid's frame is
    the dense grid's, the pointer is set, and the tree reads as the loop
    filled it. *)
Lemma make_storage g :
  exists storage,
    nanovdb_grid_ (Sparse.make g) = Some storage /\
    sparse_resolution_ (Sparse.make g) = resolution_ g /\
    sparse_bounds_ (Sparse.make g) = bounds_ g /\
    sparse_voxel_size_ (Sparse.make g) = voxel_size_ g /\
    storage = {| nano_tree := (Sparse.convert g).1;
                 nano_background := Float.FLT_MAX |} /\
    forall x y z,
      Sparse.getValue storage x y z
      = if Dense.in_bounds g x y z
           && Float.ltb (Dense.get g x y z) Float.lit_10
        then Dense.get g x y z else Float.FLT_MAX.
Proof.
  pose proof (SparseFacts.make_tree g) as Htree.
  unfold Sparse.stored in Htree. unfold Sparse.make, Sparse.convert in *.
  destruct (for3 _ _ _ _ _) as [tree n]. cbn in *.
  eexists. split; [reflexivity|]. repeat split.
  intros x y z. unfold Sparse.getValue. cbn. rewrite Htree.
  by destruct (_ && _).
Qed.

Lemma clampi_id hi v :
  0 <= v <= hi -> (if v <? 0 then 0 else if hi <? v then hi else v) = v.
Proof.
  intros H. destruct (Z.ltb_spec v 0); [lia|].
  destruct (Z.ltb_spec hi v); lia.
Qed.

Lemma clampi_range hi v :
  0 <= hi -> 0 <= (if v <? 0 then 0 else if hi <? v then hi else v) <= hi.
Proof.
  intros H. destruct (Z.ltb_spec v 0); [lia|].
  destruct (Z.ltb_spec hi v); lia.
Qed.

Lemma NoDup_cells3 zs ys xs :
  NoDup zs -> NoDup ys -> NoDup xs -> NoDup (cells3 zs ys xs).
Proof.
  intros Hz Hy Hx. unfold cells3.
  apply NoDup_bind; [| |exact Hz].
  - intros z1 z2 c _ _ H1 H2.
    apply list_elem_of_bind in H1 as (y1 & H1 & _).
    apply list_elem_of_bind in H1 as (x1 & H1 & _).
    apply list_elem_of_singleton in H1.
    apply list_elem_of_bind in H2 as (y2 & H2 & _).
    apply list_elem_of_bind in H2 as (x2 & H2 & _).
    apply list_elem_of_singleton in H2. congruence.
  - intros z _. apply NoDup_bind; [| |exact Hy].
    + intros y1 y2 c _ _ H1 H2.
      apply list_elem_of_bind in H1 as (x1 & H1 & _).
      apply list_elem_of_singleton in H1.
      apply list_elem_of_bind in H2 as (x2 & H2 & _).
      apply list_elem_of_singleton in H2. congruence.
    + intros y _. apply NoDup_bind; [| |exact Hx].
      * intros x1 x2 c _ _ H1 H2.
        apply list_elem_of_singleton in H1, H2. congruence.
      * intros x _. apply NoDup_singleton.
Qed.

(** Copying cells that are pairwise distinct and not yet in the tree keeps
    the counter equal to the tree's size. *)
Lemma copy_voxels_count g (l : list (Z * Z * Z)) st :
  NoDup l -> (forall c, c ∈ l -> st.1 !! c = None) -> st.2 = size st.1 ->
  let st' := fold_left (fun s c => Sparse.copy_voxel g s c.1.1 c.1.2 c.2) l st in
  st'.2 = size st'.1.
Proof.
  revert st. induction l as [|c l IH]; intros st Hnd Hfresh Hsize; [done|].
  apply NoDup_cons in Hnd as [Hc Hnd]. cbn [fold_left].
  apply IH; [exact Hnd| |].
  - intros c' Hc'. unfold Sparse.copy_voxel.
    destruct (Float.ltb _ _); cbn [fst].
    + rewrite lookup_insert_ne.
      * apply Hfresh. by right.
      * destruct c as [[x y] z]. cbn. intros <-. contradiction.
    + apply Hfresh. by right.
  - unfold Sparse.copy_voxel. destruct (Float.ltb _ _); cbn [fst snd].
    + rewrite map_size_insert_None.
      * by rewrite Hsize.
      * destruct c as [[x y] z]. cbn. apply Hfresh. by left.
    + exact Hsize.
Qed.

Lemma clamp_twice lo hi x :
  (lo < hi)%Q ->
  Float.max lo (Float.min hi (Float.max lo (Float.min hi x)))
  = Float.max lo (Float.min hi x).
Proof.
  intros Hlh. unfold Float.max, Float.min.
  destruct (Float.ltb x hi) eqn:E1.
  - destruct (Float.ltb lo x) eqn:E2.
    + by rewrite E1, E2.
    + assert (Float.ltb lo hi = true) as E3 by by apply FloatFacts.ltb_lt.
      by rewrite E3, FloatFacts.ltb_irrefl.
  - assert (Float.ltb lo hi = true) as E3 by by apply FloatFacts.ltb_lt.
    by rewrite E3, FloatFacts.ltb_irrefl, E3.
Qed.

(** X25: where the eight cells around a position are cells of the grid
    holding values below 10.0, sampling the converted sparse grid gives
    the value the dense grid gives. *)
Theorem sparse_sample_dense g pos :
  let voxel_pos := Glm.div (Glm.sub pos (aabb_min (bounds_ g))) (voxel_size_ g) in
  let x0 := Float.floor (vx voxel_pos) in
  let y0 := Float.floor (vy voxel_pos) in
  let z0 := Float.floor (vz voxel_pos) in
  0 <= x0 < resolution_ g - 1 -> 0 <= y0 < resolution_ g - 1 ->
  0 <= z0 < resolution_ g - 1 ->
  (forall dx dy dz, 0 <= dx <= 1 -> 0 <= dy <= 1 -> 0 <= dz <= 1 ->
     (Dense.get g (x0 + dx) (y0 + dy) (z0 + dz) < 10)%Q) ->
  Sparse.sample (Sparse.make g) pos = Dense.sample g pos.
Proof.
  intros voxel_pos x0 y0 z0 Hx Hy Hz Hnear.
  destruct (make_storage g) as (storage & Hs & Hr & Hb & Hv & _ & Hget).
  assert (forall dx dy dz, 0 <= dx <= 1 -> 0 <= dy <= 1 -> 0 <= dz <= 1 ->
            Sparse.getValue storage (x0 + dx) (y0 + dy) (z0 + dz)
            = Dense.get g (x0 + dx) (y0 + dy) (z0 + dz)) as Hsame.
  { intros dx dy dz Hdx Hdy Hdz. rewrite Hget.
    assert (Dense.in_bounds g (x0 + dx) (y0 + dy) (z0 + dz) = true) as ->.
    { apply DenseFacts.in_bounds_true. unfold in_range. lia. }
    assert (Float.ltb (Dense.get g (x0 + dx) (y0 + dy) (z0 + dz))
                      Float.lit_10 = true) as ->; [|done].
    apply FloatFacts.ltb_lt. by apply Hnear. }
  unfold Sparse.sample, Dense.sample. rewrite Hs.
  unfold Sparse.world_to_voxel. rewrite Hr, Hb, Hv.
  fold voxel_pos. fold x0 y0 z0. cbn [ix iy iz vx vy vz Glm.sub Glm.of_ivec].
  rewrite !clampi_id by lia.
  rewrite !(Z.min_l (_ + 1)) by lia. rewrite !Z.max_r by lia.
  pose proof (Hsame 0 0 0) as H000. pose proof (Hsame 1 0 0) as H100.
  pose proof (Hsame 0 1 0) as H010. pose proof (Hsame 1 1 0) as H110.
  pose proof (Hsame 0 0 1) as H001. pose proof (Hsame 1 0 1) as H101.
  pose proof (Hsame 0 1 1) as H011. pose proof (Hsame 1 1 1) as H111.
  rewrite !Z.add_0_r in *.
  rewrite H000, H100, H010, H110, H001, H101, H011, H111 by lia.
  reflexivity.
Qed.

(** X26: on a grid of resolution at least 1, the sparse
    [world_to_voxel] always names a cell of the grid, and it is the cell
    whose index is the floor of the scaled offset whenever that index is
    one. *)
Theorem sparse_world_to_voxel_clamped (g : SparseVoxelGrid) pos :
  1 <= sparse_resolution_ g ->
  let v := Sparse.world_to_voxel g pos in
  let n := Glm.div (Glm.sub pos (aabb_min (sparse_bounds_ g)))
                   (sparse_voxel_size_ g) in
  (0 <= ix v < sparse_resolution_ g /\ 0 <= iy v < sparse_resolution_ g /\
   0 <= iz v < sparse_resolution_ g) /\
  (0 <= Float.floor (vx n) < sparse_resolution_ g ->
   ix v = Float.floor (vx n)) /\
  (0 <= Float.floor (vy n) < sparse_resolution_ g ->
   iy v = Float.floor (vy n)) /\
  (0 <= Float.floor (vz n) < sparse_resolution_ g ->
   iz v = Float.floor (vz n)).
Proof.
  intros Hres v n. unfold v, Sparse.world_to_voxel. fold n. cbn [ix iy iz].
  pose proof (clampi_range (sparse_resolution_ g - 1) (Float.floor (vx n))).
  pose proof (clampi_range (sparse_resolution_ g - 1) (Float.floor (vy n))).
  pose proof (clampi_range (sparse_resolution_ g - 1) (Float.floor (vz n))).
  split; [lia|].
  split; [|split]; intros Hin; apply clampi_id; lia.
Qed.

(** X27: the conversion loops count what they store: the counter of
    non-background voxels is the number of entries of the tree the sparse
    grid is built from. *)
Theorem convert_counts_stored g :
  (Sparse.convert g).2 = size (Sparse.convert g).1 /\
  nanovdb_grid_ (Sparse.make g)
  = Some {| nano_tree := (Sparse.convert g).1;
            nano_background := Float.FLT_MAX |}.
Proof.
  split.
  - unfold Sparse.convert. rewrite LoopFacts.for3_cells.
    apply copy_voxels_count.
    + apply NoDup_cells3; apply NoDup_seqZ.
    + intros c _. apply lookup_empty.
    + cbn [fst snd]. by rewrite map_size_empty.
  - destruct (make_storage g) as (storage & Hs & _ & _ & _ & -> & _).
    exact Hs.
Qed.

(** X28: [validate] applied to validated options changes nothing, and
    [validate] never touches the iso-value, the cutoff height, the grid
    type or the smooth-minimum flag. *)
Theorem validate_idempotent o :
  Options.validate (Options.validate o) = Options.validate o /\
  iso_value (Options.validate o) = iso_value o /\
  max_z_height (Options.validate o) = max_z_height o /\
  grid_type (Options.validate o) = grid_type o /\
  use_smooth_minimum (Options.validate o) = use_smooth_minimum o.
Proof.
  split; [|done]. unfold Options.validate.
  cbn [grid_resolution smoothing_radius use_smooth_minimum segment_radius_mm
       iso_value grid_type max_z_height].
  rewrite !clamp_twice by reflexivity. f_equal. lia.
Qed.

Lemma sparse_sample_dense_witness :
  let g := Dense.fill (Dense.make 3 (MkAABB (Vec3 0 0 0) (Vec3 2 2 2))) 1 in
  Sparse.sample (Sparse.make g) (Vec3 (1 # 2) (1 # 2) (1 # 2))
  = Dense.sample g (Vec3 (1 # 2) (1 # 2) (1 # 2)).
Proof.
  intros g.
  apply (sparse_sample_dense g (Vec3 (1 # 2) (1 # 2) (1 # 2)));
    [vm_compute; split; [discriminate | reflexivity]..|].
  intros dx dy dz Hx Hy Hz.
  assert (dx = 0 \/ dx = 1) as [-> | ->] by lia;
  assert (dy = 0 \/ dy = 1) as [-> | ->] by lia;
  assert (dz = 0 \/ dz = 1) as [-> | ->] by lia; reflexivity.
Defined.

Lemma sparse_world_to_voxel_clamped_witness :
  let g := Sparse.make (Dense.make 3 (MkAABB (Vec3 0 0 0) (Vec3 2 2 2))) in
  1 <= sparse_resolution_ g /\
  0 <= ix (Sparse.world_to_voxel g (Vec3 17 0 (-4))) < sparse_resolution_ g.
Proof.
  intros g. assert (1 <= sparse_resolution_ g) as H by (vm_compute; discriminate).
  split; [exact H|].
  exact (proj1 (proj1 (sparse_world_to_voxel_clamped g (Vec3 17 0 (-4)) H))).
Defined.

End SparseMore.

(** ** Marching cubes: the degenerate interpolation *)

Module DegenerateMore.
Import MC.

(** X29: the [0.0001f] in the denominator does not keep the interpolation
    parameter from being [0/0]: on an edge whose first corner holds the
    iso-value and whose second corner is exactly [0.0001f] lower, the
    crossing point is the NaN vector. *)
Theorem degenerate_edge_nan g iso c e :
  let v0 := nthZ 0%Q (corner_values g c.1.1 c.1.2 c.2) (edge_connection e).1 in
  let v1 := nthZ 0%Q (corner_values g c.1.1 c.1.2 c.2) (edge_connection e).2 in
  (v0 == iso)%Q -> (v1 == v0 - Float.lit_0_0001)%Q ->
  edge_point g iso c e = None.
Proof.
  intros v0 v1 H0 H1. unfold edge_point, interpolate. fold v0 v1.
  assert (edge_parameter v0 v1 iso = None) as ->; [|done].
  unfold edge_parameter.
  assert (Qeq_bool (v1 - v0 + Float.lit_0_0001) 0 = true) as ->
    by (apply Qeq_bool_iff; lra).
  assert (Qeq_bool (iso - v0) 0 = true) as -> by (apply Qeq_bool_iff; lra).
  done.
Qed.

Lemma degenerate_edge_nan_witness :
  let g := Examples.degenerate_grid in
  (Dense.get g 0 0 0 == 0)%Q /\
  (Dense.get g 1 0 0 == Dense.get g 0 0 0 - Float.lit_0_0001)%Q /\
  edge_point g 0 (0, 0, 0) 0 = None.
Proof.
  intros g.
  assert (Dense.get g 0 0 0 == 0)%Q as H0 by reflexivity.
  assert (Dense.get g 1 0 0 == Dense.get g 0 0 0 - Float.lit_0_0001)%Q as H1
    by reflexivity.
  split; [exact H0|]. split; [exact H1|].
  exact (degenerate_edge_nan g 0 (0, 0, 0) 0 H0 H1).
Defined.

(** The mesh of that grid: one triangle, whose first vertex is NaN, and
    three NaN normals. *)
Example degenerate_mesh :
  let m := extract_surface (libm := Examples.libm) (tables := Examples.tables)
             Examples.degenerate_grid 0 Float.FLT_MAX in
  vertices m !! 0%nat = Some None /\
  length (vertices m) = 3%nat /\
  indices m = [0; 1; 2] /\
  normals m = [None; None; None].
Proof. vm_compute. repeat split. Qed.

End DegenerateMore.
